(** * Station control plane of the Memphis broker: a shallow embedding

  The development follows the station handlers of the [server] package
  (station lifecycle, schema attachment, dead-letter inspection, DLS
  bootstrap) and the SDK dispatcher of [memphis_sdk_handlers.go].  Go
  strings are modelled as ASCII byte strings, Go [int] as [Z], a Go [error]
  as an optional message, and every handler as a computation over an
  explicit [World] holding the metadata store, the stream engine and the
  trace of everything sent or called so far. *)

From Stdlib Require Import String Ascii List Bool ZArith NArith Arith Lia.
From Stdlib Require Import DecimalString.
Import ListNotations.
Local Open Scope string_scope.

Set Implicit Arguments.

(** ** Go strings *)

(** [strings.ToLower], restricted to ASCII input. *)
Definition toLowerChar (c : ascii) : ascii :=
  let n := N_of_ascii c in
  if (65 <=? n)%N && (n <=? 90)%N then ascii_of_N (n + 32) else c.

Fixpoint ToLower (s : string) : string :=
  match s with
  | EmptyString => EmptyString
  | String c r => String (toLowerChar c) (ToLower r)
  end.

(** [strings.Replace(s, old, new, -1)] for one-byte [old] and [new]. *)
Fixpoint ReplaceChar (old new : ascii) (s : string) : string :=
  match s with
  | EmptyString => EmptyString
  | String c r =>
      String (if Ascii.eqb c old then new else c) (ReplaceChar old new r)
  end.

Fixpoint forallbS (p : ascii -> bool) (s : string) : bool :=
  match s with
  | EmptyString => true
  | String c r => p c && forallbS p r
  end.

(** [strings.Split(s, sep)] for a non-empty separator: [skip] counts the
    characters of a separator occurrence that are still to be dropped,
    [cur] is the part read so far. *)
Fixpoint splitAux (sep : string) (skip : nat) (s cur : string) : list string :=
  match s with
  | EmptyString => [cur]
  | String c r =>
      match skip with
      | S k => splitAux sep k r cur
      | O =>
          if String.prefix sep s
          then cur :: splitAux sep (String.length sep - 1) r EmptyString
          else splitAux sep 0 r (cur ++ String c EmptyString)
      end
  end.

Fixpoint explode (s : string) : list string :=
  match s with
  | EmptyString => []
  | String c r => String c EmptyString :: explode r
  end.

(** [strings.Split]; with an empty separator Go splits after each
    character. *)
Definition Split (s sep : string) : list string :=
  match sep with
  | EmptyString => explode s
  | _ => splitAux sep 0 s EmptyString
  end.

(** A Go [error]: [None] is [nil], [Some m] an error whose [Error()] is [m]. *)
Definition error := option string.

(** A dead-letter envelope ([models.DlsMessage]), as far as resending reads
    it. *)
Record DlsMessage := {
  dls_ID : string;
  dls_StationName : string;
  dls_CgName : string;                       (* PoisonedCg.CgName *)
  dls_Headers : list (string * string);      (* Message.Headers *)
  dls_Data : string                          (* Message.Data, hex *)
}.

(** ** Constants and helpers that live outside the station handlers *)

(** The station handlers use a few package-level constants and library
    functions that are declared in other files.  They are collected here
    and threaded through the model. *)
Record Constants := {
  (** longest accepted object name *)
  maxNameLength : nat;
  (** the user-visible delimiter that is substituted in stream names *)
  delimiterToReplace : ascii;
  (** the engine-safe delimiter it is replaced with *)
  delimiterReplacement : ascii;
  (** [fmt.Sprintf(dlsStreamName, intern)] *)
  dlsStreamName : string -> string;
  (** separator between the parts of a DLS message id *)
  dlsMsgSep : string;
  (** [GetDlsSubject(kind, internStation, id)] *)
  GetDlsSubject : string -> string -> string -> string;
  (** [fmt.Sprintf(JSApiRequestNextT, stream, durable)] *)
  JSApiRequestNextT : string -> string -> string;
  (** [configuration.SHOWABLE_ERROR_STATUS_CODE] *)
  SHOWABLE_ERROR_STATUS_CODE : Z;
  (** [json.Unmarshal] into a [models.DlsMessage] *)
  jsonUnmarshalDlsMessage : string -> option DlsMessage;
  (** [hex.DecodeString] *)
  hexDecodeString : string -> option string
}.

Section Canonicalizer.

Variable K : Constants.

Record StationName := {
  internal : string;
  external : string
}.

Definition Ext (sn : StationName) : string := external sn.
Definition Intern (sn : StationName) : string := internal sn.

Definition stationObjectName : string := "Station".

(** Modelled from the spec: the character class of external names,
    "lowercase, dot/dash/underscore": lowercase letters, digits and the
    three delimiters. *)
Definition validNameChar (c : ascii) : bool :=
  let n := N_of_ascii c in
  ((97 <=? n)%N && (n <=? 122)%N) || ((48 <=? n)%N && (n <=? 57)%N)
  || Ascii.eqb c "." || Ascii.eqb c "-" || Ascii.eqb c "_".

(** Modelled from the spec: [validateName] is not part of the station
    handlers; the canonicalizer "validates character set and length" of
    the lowercased name, the class being lowercase alphanumerics with
    dot, dash and underscore. *)
Definition validateName (name objectType : string) : error :=
  if (String.length name =? 0)%nat then
    Some (objectType ++ " name can not be empty")
  else if (maxNameLength K <? String.length name)%nat then
    Some (objectType ++ " name is too long")
  else if forallbS validNameChar name then None
  else Some ("Invalid characters in " ++ objectType ++ " name").

(** Modelled from the spec: [replaceDelimiters] "substitutes user
    delimiters with engine-safe delimiters (reversible)". *)
Definition replaceDelimiters (name : string) : string :=
  ReplaceChar (delimiterToReplace K) (delimiterReplacement K) name.

(** Modelled from the spec: [revertDelimiters] is the substitution in the
    other direction. *)
Definition revertDelimiters (name : string) : string :=
  ReplaceChar (delimiterReplacement K) (delimiterToReplace K) name.

Definition StationNameFromStr (name : string) : StationName * error :=
  let extern := ToLower name in
  match validateName extern stationObjectName with
  | Some e => ({| internal := ""; external := "" |}, Some e)
  | None =>
      let intern := replaceDelimiters name in
      let intern := ToLower intern in
      ({| internal := intern; external := extern |}, None)
  end.

Definition StationNameFromStreamName (streamName : string) : StationName :=
  let intern := streamName in
  let extern := revertDelimiters intern in
  {| internal := intern; external := extern |}.

Definition validateRetentionType (retentionType : string) : error :=
  if negb (retentionType =? "message_age_sec")
     && negb (retentionType =? "messages")
     && negb (retentionType =? "bytes")
  then Some "retention type can be one of the following message_age_sec/messages/bytes"
  else None.

Definition validateStorageType (storageType : string) : error :=
  if negb (storageType =? "file") && negb (storageType =? "memory")
  then Some "storage type can be one of the following file/memory"
  else None.

Definition validateReplicas (replicas : Z) : error :=
  if (5 <? replicas)%Z then Some "max replicas in a cluster is 5" else None.

End Canonicalizer.

(** ** Data model ([models] package, the fields the handlers touch) *)

Record SchemaDetails := {
  SchemaName : string;
  VersionNumber : Z
}.

Record DlsConfiguration := {
  Poison : bool;
  Schemaverse : bool
}.

Record Station := {
  ID : nat;
  Name : string;
  RetentionType : string;
  RetentionValue : Z;
  StorageType : string;
  Replicas : Z;
  DedupEnabled : bool;
  DedupWindowInMs : Z;
  CreatedByUser : string;
  CreationDate : nat;
  LastUpdate : nat;
  Functions : list string;
  IsDeleted : bool;
  Schema : SchemaDetails;
  IdempotencyWindow : Z;
  DlsConfig : DlsConfiguration;
  IsNative : bool
}.

Definition zeroSchemaDetails : SchemaDetails :=
  {| SchemaName := ""; VersionNumber := 0 |}.

Definition zeroDlsConfiguration : DlsConfiguration :=
  {| Poison := false; Schemaverse := false |}.

(** The zero value of [models.Station]. *)
Definition zeroStation : Station :=
  {| ID := 0; Name := ""; RetentionType := ""; RetentionValue := 0;
     StorageType := ""; Replicas := 0; DedupEnabled := false;
     DedupWindowInMs := 0; CreatedByUser := ""; CreationDate := 0;
     LastUpdate := 0; Functions := []; IsDeleted := false;
     Schema := zeroSchemaDetails; IdempotencyWindow := 0;
     DlsConfig := zeroDlsConfiguration; IsNative := false |}.

Definition setName (n : string) (s : Station) : Station :=
  {| ID := ID s; Name := n; RetentionType := RetentionType s;
     RetentionValue := RetentionValue s; StorageType := StorageType s;
     Replicas := Replicas s; DedupEnabled := DedupEnabled s;
     DedupWindowInMs := DedupWindowInMs s; CreatedByUser := CreatedByUser s;
     CreationDate := CreationDate s; LastUpdate := LastUpdate s;
     Functions := Functions s; IsDeleted := IsDeleted s; Schema := Schema s;
     IdempotencyWindow := IdempotencyWindow s; DlsConfig := DlsConfig s;
     IsNative := IsNative s |}.

Definition setIsDeleted (b : bool) (s : Station) : Station :=
  {| ID := ID s; Name := Name s; RetentionType := RetentionType s;
     RetentionValue := RetentionValue s; StorageType := StorageType s;
     Replicas := Replicas s; DedupEnabled := DedupEnabled s;
     DedupWindowInMs := DedupWindowInMs s; CreatedByUser := CreatedByUser s;
     CreationDate := CreationDate s; LastUpdate := LastUpdate s;
     Functions := Functions s; IsDeleted := b; Schema := Schema s;
     IdempotencyWindow := IdempotencyWindow s; DlsConfig := DlsConfig s;
     IsNative := IsNative s |}.

Definition setSchema (sd : SchemaDetails) (s : Station) : Station :=
  {| ID := ID s; Name := Name s; RetentionType := RetentionType s;
     RetentionValue := RetentionValue s; StorageType := StorageType s;
     Replicas := Replicas s; DedupEnabled := DedupEnabled s;
     DedupWindowInMs := DedupWindowInMs s; CreatedByUser := CreatedByUser s;
     CreationDate := CreationDate s; LastUpdate := LastUpdate s;
     Functions := Functions s; IsDeleted := IsDeleted s; Schema := sd;
     IdempotencyWindow := IdempotencyWindow s; DlsConfig := DlsConfig s;
     IsNative := IsNative s |}.

Definition setDlsConfig (c : DlsConfiguration) (s : Station) : Station :=
  {| ID := ID s; Name := Name s; RetentionType := RetentionType s;
     RetentionValue := RetentionValue s; StorageType := StorageType s;
     Replicas := Replicas s; DedupEnabled := DedupEnabled s;
     DedupWindowInMs := DedupWindowInMs s; CreatedByUser := CreatedByUser s;
     CreationDate := CreationDate s; LastUpdate := LastUpdate s;
     Functions := Functions s; IsDeleted := IsDeleted s; Schema := Schema s;
     IdempotencyWindow := IdempotencyWindow s; DlsConfig := c;
     IsNative := IsNative s |}.

(** A persisted station document.  Documents written by older releases may
    lack the [is_deleted] field altogether; [has_is_deleted] records whether
    the field is present, [IsDeleted (body d)] its value when it is. *)
Record StationDoc := {
  body : Station;
  has_is_deleted : bool
}.

(** [Decode(&station)]: a missing boolean field decodes to [false]. *)
Definition decodeStation (d : StationDoc) : Station :=
  setIsDeleted (has_is_deleted d && IsDeleted (body d)) (body d).

Record SchemaRec := {
  schema_ID : nat;
  schema_Name : string;
  schema_Type : string
}.

Definition zeroSchema : SchemaRec :=
  {| schema_ID := 0; schema_Name := ""; schema_Type := "" |}.

Record SchemaVersion := {
  sv_VersionNumber : Z;
  sv_Active : bool;
  sv_SchemaContent : string;
  sv_SchemaId : nat
}.

Definition zeroSchemaVersion : SchemaVersion :=
  {| sv_VersionNumber := 0; sv_Active := false; sv_SchemaContent := "";
     sv_SchemaId := 0 |}.

Record ProducerSchemaUpdateInit := {
  init_SchemaName : string;
  init_VersionNumber : Z;
  init_Content : string;
  init_SchemaType : string
}.

Definition zeroInit : ProducerSchemaUpdateInit :=
  {| init_SchemaName := ""; init_VersionNumber := 0; init_Content := "";
     init_SchemaType := "" |}.

Inductive SchemaUpdateType := SchemaUpdateTypeInit | SchemaUpdateTypeDrop.

Record ProducerSchemaUpdate := {
  UpdateType : SchemaUpdateType;
  Init : ProducerSchemaUpdateInit
}.

(** Producers and consumers, as far as station removal touches them. *)
Record Member := {
  m_name : string;
  m_station_id : nat;
  m_is_active : bool;
  m_is_deleted : bool
}.

Record AuditLog := {
  al_StationName : string;
  al_Message : string;
  al_CreatedByUser : string;
  al_UserType : string
}.

Record User := {
  Username : string;
  UserType : string
}.

(** ** Stream engine *)

Record StoredMsg := {
  Subject : string;
  Sequence : nat;
  Data : string
}.

Record Stream := {
  stream_name : string;
  stream_msgs : list StoredMsg
}.

Inductive DeliverPolicy := DeliverAll.
Inductive AckPolicy := AckExplicit.

Record ConsumerConfig := {
  cc_DeliverPolicy : DeliverPolicy;
  cc_AckPolicy : AckPolicy;
  Durable : string;
  FilterSubject : string
}.

Record Consumer := {
  cons_stream : string;
  cons_config : ConsumerConfig
}.
(** ** Metadata store: filters and updates on the stations collection *)

(** The [bson.M] filters the handlers build over station documents. *)
Inductive Filter :=
| F_name (n : string)               (* "name": n *)
| F_name_in (ns : list string)      (* "name": {"$in": ns} *)
| F_is_deleted (b : bool)           (* "is_deleted": b *)
| F_is_deleted_exists (b : bool)    (* "is_deleted": {"$exists": b} *)
| F_or (f g : Filter)               (* "$or": [f, g] *)
| F_and (f g : Filter).             (* a document with two keys *)

(** A field that is absent equals no value: ["is_deleted": false] does not
    select a document without the field. *)
Fixpoint matches (f : Filter) (d : StationDoc) : bool :=
  match f with
  | F_name n => Name (body d) =? n
  | F_name_in ns => existsb (String.eqb (Name (body d))) ns
  | F_is_deleted b => has_is_deleted d && Bool.eqb (IsDeleted (body d)) b
  | F_is_deleted_exists b => Bool.eqb (has_is_deleted d) b
  | F_or f g => matches f d || matches g d
  | F_and f g => matches f d && matches g d
  end.

(** The update documents of the handlers. *)
Inductive Update :=
| U_set_is_deleted (b : bool)                  (* "$set": {"is_deleted": b} *)
| U_set_schema (sd : SchemaDetails)            (* "$set": {"schema": sd} *)
| U_set_dls_configuration (c : DlsConfiguration)
| U_setOnInsert (st : Station).                (* "$setOnInsert": {...} *)

(** Effect of an update on a document the filter selected. *)
Definition applyUpdate (u : Update) (d : StationDoc) : StationDoc :=
  match u with
  | U_set_is_deleted b =>
      {| body := setIsDeleted b (body d); has_is_deleted := true |}
  | U_set_schema sd =>
      {| body := setSchema sd (body d); has_is_deleted := has_is_deleted d |}
  | U_set_dls_configuration c =>
      {| body := setDlsConfig c (body d); has_is_deleted := has_is_deleted d |}
  | U_setOnInsert _ => d
  end.

(** The document an upsert starts from: the equality conditions of the
    filter. *)
Fixpoint seedDoc (f : Filter) (d : StationDoc) : StationDoc :=
  match f with
  | F_name n => {| body := setName n (body d); has_is_deleted := has_is_deleted d |}
  | F_is_deleted b => {| body := setIsDeleted b (body d); has_is_deleted := true |}
  | F_and f g => seedDoc g (seedDoc f d)
  | _ => d
  end.

(** Effect of an update on the document an upsert inserts.  The
    [$setOnInsert] documents of [CreateStation] list every field of the
    station except [name] and [is_deleted]. *)
Definition applyOnInsert (u : Update) (d : StationDoc) : StationDoc :=
  match u with
  | U_setOnInsert st =>
      {| body := setIsDeleted (IsDeleted (body d)) (setName (Name (body d)) st);
         has_is_deleted := has_is_deleted d |}
  | _ => applyUpdate u d
  end.

Definition findOne (f : Filter) (coll : list StationDoc) : option StationDoc :=
  find (matches f) coll.

Definition findMany (f : Filter) (coll : list StationDoc) : list StationDoc :=
  filter (matches f) coll.

(** [UpdateOne]: the first selected document is updated. *)
Fixpoint updateOne (f : Filter) (u : Update) (coll : list StationDoc)
  : list StationDoc :=
  match coll with
  | [] => []
  | d :: r => if matches f d then applyUpdate u d :: r
              else d :: updateOne f u r
  end.

Definition updateMany (f : Filter) (u : Update) (coll : list StationDoc)
  : list StationDoc :=
  map (fun d => if matches f d then applyUpdate u d else d) coll.

Definition matchedCount (f : Filter) (coll : list StationDoc) : nat :=
  if existsb (matches f) coll then 1 else 0.

(** [UpdateOne] with [SetUpsert(true)]: when nothing is selected a document
    is inserted. *)
Definition upsertOne (f : Filter) (u : Update) (coll : list StationDoc)
  : list StationDoc :=
  if existsb (matches f) coll then updateOne f u coll
  else (coll ++ [applyOnInsert u
                   (seedDoc f {| body := zeroStation; has_is_deleted := false |})])%list.

(** ** Observable events *)

Inductive HttpBody :=
| B_message (m : string)                        (* gin.H{"message": m} *)
| B_empty                                       (* gin.H{} *)
| B_schema (name : string) (version : Z) (updatesAvailable : bool)
| B_tags (tags : list string) (storageType : string)
| B_station (s : Station) (extra : HttpBody)    (* a station document *)
| B_dls (poison schemaverse : bool).

Inductive Event :=
(* replies and publications of the broker *)
| E_respond (replySubject payload : string)     (* respondOnGlobalAcc *)
| E_apiErrResponse (replySubject errMsg : string) (* sendAPIErrResponse *)
| E_schemaUpdate (subject : string) (u : ProducerSchemaUpdate)
| E_resend (subject data : string) (headers : list (string * string))
| E_http (status : Z) (b : HttpBody)
| E_analytics (user eventName : string)
| E_log (line : string)
(* calls into the stream engine *)
| E_streamInfo (stream : string)
| E_addConsumer (stream : string) (cc : ConsumerConfig)
| E_subscribe (subject : string)
| E_requestNext (subject reply : string) (amount : nat)
| E_ack (seq : nat)
| E_unsubscribe (subject : string)
| E_removeConsumer (stream durable : string)
| E_deleteMsg (stream : string) (seq : nat)
(* bookkeeping: a message appended to the local buffer of a fetch loop *)
| E_collected (m : StoredMsg).

(** ** The world a handler runs in *)

(** The calls that may fail for reasons outside the model (store or engine
    unavailable, marshalling errors). *)
Inductive Op :=
| OpIsStationExist | OpIsSchemaExist | OpGetActiveVersion
| OpGenerateSchemaUpdateInit
| OpStationsFind | OpStationsInsert | OpStationsUpdate
| OpProducersUpdate | OpConsumersUpdate
| OpCreateAuditLogs | OpRemoveAuditLogs | OpTags | OpUserDetails
| OpCreateStream | OpCreateDlsStream | OpRemoveStream
| OpStreamInfo | OpAddConsumer | OpSubscribe | OpRemoveConsumer
| OpDeleteMsg | OpResend.

Definition Op_eqb (a b : Op) : bool :=
  match a, b with
  | OpIsStationExist, OpIsStationExist | OpIsSchemaExist, OpIsSchemaExist
  | OpGetActiveVersion, OpGetActiveVersion
  | OpGenerateSchemaUpdateInit, OpGenerateSchemaUpdateInit
  | OpStationsFind, OpStationsFind | OpStationsInsert, OpStationsInsert
  | OpStationsUpdate, OpStationsUpdate
  | OpProducersUpdate, OpProducersUpdate
  | OpConsumersUpdate, OpConsumersUpdate
  | OpCreateAuditLogs, OpCreateAuditLogs
  | OpRemoveAuditLogs, OpRemoveAuditLogs | OpTags, OpTags
  | OpUserDetails, OpUserDetails
  | OpCreateStream, OpCreateStream | OpCreateDlsStream, OpCreateDlsStream
  | OpRemoveStream, OpRemoveStream | OpStreamInfo, OpStreamInfo
  | OpAddConsumer, OpAddConsumer | OpSubscribe, OpSubscribe
  | OpRemoveConsumer, OpRemoveConsumer | OpDeleteMsg, OpDeleteMsg
  | OpResend, OpResend => true
  | _, _ => false
  end.

Record World := {
  (* metadata store *)
  stationsCollection : list StationDoc;
  schemasCollection : list SchemaRec;
  schemaVersionsCollection : list SchemaVersion;
  producersCollection : list Member;
  consumersCollection : list Member;
  auditLogsCollection : list AuditLog;
  (* stream engine *)
  streams : list Stream;
  consumers : list Consumer;
  (* process state *)
  nextID : nat;              (* source of object ids and nuids *)
  now : nat;                 (* time.Now() *)
  analyticsEnabled : bool;   (* shouldSendAnalytics() *)
  (* environment *)
  failing : list Op;         (* calls that fail *)
  beforeTimeout : nat;       (* deliveries that beat the fetch timer *)
  (* everything sent or called so far, oldest first *)
  trace : list Event
}.

Definition withTrace (t : list Event) (w : World) : World :=
  {| stationsCollection := stationsCollection w;
     schemasCollection := schemasCollection w;
     schemaVersionsCollection := schemaVersionsCollection w;
     producersCollection := producersCollection w;
     consumersCollection := consumersCollection w;
     auditLogsCollection := auditLogsCollection w;
     streams := streams w; consumers := consumers w;
     nextID := nextID w; now := now w;
     analyticsEnabled := analyticsEnabled w; failing := failing w;
     beforeTimeout := beforeTimeout w; trace := t |}.

Definition withStations (c : list StationDoc) (w : World) : World :=
  {| stationsCollection := c;
     schemasCollection := schemasCollection w;
     schemaVersionsCollection := schemaVersionsCollection w;
     producersCollection := producersCollection w;
     consumersCollection := consumersCollection w;
     auditLogsCollection := auditLogsCollection w;
     streams := streams w; consumers := consumers w;
     nextID := nextID w; now := now w;
     analyticsEnabled := analyticsEnabled w; failing := failing w;
     beforeTimeout := beforeTimeout w; trace := trace w |}.

Definition withMembers (p c : list Member) (w : World) : World :=
  {| stationsCollection := stationsCollection w;
     schemasCollection := schemasCollection w;
     schemaVersionsCollection := schemaVersionsCollection w;
     producersCollection := p;
     consumersCollection := c;
     auditLogsCollection := auditLogsCollection w;
     streams := streams w; consumers := consumers w;
     nextID := nextID w; now := now w;
     analyticsEnabled := analyticsEnabled w; failing := failing w;
     beforeTimeout := beforeTimeout w; trace := trace w |}.

Definition withAuditLogs (a : list AuditLog) (w : World) : World :=
  {| stationsCollection := stationsCollection w;
     schemasCollection := schemasCollection w;
     schemaVersionsCollection := schemaVersionsCollection w;
     producersCollection := producersCollection w;
     consumersCollection := consumersCollection w;
     auditLogsCollection := a;
     streams := streams w; consumers := consumers w;
     nextID := nextID w; now := now w;
     analyticsEnabled := analyticsEnabled w; failing := failing w;
     beforeTimeout := beforeTimeout w; trace := trace w |}.

Definition withStreams (s : list Stream) (w : World) : World :=
  {| stationsCollection := stationsCollection w;
     schemasCollection := schemasCollection w;
     schemaVersionsCollection := schemaVersionsCollection w;
     producersCollection := producersCollection w;
     consumersCollection := consumersCollection w;
     auditLogsCollection := auditLogsCollection w;
     streams := s; consumers := consumers w;
     nextID := nextID w; now := now w;
     analyticsEnabled := analyticsEnabled w; failing := failing w;
     beforeTimeout := beforeTimeout w; trace := trace w |}.

Definition withConsumers (c : list Consumer) (w : World) : World :=
  {| stationsCollection := stationsCollection w;
     schemasCollection := schemasCollection w;
     schemaVersionsCollection := schemaVersionsCollection w;
     producersCollection := producersCollection w;
     consumersCollection := consumersCollection w;
     auditLogsCollection := auditLogsCollection w;
     streams := streams w; consumers := c;
     nextID := nextID w; now := now w;
     analyticsEnabled := analyticsEnabled w; failing := failing w;
     beforeTimeout := beforeTimeout w; trace := trace w |}.

Definition withNextID (n : nat) (w : World) : World :=
  {| stationsCollection := stationsCollection w;
     schemasCollection := schemasCollection w;
     schemaVersionsCollection := schemaVersionsCollection w;
     producersCollection := producersCollection w;
     consumersCollection := consumersCollection w;
     auditLogsCollection := auditLogsCollection w;
     streams := streams w; consumers := consumers w;
     nextID := n; now := now w;
     analyticsEnabled := analyticsEnabled w; failing := failing w;
     beforeTimeout := beforeTimeout w; trace := trace w |}.

(** ** Handlers as computations

    A handler either runs on ([Next]), has executed a [return]
    ([Returned]) or has panicked ([Panicked]); the latter two skip the rest
    of the handler. *)

Inductive Step (A : Type) :=
| Next (a : A)
| Returned
| Panicked.

Arguments Returned {A}.
Arguments Panicked {A}.

Definition M (A : Type) := World -> Step A * World.

Definition ret {A} (a : A) : M A := fun w => (Next a, w).

Definition bind {A B} (m : M A) (k : A -> M B) : M B :=
  fun w =>
    match m w with
    | (Next a, w') => k a w'
    | (Returned, w') => (Returned, w')
    | (Panicked, w') => (Panicked, w')
    end.

Definition return_ {A} : M A := fun w => (Returned, w).
Definition panic {A} : M A := fun w => (Panicked, w).

Definition when (b : bool) (m : M unit) : M unit :=
  if b then m else ret tt.

Definition gets {A} (f : World -> A) : M A := fun w => (Next (f w), w).
Definition modify (f : World -> World) : M unit := fun w => (Next tt, f w).

(** The world a handler leaves behind. *)
Definition exec {A} (m : M A) (w : World) : World := snd (m w).
Definition outcome {A} (m : M A) (w : World) : Step A := fst (m w).

Declare Scope handler_scope.
Delimit Scope handler_scope with handler.
Notation "x <- m ;; k" := (bind m (fun x => k))
  (at level 61, m at next level, right associativity) : handler_scope.
Notation "' pat <- m ;; k" := (bind m (fun x => match x with pat => k end))
  (at level 61, pat pattern, m at next level, right associativity) : handler_scope.
Notation "m ;; k" := (bind m (fun _ => k))
  (at level 61, right associativity) : handler_scope.
Open Scope handler_scope.

(** A [for ... range] loop whose body may return from the handler. *)
Fixpoint forEach {A} (l : list A) (bodyOf : A -> M unit) : M unit :=
  match l with
  | [] => ret tt
  | x :: r => bodyOf x ;; forEach r bodyOf
  end.

Definition emit (e : Event) : M unit :=
  modify (fun w => withTrace (trace w ++ [e])%list w).

Definition fails (op : Op) : M bool :=
  gets (fun w => existsb (Op_eqb op) (failing w)).

(** [serv.Errorf], [serv.Warnf] and [serv.Noticef]. *)
Definition Errorf (line : string) : M unit := emit (E_log line).
Definition Warnf (line : string) : M unit := emit (E_log line).
Definition Noticef (line : string) : M unit := emit (E_log line).

(** [l[i]]: indexing out of range panics. *)
Definition index {A} (l : list A) (i : nat) : M A :=
  match nth_error l i with
  | Some x => ret x
  | None => panic
  end.

(** [err.Error()]: a method call on a nil interface value panics. *)
Definition Error (e : error) : M string :=
  match e with
  | Some m => ret m
  | None => panic
  end.

Definition NewObjectID : M nat :=
  n <- gets nextID ;;
  modify (withNextID (S n)) ;;
  ret n.

Definition timeNow : M nat := gets now.

Definition decimal (n : nat) : string :=
  NilEmpty.string_of_uint (Nat.to_uint n).

(** [serv.memphis.nuid.Next()]: a fresh identifier. *)
Definition nuidNext : M string :=
  n <- NewObjectID ;;
  ret (decimal n).

(** ** Replies ([memphis_sdk_handlers.go]) *)

Definition respondOnGlobalAcc (replySubject resp : string) : M unit :=
  emit (E_respond replySubject resp).

Definition respondWithErr (replySubject : string) (err : error) : M unit :=
  let resp := "" in
  let resp := match err with Some m => m | None => resp end in
  respondOnGlobalAcc replySubject resp.

(** The error member of a JetStream API response, by its description. *)
Definition ApiError := string.

Definition NewJSStreamCreateError (err : error) : ApiError :=
  match err with Some m => m | None => "<nil>" end.
Definition NewJSStreamDeleteError (err : error) : ApiError :=
  match err with Some m => m | None => "<nil>" end.
Definition NewJSStreamNameExistError : ApiError :=
  "stream name already in use".

Definition respondWithErrOrJsApiResp (jsApi : bool) (reply : string)
    (resp : ApiError) (err : error) : M unit :=
  if jsApi then emit (E_apiErrResponse reply resp)
  else respondWithErr reply err.

(** [if err != nil { ... }], the body receiving [err.Error()]. *)
Definition ifErr (err : error) (k : string -> M unit) : M unit :=
  match err with
  | Some e => k e
  | None => ret tt
  end.

(** ** Metadata repository *)

(** The filter of the lookups: the name, and not deleted. *)
Definition liveByName (n : string) : Filter :=
  F_and (F_name n) (F_or (F_is_deleted false) (F_is_deleted_exists false)).

(** Modelled from the spec: [IsStationExist] is declared in another file;
    it queries "for an existing non-deleted station with this external
    name" and hands back the zero-valued station record when there is
    none.  Non-deleted is read as in the lookups of the station handlers:
    [is_deleted] false or absent. *)
Definition IsStationExist (sn : StationName) : M (bool * Station * error) :=
  bad <- fails OpIsStationExist ;;
  if bad : bool then ret (false, zeroStation, Some "store failure")
  else
    coll <- gets stationsCollection ;;
    match findOne (liveByName (Ext sn)) coll with
    | Some d => ret (true, decodeStation d, None)
    | None => ret (false, zeroStation, None)
    end.

(** Modelled from the spec: [IsSchemaExist] "verifies the schema exists",
    by name. *)
Definition IsSchemaExist (schemaName : string) : M (bool * SchemaRec * error) :=
  bad <- fails OpIsSchemaExist ;;
  if bad : bool then ret (false, zeroSchema, Some "store failure")
  else
    coll <- gets schemasCollection ;;
    match find (fun s => schema_Name s =? schemaName) coll with
    | Some s => ret (true, s, None)
    | None => ret (false, zeroSchema, None)
    end.

(** Modelled from the spec: [getActiveVersionBySchemaId] "fetches the active
    version" of a schema; a schema without one is a store error. *)
Definition getActiveVersionBySchemaId (id : nat) : M (SchemaVersion * error) :=
  bad <- fails OpGetActiveVersion ;;
  if bad : bool then ret (zeroSchemaVersion, Some "store failure")
  else
    coll <- gets schemaVersionsCollection ;;
    match find (fun v => (sv_SchemaId v =? id)%nat && sv_Active v) coll with
    | Some v => ret (v, None)
    | None => ret (zeroSchemaVersion, Some "mongo: no documents in result")
    end.

(** Modelled from the spec: [generateSchemaUpdateInit] builds the [Init]
    update "carrying the resolved schema content", that is the active
    version of the schema. *)
Definition generateSchemaUpdateInit (schema : SchemaRec)
  : M (ProducerSchemaUpdateInit * error) :=
  bad <- fails OpGenerateSchemaUpdateInit ;;
  if bad : bool then ret (zeroInit, Some "schema update generation failure")
  else
    '(activeVersion, err) <- getActiveVersionBySchemaId (schema_ID schema) ;;
    match err with
    | Some e => ret (zeroInit, Some e)
    | None =>
        ret ({| init_SchemaName := schema_Name schema;
                init_VersionNumber := sv_VersionNumber activeVersion;
                init_Content := sv_SchemaContent activeVersion;
                init_SchemaType := schema_Type schema |}, None)
    end.

(** Modelled from the spec: [updateStationProducersOfSchemaChange] publishes
    the update on the station-scoped subject
    [$memphis_schema_updates_<internalStation>]. *)
Definition updateStationProducersOfSchemaChange (sn : StationName)
    (update : ProducerSchemaUpdate) : M unit :=
  emit (E_schemaUpdate ("$memphis_schema_updates_" ++ Intern sn) update).

Definition stations_InsertOne (st : Station) : M error :=
  bad <- fails OpStationsInsert ;;
  if bad : bool then ret (Some "store failure")
  else
    modify (fun w => withStations
      (stationsCollection w ++ [{| body := st; has_is_deleted := true |}])%list w) ;;
    ret None.

Definition stations_UpdateOne (f : Filter) (u : Update) : M error :=
  bad <- fails OpStationsUpdate ;;
  if bad : bool then ret (Some "store failure")
  else
    modify (fun w => withStations (updateOne f u (stationsCollection w)) w) ;;
    ret None.

Definition stations_UpdateMany (f : Filter) (u : Update) : M error :=
  bad <- fails OpStationsUpdate ;;
  if bad : bool then ret (Some "store failure")
  else
    modify (fun w => withStations (updateMany f u (stationsCollection w)) w) ;;
    ret None.

(** [UpdateOne] with the upsert option; the first component is
    [MatchedCount]. *)
Definition stations_UpsertOne (f : Filter) (u : Update) : M (nat * error) :=
  bad <- fails OpStationsUpdate ;;
  if bad : bool then ret (0, Some "store failure")
  else
    coll <- gets stationsCollection ;;
    modify (withStations (upsertOne f u coll)) ;;
    ret (matchedCount f coll, None).

(** [FindOne(filter).Decode(&station)]. *)
Inductive FindResult :=
| Found (station : Station)
| ErrNoDocuments
| FindError (e : string).

Definition stations_FindOne (f : Filter) : M FindResult :=
  bad <- fails OpStationsFind ;;
  if bad : bool then ret (FindError "store failure")
  else
    coll <- gets stationsCollection ;;
    match findOne f coll with
    | Some d => ret (Found (decodeStation d))
    | None => ret ErrNoDocuments
    end.

Definition stations_Find (f : Filter) : M (list Station * error) :=
  bad <- fails OpStationsFind ;;
  if bad : bool then ret ([], Some "store failure")
  else
    coll <- gets stationsCollection ;;
    ret (map decodeStation (findMany f coll), None).

Definition markRemoved (stationId : nat) (m : Member) : Member :=
  if (m_station_id m =? stationId)%nat
  then {| m_name := m_name m; m_station_id := m_station_id m;
          m_is_active := false; m_is_deleted := true |}
  else m.

(** [producersCollection.UpdateMany] of [removeStationResources]. *)
Definition producers_UpdateMany (stationId : nat) : M error :=
  bad <- fails OpProducersUpdate ;;
  if bad : bool then ret (Some "store failure")
  else
    modify (fun w => withMembers (map (markRemoved stationId) (producersCollection w))
                                 (consumersCollection w) w) ;;
    ret None.

Definition consumers_UpdateMany (stationId : nat) : M error :=
  bad <- fails OpConsumersUpdate ;;
  if bad : bool then ret (Some "store failure")
  else
    modify (fun w => withMembers (producersCollection w)
                                 (map (markRemoved stationId) (consumersCollection w)) w) ;;
    ret None.

Definition CreateAuditLogs (logs : list AuditLog) : M error :=
  bad <- fails OpCreateAuditLogs ;;
  if bad : bool then ret (Some "store failure")
  else
    modify (fun w => withAuditLogs (auditLogsCollection w ++ logs)%list w) ;;
    ret None.

Definition RemoveAllAuditLogsByStation (name : string) : M error :=
  bad <- fails OpRemoveAuditLogs ;;
  if bad : bool then ret (Some "store failure")
  else
    modify (fun w => withAuditLogs
      (filter (fun l => negb (al_StationName l =? name)) (auditLogsCollection w)) w) ;;
    ret None.

(** Tags belong to another handler; only their failures are visible here. *)
Definition DeleteTagsFromStation (stationId : nat) : M unit := ret tt.

Definition GetTagsByStation (stationId : nat) : M (list string * error) :=
  bad <- fails OpTags ;;
  if bad : bool then ret ([], Some "store failure") else ret ([], None).

Definition AddTagsToEntity (tags : list string) (stationId : nat) : M error :=
  bad <- fails OpTags ;;
  if bad : bool then ret (Some "store failure") else ret None.

Definition shouldSendAnalytics : M bool := gets analyticsEnabled.

Definition SendEvent (user eventName : string) : M unit :=
  emit (E_analytics user eventName).

(** The gin context of an HTTP request: the authenticated user, if any. *)
Record GinContext := {
  ctx_user : option User
}.

Definition zeroUser : User := {| Username := ""; UserType := "" |}.

Definition getUserDetailsFromMiddleware (c : GinContext) : M (User * error) :=
  bad <- fails OpUserDetails ;;
  if bad : bool then ret (zeroUser, Some "Username is empty")
  else
    match ctx_user c with
    | Some u => ret (u, None)
    | None => ret (zeroUser, Some "Username is empty")
    end.

Definition AbortWithStatusJSON (status : Z) (b : HttpBody) : M unit :=
  emit (E_http status b).

Definition IndentedJSON (status : Z) (b : HttpBody) : M unit :=
  emit (E_http status b).

(** The SDK client a request came from. *)
Record client := {
  username : string
}.

(** ** Stream engine adapter *)

Definition JSStreamNotFoundErr : string := "stream not found".

(** [IsNatsErr(err, JSStreamNotFoundErr)]. *)
Definition IsNatsErr (err : error) (code : string) : bool :=
  match err with Some e => e =? code | None => false end.

Definition hasStream (name : string) (l : list Stream) : bool :=
  existsb (fun s => stream_name s =? name) l.

Definition addStream (name : string) (l : list Stream) : list Stream :=
  if hasStream name l then l
  else (l ++ [{| stream_name := name; stream_msgs := [] |}])%list.

Definition stationStreamName (sn : StationName) : string := Intern sn.

(** Modelled from the spec: [CreateStream] creates the main stream, "named
    by its internal name"; creation is idempotent. *)
Definition CreateStream (sn : StationName) (st : Station) : M error :=
  bad <- fails OpCreateStream ;;
  if bad : bool then ret (Some "engine failure")
  else
    modify (fun w => withStreams (addStream (stationStreamName sn) (streams w)) w) ;;
    ret None.

(** Modelled from the spec: [RemoveStream] deletes a stream and reports a
    missing one. *)
Definition RemoveStream (name : string) : M error :=
  bad <- fails OpRemoveStream ;;
  if bad : bool then ret (Some "engine failure")
  else
    l <- gets streams ;;
    if hasStream name l then
      modify (withStreams (filter (fun s => negb (stream_name s =? name)) l)) ;;
      ret None
    else ret (Some JSStreamNotFoundErr).

(** Modelled from the spec: [memphisStreamInfo] reports the state of a
    stream; the handlers read [State.Msgs], the number of stored
    messages. *)
Definition memphisStreamInfo (name : string) : M (nat * error) :=
  emit (E_streamInfo name) ;;
  bad <- fails OpStreamInfo ;;
  if bad : bool then ret (0, Some "engine failure")
  else
    l <- gets streams ;;
    match find (fun s => stream_name s =? name) l with
    | Some s => ret (List.length (stream_msgs s), None)
    | None => ret (0, Some JSStreamNotFoundErr)
    end.

Definition isConsumer (stream durable : string) (c : Consumer) : bool :=
  (cons_stream c =? stream) && (Durable (cons_config c) =? durable).

(** Modelled from the spec: [memphisAddConsumer] creates a durable consumer
    on an existing stream.  Durable names are unique (the handlers draw them
    from the nuid source); a name that is taken on the stream is refused. *)
Definition memphisAddConsumer (stream : string) (cc : ConsumerConfig) : M error :=
  emit (E_addConsumer stream cc) ;;
  bad <- fails OpAddConsumer ;;
  if bad : bool then ret (Some "engine failure")
  else
    l <- gets streams ;;
    cs <- gets consumers ;;
    if hasStream stream l then
      if existsb (isConsumer stream (Durable cc)) cs then
        ret (Some "consumer name already in use")
      else
        modify (withConsumers
          (cs ++ [{| cons_stream := stream; cons_config := cc |}])%list) ;;
        ret None
    else ret (Some JSStreamNotFoundErr).

(** Modelled from the spec: [memphisRemoveConsumer] removes a durable
    consumer. *)
Definition memphisRemoveConsumer (stream durable : string) : M error :=
  emit (E_removeConsumer stream durable) ;;
  bad <- fails OpRemoveConsumer ;;
  if bad : bool then ret (Some "engine failure")
  else
    modify (fun w => withConsumers
      (filter (fun c => negb (isConsumer stream durable c)) (consumers w)) w) ;;
    ret None.

Definition deleteSeq (stream : string) (seq : nat) (s : Stream) : Stream :=
  if stream_name s =? stream
  then {| stream_name := stream_name s;
          stream_msgs := filter (fun m => negb (Sequence m =? seq)%nat) (stream_msgs s) |}
  else s.

(** Modelled from the spec: [memphisDeleteMsgFromStream] "deletes messages
    by sequence". *)
Definition memphisDeleteMsgFromStream (stream : string) (seq : nat) : M error :=
  emit (E_deleteMsg stream seq) ;;
  bad <- fails OpDeleteMsg ;;
  if bad : bool then ret (Some "engine failure")
  else
    l <- gets streams ;;
    if hasStream stream l then
      modify (withStreams (map (deleteSeq stream seq) l)) ;;
      ret None
    else ret (Some JSStreamNotFoundErr).

Definition subscribeOnGlobalAcc (subject : string) : M error :=
  bad <- fails OpSubscribe ;;
  if bad : bool then ret (Some "subscription failure")
  else emit (E_subscribe subject) ;; ret None.

Definition unsubscribeOnGlobalAcc (subject : string) : M unit :=
  emit (E_unsubscribe subject).

(** The "request next" call on a durable consumer. *)
Definition sendInternalAccountMsgWithReply (subject reply : string)
    (amount : nat) : M unit :=
  emit (E_requestNext subject reply amount).

(** Modelled from the spec: what a "request next" for [amount] messages
    makes the engine deliver on the reply subject: the messages of the
    stream on the consumer's filter subject, oldest first, at most [amount]
    of them.  Of these, [beforeTimeout] reach the handler before its timer
    fires.  Filter subjects are compared literally. *)
Definition deliveries (stream durable : string) (amount : nat)
  : M (list StoredMsg) :=
  w <- gets (fun w => w) ;;
  match find (isConsumer stream durable) (consumers w),
        find (fun s => stream_name s =? stream) (streams w) with
  | Some c, Some s =>
      ret (firstn (beforeTimeout w)
             (firstn amount
                (filter (fun m => Subject m =? FilterSubject (cons_config c))
                        (stream_msgs s))))
  | _, _ => ret []
  end.

(** The collection loop of a fetch:
    [for i := 0; i < amount; i++ { select { timer | message } }].
    [arrivals] are the messages that are delivered before the timer fires;
    each was acknowledged by the subscription callback before it is
    received here. *)
Fixpoint fetchLoop (amount : nat) (arrivals msgs : list StoredMsg)
  : M (list StoredMsg) :=
  match amount with
  | O => ret msgs
  | S n =>
      match arrivals with
      | [] => ret msgs                        (* case <-timer.C: goto cleanup *)
      | msg :: rest =>                        (* case msg := <-responseChan *)
          emit (E_ack (Sequence msg)) ;;
          emit (E_collected msg) ;;
          fetchLoop n rest (msgs ++ [msg])%list
      end
  end.

(** Decoding of a request payload ([json.Unmarshal]).  On an error the
    target keeps what was decoded before it: [partial] is the request as the
    failed decoding leaves it, the fields it did not reach at their zero
    values. *)
Inductive Payload (A : Type) :=
| Malformed (e : string) (partial : A)
| Decoded (a : A).

Arguments Malformed {A}.

(** ** Station lifecycle handlers *)

Section Handlers.

Variable K : Constants.

(** Modelled from the spec: [CreateDlsStream] creates the DLS stream, "named
    by a fixed template over the internal name". *)
Definition CreateDlsStream (sn : StationName) (st : Station) : M error :=
  bad <- fails OpCreateDlsStream ;;
  if bad : bool then ret (Some "engine failure")
  else
    modify (fun w => withStreams
      (addStream (dlsStreamName K (Intern sn)) (streams w)) w) ;;
    ret None.

Record createStationRequest := {
  csr_StationName : string;
  csr_SchemaName : string;
  csr_RetentionType : string;
  csr_RetentionValue : Z;
  csr_StorageType : string;
  csr_Replicas : Z;
  csr_DedupEnabled : bool;
  csr_DedupWindowMillis : Z;
  csr_IdempotencyWindow : Z;
  csr_DlsConfiguration : DlsConfiguration
}.

Record destroyStationRequest := {
  dsr_StationName : string
}.

Record attachSchemaRequest := {
  asr_Name : string;
  asr_StationName : string
}.

Definition createStationDirectIntern (c : client) (reply : string)
    (csr : createStationRequest)
    (nonNativeCreateStreamFunc : option (M error)) : M unit :=
  let isNative :=
    match nonNativeCreateStreamFunc with None => true | Some _ => false end in
  let '(stationName, err) := StationNameFromStr K (csr_StationName csr) in
  ifErr err (fun e =>
    Warnf ("createStationDirect: Station " ++ csr_StationName csr ++ ": " ++ e) ;;
    respondWithErrOrJsApiResp (negb isNative) reply (NewJSStreamCreateError err) err ;;
    return_) ;;

  '(exist_, _, err) <- IsStationExist stationName ;;
  ifErr err (fun e =>
    Errorf ("createStationDirect: Station " ++ csr_StationName csr ++ ": " ++ e) ;;
    respondWithErrOrJsApiResp (negb isNative) reply (NewJSStreamCreateError err) err ;;
    return_) ;;

  when exist_ (
    let errMsg := "Station " ++ Ext stationName ++ " already exists" in
    Warnf ("createStationDirect: " ++ errMsg) ;;
    respondWithErrOrJsApiResp (negb isNative) reply NewJSStreamNameExistError err ;;
    return_) ;;

  let schemaName := csr_SchemaName csr in
  schemaDetails <-
    (if negb (schemaName =? "") then
       let schemaName := ToLower (csr_SchemaName csr) in
       '(exist_, schema, err) <- IsSchemaExist schemaName ;;
       ifErr err (fun e =>
         Errorf ("createStationDirect: Station " ++ csr_StationName csr ++ ": " ++ e) ;;
         respondWithErrOrJsApiResp (negb isNative) reply (NewJSStreamCreateError err) err ;;
         return_) ;;
       when (negb exist_) (
         let errMsg := "Schema " ++ csr_SchemaName csr ++ " does not exist" in
         Warnf ("createStationDirect: " ++ errMsg) ;;
         respondWithErrOrJsApiResp (negb isNative) reply (NewJSStreamCreateError err) err ;;
         return_) ;;
       '(schemaVersion, err) <- getActiveVersionBySchemaId (schema_ID schema) ;;
       ifErr err (fun e =>
         Errorf ("createStationDirect: Station " ++ csr_StationName csr ++ ": " ++ e) ;;
         respondWithErrOrJsApiResp (negb isNative) reply (NewJSStreamCreateError err) err ;;
         return_) ;;
       ret {| SchemaName := schemaName;
              VersionNumber := sv_VersionNumber schemaVersion |}
     else ret zeroSchemaDetails) ;;

  '(retentionType, retentionValue) <-
    (if negb (csr_RetentionType csr =? "") then
       let retentionType := ToLower (csr_RetentionType csr) in
       let err := validateRetentionType retentionType in
       ifErr err (fun e =>
         Warnf ("createStationDirect: " ++ e) ;;
         respondWithErrOrJsApiResp (negb isNative) reply (NewJSStreamCreateError err) err ;;
         return_) ;;
       ret (retentionType, csr_RetentionValue csr)
     else ret ("message_age_sec", 604800%Z)) ;;

  storageType <-
    (if negb (csr_StorageType csr =? "") then
       let storageType := ToLower (csr_StorageType csr) in
       let err := validateStorageType storageType in
       ifErr err (fun e =>
         Warnf ("createStationDirect: " ++ e) ;;
         respondWithErrOrJsApiResp (negb isNative) reply (NewJSStreamCreateError err) err ;;
         return_) ;;
       ret storageType
     else ret "file") ;;

  let replicas := csr_Replicas csr in
  replicas <-
    (if (0 <? replicas)%Z then
       let err := validateReplicas replicas in
       ifErr err (fun e =>
         Warnf ("createStationDirect: " ++ e) ;;
         respondWithErrOrJsApiResp (negb isNative) reply (NewJSStreamCreateError err) err ;;
         return_) ;;
       ret replicas
     else ret 1%Z) ;;

  let idempotencyWindow :=
    if (csr_IdempotencyWindow csr <=? 0)%Z then 120000%Z
    else if (csr_IdempotencyWindow csr <? 100)%Z then 100%Z
    else csr_IdempotencyWindow csr in

  id <- NewObjectID ;;
  creationDate <- timeNow ;;
  lastUpdate <- timeNow ;;
  let newStation :=
    {| ID := id;
       Name := Ext stationName;
       CreatedByUser := username c;
       CreationDate := creationDate;
       IsDeleted := false;
       RetentionType := retentionType;
       RetentionValue := retentionValue;
       StorageType := storageType;
       Replicas := replicas;
       DedupEnabled := csr_DedupEnabled csr;
       DedupWindowInMs := csr_DedupWindowMillis csr;
       LastUpdate := lastUpdate;
       Schema := schemaDetails;
       Functions := [];
       IdempotencyWindow := idempotencyWindow;
       IsNative := isNative;
       DlsConfig := csr_DlsConfiguration csr |} in

  let createStreamFunc :=
    match nonNativeCreateStreamFunc with
    | Some f => f
    | None => CreateStream stationName newStation
    end in

  err <- createStreamFunc ;;
  ifErr err (fun e =>
    Errorf ("createStationDirect: Station " ++ csr_StationName csr ++ ": " ++ e) ;;
    respondWithErr reply err ;;
    return_) ;;

  err <- CreateDlsStream stationName newStation ;;
  ifErr err (fun e =>
    Errorf ("createStationDirect: Create DLS at station " ++ csr_StationName csr ++ ": " ++ e) ;;
    respondWithErr reply err ;;
    return_) ;;

  err <- stations_InsertOne newStation ;;
  ifErr err (fun e =>
    Errorf ("createStationDirect: Station " ++ csr_StationName csr ++ ": " ++ e) ;;
    respondWithErr reply err ;;
    return_) ;;
  let message := "Station " ++ Ext stationName ++ " has been created by user " ++ username c in
  Noticef message ;;

  let newAuditLog :=
    {| al_StationName := Ext stationName;
       al_Message := message;
       al_CreatedByUser := username c;
       al_UserType := "application" |} in
  err <- CreateAuditLogs [newAuditLog] ;;
  ifErr err (fun e =>
    Errorf ("createStationDirect: Station " ++ csr_StationName csr
            ++ " - create audit logs error: " ++ e)) ;;

  shouldSend <- shouldSendAnalytics ;;
  when shouldSend (SendEvent (username c) "user-create-station") ;;

  respondWithErr reply None.

Definition createStationDirect (c : client) (reply : string)
    (msg : Payload createStationRequest) : M unit :=
  match msg with
  | Malformed e _ =>
      Errorf ("createStationDirect: failed creating station: " ++ e) ;;
      respondWithErr reply (Some e) ;;
      return_
  | Decoded csr => createStationDirectIntern c reply csr None
  end.

Record CreateStationSchema := {
  css_Name : string;
  css_SchemaName : string;
  css_RetentionType : string;
  css_RetentionValue : Z;
  css_StorageType : string;
  css_Replicas : Z;
  css_DedupEnabled : bool;
  css_DedupWindowInMs : Z;
  css_IdempotencyWindow : Z;
  css_DlsConfiguration : DlsConfiguration;
  css_Tags : list string
}.

(** The filter of the upsert in [CreateStation]. *)
Definition CreateStation_filter (name : string) : Filter :=
  F_and (F_name name) (F_is_deleted false).

(** [StationsHandler.CreateStation], after the request body was validated. *)
Definition CreateStation (c : GinContext) (body : CreateStationSchema) : M unit :=
  let '(stationName, err) := StationNameFromStr K (css_Name body) in
  ifErr err (fun e =>
    Warnf ("CreateStation: Station " ++ css_Name body ++ ": " ++ e) ;;
    AbortWithStatusJSON (SHOWABLE_ERROR_STATUS_CODE K) (B_message e) ;;
    return_) ;;

  '(exist_, _, err) <- IsStationExist stationName ;;
  ifErr err (fun e =>
    Errorf ("CreateStation: Station " ++ css_Name body ++ ": " ++ e) ;;
    AbortWithStatusJSON 500 (B_message "Server error") ;;
    return_) ;;
  when exist_ (
    let errMsg := "Station " ++ external stationName ++ " already exists" in
    Warnf ("CreateStation: " ++ errMsg) ;;
    AbortWithStatusJSON (SHOWABLE_ERROR_STATUS_CODE K) (B_message errMsg) ;;
    return_) ;;

  '(user, err) <- getUserDetailsFromMiddleware c ;;
  ifErr err (fun e =>
    Errorf ("CreateStation: Station " ++ css_Name body ++ ": " ++ e) ;;
    AbortWithStatusJSON 401 (B_message "Unauthorized")) ;;

  let schemaName := css_SchemaName body in
  '(schemaName, schemaDetails, schemaDetailsResponse) <-
    (if negb (schemaName =? "") then
       let schemaName := ToLower (css_SchemaName body) in
       '(exist_, schema, err) <- IsSchemaExist schemaName ;;
       ifErr err (fun e =>
         Errorf ("CreateStation: Station " ++ css_Name body ++ ": " ++ e) ;;
         AbortWithStatusJSON 500 (B_message "Server Error") ;;
         return_) ;;
       when (negb exist_) (
         let errMsg := "Schema " ++ schemaName ++ " does not exist" in
         Warnf ("CreateStation: Station " ++ css_Name body ++ ": " ++ errMsg) ;;
         AbortWithStatusJSON (SHOWABLE_ERROR_STATUS_CODE K) (B_message errMsg) ;;
         return_) ;;
       '(schemaVersion, err) <- getActiveVersionBySchemaId (schema_ID schema) ;;
       ifErr err (fun e =>
         Errorf ("CreateStation: Station " ++ css_Name body ++ ": " ++ e) ;;
         AbortWithStatusJSON 500 (B_message e) ;;
         return_) ;;
       ret (schemaName,
            {| SchemaName := schemaName;
               VersionNumber := sv_VersionNumber schemaVersion |},
            B_schema schemaName (sv_VersionNumber schemaVersion) true)
     else ret (schemaName, zeroSchemaDetails, B_empty)) ;;

  '(retentionType, retentionValue) <-
    (if negb (css_RetentionType body =? "") && (0 <? css_RetentionValue body)%Z then
       let retentionType := ToLower (css_RetentionType body) in
       let err := validateRetentionType retentionType in
       ifErr err (fun e =>
         Warnf ("CreateStation: Station " ++ css_Name body ++ ": " ++ e) ;;
         AbortWithStatusJSON (SHOWABLE_ERROR_STATUS_CODE K) (B_message e) ;;
         return_) ;;
       ret (retentionType, css_RetentionValue body)
     else ret ("message_age_sec", 604800%Z)) ;;

  storageType <-
    (if negb (css_StorageType body =? "") then
       let storageType := ToLower (css_StorageType body) in
       let err := validateStorageType storageType in
       ifErr err (fun e =>
         Warnf ("CreateStation: Station " ++ css_Name body ++ ": " ++ e) ;;
         AbortWithStatusJSON (SHOWABLE_ERROR_STATUS_CODE K) (B_message e) ;;
         return_) ;;
       ret storageType
     else ret "file") ;;

  let storageTypeForResponse := "disk" in
  let storageTypeForResponse :=
    if storageType =? "memory" then storageType else storageTypeForResponse in

  replicas <-
    (if (0 <? css_Replicas body)%Z then
       let err := validateReplicas (css_Replicas body) in
       ifErr err (fun e =>
         Warnf ("CreateStation: Station " ++ css_Name body ++ ": " ++ e) ;;
         AbortWithStatusJSON (SHOWABLE_ERROR_STATUS_CODE K) (B_message e) ;;
         return_) ;;
       ret (css_Replicas body)
     else ret 1%Z) ;;

  let idempotencyWindow :=
    if (css_IdempotencyWindow body <=? 0)%Z then 120000%Z
    else if (css_IdempotencyWindow body <? 100)%Z then 100%Z
    else css_IdempotencyWindow body in

  id <- NewObjectID ;;
  creationDate <- timeNow ;;
  lastUpdate <- timeNow ;;
  let newStation :=
    {| ID := id;
       Name := Ext stationName;
       RetentionType := retentionType;
       RetentionValue := retentionValue;
       StorageType := storageType;
       Replicas := replicas;
       DedupEnabled := css_DedupEnabled body;
       DedupWindowInMs := css_DedupWindowInMs body;
       CreatedByUser := Username user;
       CreationDate := creationDate;
       LastUpdate := lastUpdate;
       Functions := [];
       IsDeleted := false;
       Schema := schemaDetails;
       IdempotencyWindow := idempotencyWindow;
       DlsConfig := css_DlsConfiguration body;
       IsNative := true |} in

  err <- CreateStream stationName newStation ;;
  ifErr err (fun e =>
    Errorf ("CreateStation: Station " ++ css_Name body ++ ": " ++ e) ;;
    AbortWithStatusJSON 500 (B_message "Server error") ;;
    return_) ;;

  err <- CreateDlsStream stationName newStation ;;
  ifErr err (fun e =>
    Errorf ("CreateStation: Create DLS at station " ++ css_Name body ++ ": " ++ e) ;;
    AbortWithStatusJSON 500 (B_message "Server error") ;;
    return_) ;;

  let filter := CreateStation_filter (Name newStation) in
  let update :=
    if negb (schemaName =? "") then U_setOnInsert newStation
    else U_setOnInsert (setSchema zeroSchemaDetails newStation) in
  '(matchedCount, err) <- stations_UpsertOne filter update ;;
  ifErr err (fun e =>
    Errorf ("CreateStation: Station " ++ css_Name body ++ ": " ++ e) ;;
    AbortWithStatusJSON 500 (B_message "Server error") ;;
    return_) ;;
  when (0 <? matchedCount)%nat (
    let errMsg := "Station " ++ Name newStation ++ " already exists" in
    Warnf ("CreateStation: " ++ errMsg) ;;
    AbortWithStatusJSON (SHOWABLE_ERROR_STATUS_CODE K) (B_message errMsg) ;;
    return_) ;;

  when (0 <? List.length (css_Tags body))%nat (
    err <- AddTagsToEntity (css_Tags body) (ID newStation) ;;
    ifErr err (fun e =>
      Errorf ("CreateStation: : Station " ++ css_Name body ++ " Failed adding tags: " ++ e) ;;
      AbortWithStatusJSON 500 (B_message "Server error") ;;
      return_)) ;;

  let message := "Station " ++ Ext stationName ++ " has been created by " ++ Username user in
  Noticef message ;;
  let newAuditLog :=
    {| al_StationName := Ext stationName;
       al_Message := message;
       al_CreatedByUser := Username user;
       al_UserType := UserType user |} in
  err <- CreateAuditLogs [newAuditLog] ;;
  ifErr err (fun e =>
    Errorf ("CreateStation: Station " ++ css_Name body ++ ": " ++ e)) ;;

  shouldSend <- shouldSendAnalytics ;;
  when shouldSend (SendEvent (Username user) "user-create-station") ;;

  responseId <- NewObjectID ;;
  responseDate <- timeNow ;;
  let response :=
    {| ID := responseId;
       Name := Ext stationName;
       RetentionType := retentionType;
       RetentionValue := retentionValue;
       StorageType := storageTypeForResponse;
       Replicas := replicas;
       DedupEnabled := css_DedupEnabled body;
       DedupWindowInMs := css_DedupWindowInMs body;
       CreatedByUser := Username user;
       CreationDate := responseDate;
       LastUpdate := responseDate;
       Functions := [];
       IsDeleted := false;
       Schema := if negb (schemaName =? "") then schemaDetails else zeroSchemaDetails;
       IdempotencyWindow := IdempotencyWindow newStation;
       DlsConfig := DlsConfig newStation;
       IsNative := false |} in
  IndentedJSON 200 (B_station response schemaDetailsResponse).

(** ** Station removal *)

(** [removeStationResources]; a [nil] callback removes the main stream
    through the engine. *)
Definition removeStationResources (station : Station)
    (nonNativeRemoveStreamFunc : option (M error)) : M error :=
  let '(stationName, err) := StationNameFromStr K (Name station) in
  match err with
  | Some e => ret (Some e)
  | None =>
      let removeFunc :=
        match nonNativeRemoveStreamFunc with
        | Some f => f
        | None => RemoveStream (Intern stationName)
        end in
      err <- removeFunc ;;
      match err with
      | Some e => ret (Some e)
      | None =>
          err <- RemoveStream (dlsStreamName K (Intern stationName)) ;;
          match err with
          | Some e => ret (Some e)
          | None =>
              DeleteTagsFromStation (ID station) ;;
              err <- producers_UpdateMany (ID station) ;;
              match err with
              | Some e => ret (Some e)
              | None =>
                  err <- consumers_UpdateMany (ID station) ;;
                  match err with
                  | Some e => ret (Some e)
                  | None =>
                      err <- RemoveAllAuditLogsByStation (Name station) ;;
                      ifErr err (fun e =>
                        Errorf ("removeStationResources: Station " ++ Name station ++ ": " ++ e)) ;;
                      ret None
                  end
              end
          end
      end
  end.

(** The filter of the tombstone update in [removeStationDirectIntern]. *)
Definition removeStationDirectIntern_filter (name : string) : Filter :=
  F_and (F_name name) (F_or (F_is_deleted false) (F_is_deleted_exists false)).

Definition removeStationDirectIntern (c : client) (reply : string)
    (dsr : destroyStationRequest)
    (nonNativeRemoveStreamFunc : option (M error)) : M unit :=
  let isNative :=
    match nonNativeRemoveStreamFunc with None => true | Some _ => false end in
  let '(stationName, err) := StationNameFromStr K (dsr_StationName dsr) in
  ifErr err (fun e =>
    Warnf ("removeStationDirect: Station " ++ dsr_StationName dsr ++ ": " ++ e) ;;
    respondWithErrOrJsApiResp (negb isNative) reply (NewJSStreamDeleteError err) err ;;
    return_) ;;

  '(exist_, station, err) <- IsStationExist stationName ;;
  ifErr err (fun e =>
    Errorf ("removeStationDirect: Station " ++ dsr_StationName dsr ++ ": " ++ e) ;;
    respondWithErrOrJsApiResp (negb isNative) reply (NewJSStreamDeleteError err) err ;;
    return_) ;;
  when (negb exist_) (
    let errMsg := "Station " ++ Name station ++ " does not exist" in
    Warnf ("removeStationDirect: " ++ errMsg) ;;
    let err := Some errMsg in
    respondWithErrOrJsApiResp (negb isNative) reply (NewJSStreamDeleteError err) err ;;
    return_) ;;

  err <- removeStationResources station nonNativeRemoveStreamFunc ;;
  ifErr err (fun e =>
    Errorf ("RemoveStation: Station " ++ dsr_StationName dsr ++ ": " ++ e) ;;
    respondWithErr reply err ;;
    return_) ;;

  err <- stations_UpdateOne (removeStationDirectIntern_filter (Ext stationName))
                            (U_set_is_deleted true) ;;
  ifErr err (fun e =>
    Errorf ("RemoveStation error: Station " ++ dsr_StationName dsr ++ ": " ++ e) ;;
    respondWithErr reply err ;;
    return_) ;;

  let message := "Station " ++ Ext stationName ++ " has been deleted by user " ++ username c in
  Noticef message ;;
  let newAuditLog :=
    {| al_StationName := Ext stationName;
       al_Message := message;
       al_CreatedByUser := username c;
       al_UserType := "application" |} in
  err <- CreateAuditLogs [newAuditLog] ;;
  ifErr err (fun e =>
    Warnf ("removeStationDirect: Station " ++ Ext stationName
           ++ " - create audit logs error: " ++ e)) ;;
  respondWithErr reply None ;;
  return_.

Definition removeStationDirect (c : client) (reply : string)
    (msg : Payload destroyStationRequest) : M unit :=
  match msg with
  | Malformed e _ =>
      Errorf ("removeStationDirect: " ++ e) ;;
      respondWithErr reply (Some e) ;;
      return_
  | Decoded dsr => removeStationDirectIntern c reply dsr None
  end.

(** The filter of the lookup in [GetStation]. *)
Definition GetStation_filter (name : string) : Filter :=
  F_and (F_name name) (F_or (F_is_deleted false) (F_is_deleted_exists false)).

(** [StationsHandler.GetStation], after the request body was validated. *)
Definition GetStation (c : GinContext) (bodyStationName : string) : M unit :=
  r <- stations_FindOne (GetStation_filter bodyStationName) ;;
  match r with
  | ErrNoDocuments =>
      let errMsg := "Station " ++ bodyStationName ++ " does not exist" in
      Warnf ("GetStation: " ++ errMsg) ;;
      AbortWithStatusJSON (SHOWABLE_ERROR_STATUS_CODE K) (B_message errMsg) ;;
      return_
  | FindError e =>
      Errorf ("GetStation: Station " ++ bodyStationName ++ ": " ++ e) ;;
      AbortWithStatusJSON 500 (B_message "Server error") ;;
      return_
  | Found station =>
      '(tags, err) <- GetTagsByStation (ID station) ;;
      ifErr err (fun e =>
        Errorf ("GetStation: Station " ++ bodyStationName ++ ": " ++ e) ;;
        AbortWithStatusJSON 500 (B_message "Server error") ;;
        return_) ;;
      let storageType :=
        if StorageType station =? "file" then "disk" else StorageType station in
      IndentedJSON 200 (B_station station (B_tags tags storageType))
  end.

(** ** Schema attachment and detachment *)

(** The filters of the binding updates. *)
Definition UseSchema_filter (name : string) : Filter :=
  F_and (F_name name) (F_is_deleted false).

Definition useSchemaDirect_filter (name : string) : Filter :=
  F_and (F_name name) (F_is_deleted false).

Definition removeSchemaFromStation_filter (name : string) : Filter :=
  F_and (F_name name) (F_or (F_is_deleted false) (F_is_deleted_exists false)).

(** [StationsHandler.UseSchema], after the request body was validated. *)
Definition UseSchema (c : GinContext) (bodySchemaName : string)
    (bodyStationNames : list string) : M unit :=
  let schemaName := ToLower bodySchemaName in
  '(exist_, schema, err) <- IsSchemaExist schemaName ;;
  ifErr err (fun e =>
    Errorf ("UseSchema: Schema " ++ bodySchemaName ++ ": " ++ e) ;;
    AbortWithStatusJSON 500 (B_message "Server Error") ;;
    return_) ;;
  when (negb exist_) (
    let errMsg := "Schema " ++ schemaName ++ " does not exist" in
    Warnf ("UseSchema: " ++ errMsg) ;;
    AbortWithStatusJSON (SHOWABLE_ERROR_STATUS_CODE K) (B_message errMsg) ;;
    return_) ;;

  '(schemaVersion, err) <- getActiveVersionBySchemaId (schema_ID schema) ;;
  ifErr err (fun e =>
    Errorf ("UseSchema: Schema " ++ bodySchemaName ++ ": " ++ e) ;;
    AbortWithStatusJSON 500 (B_message e) ;;
    return_) ;;
  let schemaDetailsResponse :=
    B_schema schemaName (sv_VersionNumber schemaVersion) false in
  let schemaDetails :=
    {| SchemaName := schemaName;
       VersionNumber := sv_VersionNumber schemaVersion |} in

  '(user, err) <- getUserDetailsFromMiddleware c ;;
  ifErr err (fun e =>
    Errorf ("UseSchema: Schema " ++ bodySchemaName ++ ": " ++ e) ;;
    AbortWithStatusJSON 401 (B_message "Unauthorized")) ;;

  forEach bodyStationNames (fun stationName =>
    let '(stationName, err) := StationNameFromStr K stationName in
    ifErr err (fun e =>
      Warnf ("UseSchema: Schema " ++ bodySchemaName ++ " at station "
             ++ Ext stationName ++ ": " ++ e) ;;
      AbortWithStatusJSON (SHOWABLE_ERROR_STATUS_CODE K) (B_message e) ;;
      return_) ;;

    '(exist_, station, err) <- IsStationExist stationName ;;
    ifErr err (fun e =>
      Errorf ("UseSchema: Schema " ++ bodySchemaName ++ " at station "
              ++ Ext stationName ++ ": " ++ e) ;;
      AbortWithStatusJSON 500 (B_message "Server error") ;;
      return_) ;;
    when (negb exist_) (
      let errMsg := "Station " ++ Name station ++ " does not exist" in
      Warnf ("UseSchema: Schema " ++ bodySchemaName ++ ": " ++ errMsg) ;;
      AbortWithStatusJSON (SHOWABLE_ERROR_STATUS_CODE K) (B_message errMsg) ;;
      return_) ;;

    err <- stations_UpdateOne (UseSchema_filter (Ext stationName))
                              (U_set_schema schemaDetails) ;;
    ifErr err (fun e =>
      Errorf ("UseSchema: Schema " ++ bodySchemaName ++ " at station "
              ++ Ext stationName ++ ": " ++ e) ;;
      AbortWithStatusJSON 500 (B_message e) ;;
      return_) ;;

    let message := "Schema " ++ schemaName ++ " has been attached to station "
                   ++ Ext stationName ++ " by user " ++ Username user in
    Noticef message ;;
    let newAuditLog :=
      {| al_StationName := Intern stationName;
         al_Message := message;
         al_CreatedByUser := Username user;
         al_UserType := UserType user |} in
    err <- CreateAuditLogs [newAuditLog] ;;
    ifErr err (fun e =>
      Errorf ("UseSchema: Schema " ++ bodySchemaName ++ " at station "
              ++ Ext stationName ++ " - create audit logs: " ++ e)) ;;

    '(updateContent, err) <- generateSchemaUpdateInit schema ;;
    ifErr err (fun e =>
      Errorf ("UseSchema: Schema " ++ bodySchemaName ++ " at station "
              ++ Ext stationName ++ ": " ++ e) ;;
      return_) ;;
    let update :=
      {| UpdateType := SchemaUpdateTypeInit; Init := updateContent |} in
    updateStationProducersOfSchemaChange stationName update) ;;

  shouldSend <- shouldSendAnalytics ;;
  when shouldSend (
    '(user, _) <- getUserDetailsFromMiddleware c ;;
    SendEvent (Username user) "user-attach-schema-to-station") ;;

  IndentedJSON 200 schemaDetailsResponse.

Definition useSchemaDirect (c : client) (reply : string)
    (msg : Payload attachSchemaRequest) : M unit :=
  asr <-
    match msg with
    | Malformed e asr =>
        let errMsg := "failed attaching schema " ++ asr_Name asr ++ ": " ++ e in
        Errorf ("useSchemaDirect: At station " ++ asr_StationName asr ++ " " ++ errMsg) ;;
        respondWithErr reply (Some errMsg) ;;
        return_
    | Decoded asr => ret asr
    end ;;
  let '(stationName, err) := StationNameFromStr K (asr_StationName asr) in
  ifErr err (fun e =>
    Warnf ("useSchemaDirect: Schema " ++ asr_Name asr ++ " at station "
           ++ asr_StationName asr ++ ": " ++ e) ;;
    respondWithErr reply err ;;
    return_) ;;

  '(exist_, _, err) <- IsStationExist stationName ;;
  ifErr err (fun e =>
    Errorf ("useSchemaDirect: Schema " ++ asr_Name asr ++ " at station "
            ++ asr_StationName asr ++ ": " ++ e) ;;
    respondWithErr reply err ;;
    return_) ;;

  when (negb exist_) (
    let errMsg := "Station " ++ external stationName ++ " does not exist" in
    Warnf ("useSchemaDirect: " ++ errMsg) ;;
    respondWithErr reply (Some ("memphis: " ++ errMsg)) ;;
    return_) ;;

  let schemaName := ToLower (asr_Name asr) in
  '(exist_, schema, err) <- IsSchemaExist schemaName ;;
  ifErr err (fun e =>
    Errorf ("useSchemaDirect: Schema " ++ asr_Name asr ++ " at station "
            ++ asr_StationName asr ++ ": " ++ e) ;;
    respondWithErr reply err ;;
    return_) ;;
  when (negb exist_) (
    e <- Error err ;;
    let errMsg := "Schema " ++ schemaName ++ " does not exist" ++ e in
    Warnf ("useSchemaDirect: " ++ errMsg) ;;
    respondWithErr reply (Some errMsg) ;;
    return_) ;;

  '(schemaVersion, err) <- getActiveVersionBySchemaId (schema_ID schema) ;;
  ifErr err (fun e =>
    Errorf ("useSchemaDirect: Schema " ++ asr_Name asr ++ " at station "
            ++ asr_StationName asr ++ ": " ++ e) ;;
    respondWithErr reply err ;;
    return_) ;;
  let schemaDetails :=
    {| SchemaName := schemaName;
       VersionNumber := sv_VersionNumber schemaVersion |} in

  err <- stations_UpdateOne (useSchemaDirect_filter (Ext stationName))
                            (U_set_schema schemaDetails) ;;
  ifErr err (fun e =>
    Errorf ("useSchemaDirect: Schema " ++ asr_Name asr ++ " at station "
            ++ asr_StationName asr ++ ": " ++ e) ;;
    respondWithErr reply err ;;
    return_) ;;

  let username := username c in
  let message := "Schema " ++ schemaName ++ " has been attached to station "
                 ++ Ext stationName ++ " by user " ++ username in
  Noticef message ;;

  let newAuditLog :=
    {| al_StationName := Intern stationName;
       al_Message := message;
       al_CreatedByUser := username;
       al_UserType := "sdk" |} in
  err <- CreateAuditLogs [newAuditLog] ;;
  ifErr err (fun e =>
    Errorf ("useSchemaDirect : Schema " ++ asr_Name asr ++ " at station "
            ++ asr_StationName asr ++ " - create audit logs: " ++ e)) ;;

  shouldSend <- shouldSendAnalytics ;;
  when shouldSend (SendEvent "sdk" "user-attach-schema-to-station") ;;

  '(updateContent, err) <- generateSchemaUpdateInit schema ;;
  ifErr err (fun e =>
    Errorf ("useSchemaDirect: Schema " ++ asr_Name asr ++ " at station "
            ++ asr_StationName asr ++ ": " ++ e) ;;
    return_) ;;

  let update :=
    {| UpdateType := SchemaUpdateTypeInit; Init := updateContent |} in

  updateStationProducersOfSchemaChange stationName update ;;
  respondWithErr reply None.

Definition removeSchemaFromStation (sn : StationName) (updateDB : bool) : M error :=
  '(exist_, _, err) <- IsStationExist sn ;;
  match err with
  | Some e => ret (Some e)
  | None =>
      if negb exist_ then
        ret (Some ("Station " ++ external sn ++ " does not exist"))
      else
        err <- (if updateDB then
                  stations_UpdateOne (removeSchemaFromStation_filter (Ext sn))
                                     (U_set_schema zeroSchemaDetails)
                else ret None) ;;
        match err with
        | Some e => ret (Some e)
        | None =>
            let update :=
              {| UpdateType := SchemaUpdateTypeDrop; Init := zeroInit |} in
            updateStationProducersOfSchemaChange sn update ;;
            ret None
        end
  end.

Definition removeSchemaFromStationDirect (c : client) (reply : string)
    (msg : Payload string) : M unit :=
  dsrStationName <-
    match msg with
    | Malformed e dsrStationName =>
        Errorf ("removeSchemaFromStationDirect: failed removing schema at station "
                ++ dsrStationName ++ ": " ++ e) ;;
        respondWithErr reply (Some e) ;;
        return_
    | Decoded n => ret n
    end ;;
  let '(stationName, err) := StationNameFromStr K dsrStationName in
  ifErr err (fun e =>
    Warnf ("removeSchemaFromStationDirect: At station " ++ dsrStationName ++ ": " ++ e) ;;
    respondWithErr reply err ;;
    return_) ;;

  err <- removeSchemaFromStation stationName true ;;
  ifErr err (fun e =>
    Errorf ("removeSchemaFromStationDirect: At station " ++ dsrStationName ++ ": " ++ e) ;;
    respondWithErr reply err ;;
    return_) ;;
  respondWithErr reply None.

(** ** Dead-letter inspector *)

(** [headersJson[key] = value] on a Go map. *)
Fixpoint setHeader (key value : string) (h : list (string * string))
  : list (string * string) :=
  match h with
  | [] => [(key, value)]
  | (k, v) :: r => if k =? key then (key, value) :: r
                   else (k, v) :: setHeader key value r
  end.

Definition ResendPoisonMessage (subject data : string)
    (headers : list (string * string)) : M error :=
  bad <- fails OpResend ;;
  if bad : bool then ret (Some "engine failure")
  else emit (E_resend subject data headers) ;; ret None.

(** [StationsHandler.AckPoisonMessages], after the request body was
    validated.  [timeout := 1 * time.Second] is the timer behind
    [beforeTimeout]. *)
Definition AckPoisonMessages (c : GinContext) (PoisonMessageIds : list string)
  : M unit :=
  firstId <- index PoisonMessageIds 0 ;;
  let splitId := Split firstId (dlsMsgSep K) in
  stationName <- index splitId 0 ;;
  let '(sn, err) := StationNameFromStr K stationName in
  ifErr err (fun e =>
    Errorf ("AckPoisonMessages: " ++ e) ;;
    AbortWithStatusJSON 500 (B_message "Server error") ;;
    return_) ;;
  let streamName := dlsStreamName K (Intern sn) in
  forEach PoisonMessageIds (fun msgId =>
    uid <- nuidNext ;;
    let durableName := "$memphis_fetch_dls_consumer_" ++ uid in
    '(streamInfoMsgs, err) <- memphisStreamInfo streamName ;;
    ifErr err (fun e =>
      Errorf ("AckPoisonMessages: " ++ e) ;;
      AbortWithStatusJSON 500 (B_message "Server error") ;;
      return_) ;;
    let filter := GetDlsSubject K "poison" (Intern sn) msgId in
    let amount := streamInfoMsgs in
    let cc :=
      {| cc_DeliverPolicy := DeliverAll;
         cc_AckPolicy := AckExplicit;
         Durable := durableName;
         FilterSubject := filter |} in

    err <- memphisAddConsumer streamName cc ;;
    ifErr err (fun e =>
      Errorf ("AckPoisonMessages: " ++ e) ;;
      AbortWithStatusJSON 500 (B_message "Server error") ;;
      return_) ;;

    let subject := JSApiRequestNextT K streamName durableName in
    let reply := durableName ++ "_reply" in

    err <- subscribeOnGlobalAcc reply ;;
    ifErr err (fun e =>
      Errorf ("AckPoisonMessages: " ++ e) ;;
      AbortWithStatusJSON 500 (B_message "Server error") ;;
      return_) ;;

    sendInternalAccountMsgWithReply subject reply amount ;;

    arrivals <- deliveries streamName durableName amount ;;
    msgs <- fetchLoop amount arrivals [] ;;

    (* cleanup: *)
    unsubscribeOnGlobalAcc reply ;;
    err <- memphisRemoveConsumer streamName durableName ;;
    ifErr err (fun e =>
      Errorf ("AckPoisonMessages: " ++ e) ;;
      AbortWithStatusJSON 500 (B_message "Server error") ;;
      return_) ;;

    forEach msgs (fun msg =>
      err <- memphisDeleteMsgFromStream streamName (Sequence msg) ;;
      ifErr err (fun e =>
        Errorf ("AckPoisonMessages: " ++ e) ;;
        AbortWithStatusJSON 500 (B_message "Server error") ;;
        return_))) ;;

  shouldSend <- shouldSendAnalytics ;;
  when shouldSend (
    '(user, _) <- getUserDetailsFromMiddleware c ;;
    SendEvent (Username user) "user-ack-poison-message") ;;

  IndentedJSON 200 B_empty.

(** [StationsHandler.ResendPoisonMessages], after the request body was
    validated. *)
Definition ResendPoisonMessages (c : GinContext) (PoisonMessageIds : list string)
  : M unit :=
  firstId <- index PoisonMessageIds 0 ;;
  let splitId := Split firstId (dlsMsgSep K) in
  stationName <- index splitId 0 ;;
  let '(sn, err) := StationNameFromStr K stationName in
  ifErr err (fun e =>
    Errorf ("ResendPoisonMessages: " ++ e) ;;
    AbortWithStatusJSON 500 (B_message "Server error") ;;
    return_) ;;
  let streamName := dlsStreamName K (Intern sn) in
  forEach PoisonMessageIds (fun msgId =>
    uid <- nuidNext ;;
    let durableName := "$memphis_fetch_dls_consumer_" ++ uid in
    '(streamInfoMsgs, err) <- memphisStreamInfo streamName ;;
    ifErr err (fun e =>
      Errorf ("ResendPoisonMessages: " ++ e) ;;
      AbortWithStatusJSON 500 (B_message "Server error") ;;
      return_) ;;
    let filter := GetDlsSubject K "poison" (Intern sn) msgId in
    let amount := streamInfoMsgs in
    let cc :=
      {| cc_DeliverPolicy := DeliverAll;
         cc_AckPolicy := AckExplicit;
         Durable := durableName;
         FilterSubject := filter |} in

    err <- memphisAddConsumer streamName cc ;;
    ifErr err (fun e =>
      Errorf ("ResendPoisonMessages: " ++ e) ;;
      AbortWithStatusJSON 500 (B_message "Server error") ;;
      return_) ;;

    let subject := JSApiRequestNextT K streamName durableName in
    let reply := durableName ++ "_reply" in

    err <- subscribeOnGlobalAcc reply ;;
    ifErr err (fun e =>
      Errorf ("ResendPoisonMessages: " ++ e) ;;
      AbortWithStatusJSON 500 (B_message "Server error") ;;
      return_) ;;

    sendInternalAccountMsgWithReply subject reply amount ;;

    arrivals <- deliveries streamName durableName amount ;;
    msgs <- fetchLoop amount arrivals [] ;;

    (* cleanup: *)
    unsubscribeOnGlobalAcc reply ;;
    err <- memphisRemoveConsumer streamName durableName ;;
    ifErr err (fun e =>
      Errorf ("ResendPoisonMessages: " ++ e) ;;
      AbortWithStatusJSON 500 (B_message "Server error") ;;
      return_) ;;

    forEach msgs (fun msg =>
      dlsMsg <- match jsonUnmarshalDlsMessage K (Data msg) with
                | None =>
                    Errorf "ResendPoisonMessages: invalid JSON" ;;
                    AbortWithStatusJSON 500 (B_message "Server error") ;;
                    return_
                | Some m => ret m
                end ;;
      let stationName := replaceDelimiters K (dls_StationName dlsMsg) in
      let cgName := replaceDelimiters K (dls_CgName dlsMsg) in
      let headersJson := dls_Headers dlsMsg in
      let headersJson := setHeader "$memphis_pm_id" (dls_ID dlsMsg) headersJson in
      let headersJson :=
        setHeader "$memphis_pm_sequence" (decimal (Sequence msg)) headersJson in
      data <- match hexDecodeString K (dls_Data dlsMsg) with
              | None =>
                  Errorf ("ResendPoisonMessages: Poisoned consumer group: "
                          ++ dls_CgName dlsMsg ++ ": invalid hex") ;;
                  AbortWithStatusJSON 500 (B_message "Server error") ;;
                  return_
              | Some d => ret d
              end ;;
      err <- ResendPoisonMessage ("$memphis_dls_" ++ stationName ++ "_" ++ cgName)
                                 data headersJson ;;
      ifErr err (fun e =>
        Errorf ("ResendPoisonMessages: Poisoned consumer group: "
                ++ dls_CgName dlsMsg ++ ": " ++ e) ;;
        AbortWithStatusJSON 500 (B_message "Server error") ;;
        return_))) ;;

  shouldSend <- shouldSendAnalytics ;;
  when shouldSend (
    '(user, _) <- getUserDetailsFromMiddleware c ;;
    SendEvent (Username user) "user-resend-poison-message") ;;

  IndentedJSON 200 B_empty.

(** ** DLS bootstrap *)

(** The filters of [LaunchDlsForOldStations]. *)
Definition LaunchDlsForOldStations_filter : Filter :=
  F_or (F_is_deleted false) (F_is_deleted_exists false).

Definition LaunchDlsForOldStations_update_filter (name : string) : Filter :=
  F_and (F_name name) (F_or (F_is_deleted false) (F_is_deleted_exists false)).

(** A [for ... range] loop in a function that returns an error. *)
Fixpoint forEachErr {A} (l : list A) (bodyOf : A -> M error) : M error :=
  match l with
  | [] => ret None
  | x :: r =>
      err <- bodyOf x ;;
      match err with
      | Some e => ret (Some e)
      | None => forEachErr r bodyOf
      end
  end.

Definition LaunchDlsForOldStations : M error :=
  '(stations, err) <- stations_Find LaunchDlsForOldStations_filter ;;
  match err with
  | Some e => ret (Some e)
  | None =>
      forEachErr stations (fun station =>
        let '(sn, err) := StationNameFromStr K (Name station) in
        match err with
        | Some e => ret (Some e)
        | None =>
            let streamName := dlsStreamName K (Intern sn) in
            '(_, err) <- memphisStreamInfo streamName ;;
            match err with
            | Some e =>
                if IsNatsErr err JSStreamNotFoundErr then
                  let dlsConfigurationNew :=
                    {| Poison := true; Schemaverse := true |} in
                  '(_, err) <- stations_UpsertOne
                                 (LaunchDlsForOldStations_update_filter (Name station))
                                 (U_set_dls_configuration dlsConfigurationNew) ;;
                  match err with
                  | Some e => ret (Some e)
                  | None =>
                      err <- CreateDlsStream sn station ;;
                      match err with
                      | Some e =>
                          Errorf ("LaunchDlsForOldStations: CreateDlsStream: At station "
                                  ++ Name station ++ ": " ++ e) ;;
                          ret (Some e)
                      | None => ret None
                      end
                  end
                else ret (Some e)
            | None => ret None
            end
        end)
  end.

(** ** The remaining station filters of the handlers *)

Definition GetStationsDetails_filter : Filter :=
  F_or (F_is_deleted_exists false) (F_is_deleted false).

Definition GetAllStationsDetails_filter : Filter :=
  F_or (F_is_deleted false) (F_is_deleted_exists false).

Definition RemoveStation_filter (stationNames : list string) : Filter :=
  F_and (F_name_in stationNames)
        (F_or (F_is_deleted false) (F_is_deleted_exists false)).

Definition UpdateDlsConfig_filter (name : string) : Filter :=
  F_and (F_name name) (F_or (F_is_deleted false) (F_is_deleted_exists false)).

End Handlers.

(** ** Sample constants and worlds

    Concrete values for the constants and a few small worlds, used to run
    the handlers. *)

Definition sampleConstants : Constants :=
  {| maxNameLength := 32;
     delimiterToReplace := ".";
     delimiterReplacement := "#";
     dlsStreamName := fun intern => "$memphis-" ++ intern ++ "-dls";
     dlsMsgSep := "~";
     GetDlsSubject := fun kind intern id =>
       "$memphis-" ++ intern ++ "-dls." ++ kind ++ "." ++ id;
     JSApiRequestNextT := fun stream durable =>
       "$JS.API.CONSUMER.MSG.NEXT." ++ stream ++ "." ++ durable;
     SHOWABLE_ERROR_STATUS_CODE := 666;
     jsonUnmarshalDlsMessage := fun _ => None;
     hexDecodeString := fun _ => None |}.

Definition emptyWorld : World :=
  {| stationsCollection := []; schemasCollection := [];
     schemaVersionsCollection := []; producersCollection := [];
     consumersCollection := []; auditLogsCollection := [];
     streams := []; consumers := []; nextID := 1; now := 0;
     analyticsEnabled := false; failing := []; beforeTimeout := 1000;
     trace := [] |}.

Definition sampleClient : client := {| username := "root" |}.

Definition sampleCreate (name : string) (window : Z) : createStationRequest :=
  {| csr_StationName := name; csr_SchemaName := ""; csr_RetentionType := "";
     csr_RetentionValue := 0; csr_StorageType := ""; csr_Replicas := 0;
     csr_DedupEnabled := false; csr_DedupWindowMillis := 0;
     csr_IdempotencyWindow := window;
     csr_DlsConfiguration := zeroDlsConfiguration |}.


Definition sampleBody (name : string) (window : Z) : CreateStationSchema :=
  {| css_Name := name; css_SchemaName := ""; css_RetentionType := "";
     css_RetentionValue := 0; css_StorageType := ""; css_Replicas := 0;
     css_DedupEnabled := false; css_DedupWindowInMs := 0;
     css_IdempotencyWindow := window;
     css_DlsConfiguration := zeroDlsConfiguration; css_Tags := [] |}.

Definition sampleContext : GinContext :=
  {| ctx_user := Some {| Username := "root"; UserType := "root" |} |}.

(** The idempotency windows the stations collection holds. *)
Definition storedWindows (w : World) : list Z :=
  map (fun d => IdempotencyWindow (body d)) (stationsCollection w).

(** A world whose only station is [orders], stored without [is_deleted],
    with both of its streams. *)
Definition legacyWorld : World :=
  withStreams [ {| stream_name := "orders"; stream_msgs := [] |};
                {| stream_name := "$memphis-orders-dls"; stream_msgs := [] |} ]
    (withStations
       [ {| body := setName "orders" zeroStation; has_is_deleted := false |} ]
       emptyWorld).

(** A world with the live station [orders], its streams, and the schema
    [orderv1] whose active version is 3. *)
Definition ordersStation : Station :=
  {| ID := 7; Name := "orders"; RetentionType := "message_age_sec";
     RetentionValue := 604800; StorageType := "file"; Replicas := 1;
     DedupEnabled := false; DedupWindowInMs := 0; CreatedByUser := "root";
     CreationDate := 0; LastUpdate := 0; Functions := []; IsDeleted := false;
     Schema := zeroSchemaDetails; IdempotencyWindow := 120000;
     DlsConfig := zeroDlsConfiguration; IsNative := true |}.

Definition schemaWorld : World :=
  {| stationsCollection := [ {| body := ordersStation; has_is_deleted := true |} ];
     schemasCollection :=
       [ {| schema_ID := 11; schema_Name := "orderv1"; schema_Type := "json" |} ];
     schemaVersionsCollection :=
       [ {| sv_VersionNumber := 2; sv_Active := false;
            sv_SchemaContent := "{old}"; sv_SchemaId := 11 |};
         {| sv_VersionNumber := 3; sv_Active := true;
            sv_SchemaContent := "{order}"; sv_SchemaId := 11 |} ];
     producersCollection := []; consumersCollection := [];
     auditLogsCollection := [];
     streams := [ {| stream_name := "orders"; stream_msgs := [] |};
                  {| stream_name := "$memphis-orders-dls"; stream_msgs := [] |} ];
     consumers := []; nextID := 100; now := 5;
     analyticsEnabled := false; failing := []; beforeTimeout := 1000;
     trace := [] |}.

Definition withFailing (ops : list Op) (w : World) : World :=
  {| stationsCollection := stationsCollection w;
     schemasCollection := schemasCollection w;
     schemaVersionsCollection := schemaVersionsCollection w;
     producersCollection := producersCollection w;
     consumersCollection := consumersCollection w;
     auditLogsCollection := auditLogsCollection w;
     streams := streams w; consumers := consumers w;
     nextID := nextID w; now := now w;
     analyticsEnabled := analyticsEnabled w; failing := ops;
     beforeTimeout := beforeTimeout w; trace := trace w |}.

(** The station [orders] with four dead letters: two stored under the id
    [orders~poison~1], a schemaverse failure and one more poison message. *)
Definition dlsMessages : list StoredMsg :=
  [ {| Subject := "$memphis-orders-dls.poison.orders~poison~1"; Sequence := 1; Data := "a" |};
    {| Subject := "$memphis-orders-dls.poison.orders~poison~1"; Sequence := 2; Data := "b" |};
    {| Subject := "$memphis-orders-dls.schema.orders~schema~3"; Sequence := 3; Data := "c" |};
    {| Subject := "$memphis-orders-dls.poison.orders~poison~4"; Sequence := 4; Data := "d" |} ].

Definition dlsWorld : World :=
  withStreams [ {| stream_name := "orders"; stream_msgs := [] |};
                {| stream_name := "$memphis-orders-dls"; stream_msgs := dlsMessages |} ]
              schemaWorld.

(** * Vocabulary of the properties *)

(** The user-visible delimiters of a station name. *)
Definition userDelimiter (d : ascii) : Prop :=
  d = "."%char \/ d = "-"%char \/ d = "_"%char.

(** [sat P m Q X]: started in a world satisfying [P], the computation [m]
    either continues with a value and a world related by [Q], or leaves the
    handler (by [return] or by a panic) in a world satisfying [X]. *)
Definition sat {A} (P : World -> Prop) (m : M A)
    (Q : A -> World -> Prop) (X : World -> Prop) : Prop :=
  forall w, P w ->
    match m w with
    | (Next a, w') => Q a w'
    | (Returned, w') => X w'
    | (Panicked, w') => X w'
    end.

(** [keeps f m]: the computation [m] does not change the component [f] of
    the world, whatever its outcome. *)
Definition keeps {A B} (f : World -> B) (m : M A) : Prop :=
  forall w, f (snd (m w)) = f w.

(** How a stored idempotency window relates to the requested one. *)
Definition windowNormalized (requested stored : Z) : Prop :=
  ((requested <= 0)%Z -> stored = 120000%Z) /\
  ((0 < requested < 100)%Z -> stored = 100%Z) /\
  ((100 <= requested)%Z -> stored = requested).

(** What a station creation may do to the stations collection: nothing, or
    append one document whose window is the normalized request. *)
Definition createdWith (requested : Z) (before after : list StationDoc) : Prop :=
  after = before \/
  exists d, after = (before ++ [d])%list /\
            windowNormalized requested (IdempotencyWindow (body d)).

(** *** Documents without [is_deleted] *)

(** A document as it reads once [is_deleted: false] is written out. *)
Definition explicitlyLive (d : StationDoc) : StationDoc :=
  {| body := setIsDeleted false (body d); has_is_deleted := true |}.

Definition normalizeDoc (d : StationDoc) : StationDoc :=
  if has_is_deleted d then d else explicitlyLive d.

(** The world in which every station document carries the field. *)
Definition normalizeWorld (w : World) : World :=
  withStations (map normalizeDoc (stationsCollection w)) w.

(** Two worlds that differ only in documents lacking [is_deleted] where the
    other has [is_deleted: false]. *)
Definition legacyEquiv (w w' : World) : Prop :=
  normalizeWorld w = normalizeWorld w'.

(** A computation that cannot tell such worlds apart: same outcome, and
    resulting worlds that again differ only in this way. *)
Definition legacyBlind {A} (m : M A) : Prop :=
  forall w w', legacyEquiv w w' ->
    fst (m w) = fst (m w') /\ legacyEquiv (snd (m w)) (snd (m w')).

(** A filter that selects a document without the field exactly when it
    selects the document with [is_deleted: false]. *)
Definition treatsLegacyAsLive (f : Filter) : Prop :=
  forall d, has_is_deleted d = false -> matches f d = matches f (explicitlyLive d).

(** Every filter the station handlers pass to the stations collection, for
    a station name [n]. *)
Definition stationFilters (n : string) : list Filter :=
  [ GetStation_filter n;
    GetStationsDetails_filter;
    GetAllStationsDetails_filter;
    CreateStation_filter n;
    RemoveStation_filter [n];
    removeStationDirectIntern_filter n;
    UseSchema_filter n;
    useSchemaDirect_filter n;
    removeSchemaFromStation_filter n;
    UpdateDlsConfig_filter n;
    LaunchDlsForOldStations_filter;
    LaunchDlsForOldStations_update_filter n ].

(** The lookup, tombstone and update filters that spell out the
    alternative "[is_deleted] false or absent". *)
Definition liveFilters (n : string) (ns : list string) : list Filter :=
  [ GetStation_filter n;
    GetStationsDetails_filter;
    GetAllStationsDetails_filter;
    RemoveStation_filter ns;
    removeStationDirectIntern_filter n;
    removeSchemaFromStation_filter n;
    UpdateDlsConfig_filter n;
    LaunchDlsForOldStations_filter;
    LaunchDlsForOldStations_update_filter n ].

(** Filters built from the name and the alternative "false or absent"
    do not see the normalization. *)
Inductive legacySafe : Filter -> Prop :=
| safe_name n : legacySafe (F_name n)
| safe_name_in ns : legacySafe (F_name_in ns)
| safe_live : legacySafe (F_or (F_is_deleted false) (F_is_deleted_exists false))
| safe_live' : legacySafe (F_or (F_is_deleted_exists false) (F_is_deleted false))
| safe_and f g : legacySafe f -> legacySafe g -> legacySafe (F_and f g).

(** Updates that act the same on a document and on its normal form. *)
Definition plainUpdate (u : Update) : Prop :=
  forall d, normalizeDoc (applyUpdate u d) = normalizeDoc (applyUpdate u (normalizeDoc d)).

(** A legacy document: station "orders", written without [is_deleted]. *)
Definition legacyOrders : StationDoc :=
  {| body := setName "orders" zeroStation; has_is_deleted := false |}.

(** *** Reading a trace *)

(** The payloads of the replies sent on a reply subject. *)
Fixpoint repliesOn (replySubject : string) (t : list Event) : list string :=
  match t with
  | [] => []
  | E_respond r p :: t' =>
      if r =? replySubject then p :: repliesOn replySubject t'
      else repliesOn replySubject t'
  | _ :: t' => repliesOn replySubject t'
  end.

(** The live station documents of a name. *)
Definition liveStations (n : string) (w : World) : list StationDoc :=
  filter (matches (liveByName n)) (stationsCollection w).

(** The schema binding of the live station of a name: the binding of the
    document the lookups of the handlers find, selected by the name and
    [is_deleted] false or absent. *)
Definition bindingOf (n : string) (w : World) : option SchemaDetails :=
  option_map (fun d => Schema (body d))
             (findOne (liveByName n) (stationsCollection w)).

(** The events a handler adds to a trace that contains [before]. *)
Definition added (before after new : list Event) : Prop :=
  after = (before ++ new)%list.

(** *** Events a computation may add *)

(** [emitsOnly ok m]: whatever its outcome, [m] only appends events
    satisfying [ok] to the trace. *)
Definition emitsOnly {A} (ok : Event -> Prop) (m : M A) : Prop :=
  forall w, exists t, added (trace w) (trace (snd (m w))) t /\ Forall ok t.

(** The station a DLS request is served from: the one encoded in the first
    id of the list, as the handlers compute it. *)
Definition firstStation (K : Constants) (ids : list string) : option StationName :=
  match nth_error ids 0 with
  | None => None
  | Some firstId =>
      match nth_error (Split firstId (dlsMsgSep K)) 0 with
      | None => None
      | Some stationName =>
          match StationNameFromStr K stationName with
          | (sn, None) => Some sn
          | (_, Some _) => None
          end
      end
  end.

(** Calls into the stream engine. *)
Definition engineCall (e : Event) : bool :=
  match e with
  | E_streamInfo _ | E_addConsumer _ _ | E_subscribe _ | E_requestNext _ _ _
  | E_ack _ | E_unsubscribe _ | E_removeConsumer _ _ | E_deleteMsg _ _
  | E_resend _ _ _ | E_collected _ => true
  | _ => false
  end.

(** What the DLS handlers may do for a list of ids: every call into the
    engine names the DLS stream of station [sn], and every consumer is
    created with the poison-kind filter subject of [sn] and one of the
    ids. *)
Definition dlsEventOk (K : Constants) (sn : StationName) (ids : list string)
    (e : Event) : Prop :=
  let stream := dlsStreamName K (Intern sn) in
  match e with
  | E_streamInfo s => s = stream
  | E_addConsumer s cc =>
      s = stream /\
      exists id, In id ids /\
                 FilterSubject cc = GetDlsSubject K "poison" (Intern sn) id
  | E_requestNext subject _ _ =>
      exists durable, subject = JSApiRequestNextT K stream durable
  | E_removeConsumer s _ => s = stream
  | E_deleteMsg s _ => s = stream
  | _ => True
  end.

Definition dlsTraceOk (K : Constants) (ids : list string) (t : list Event) : Prop :=
  match firstStation K ids with
  | Some sn => Forall (dlsEventOk K sn ids) t
  | None => Forall (fun e => engineCall e = false) t
  end.

(** The sequences deleted from a stream, and the sequences of the messages
    the fetch loops collected, in the order of the events. *)
Fixpoint deletedSeqs (t : list Event) : list nat :=
  match t with
  | [] => []
  | E_deleteMsg _ seq :: t' => seq :: deletedSeqs t'
  | _ :: t' => deletedSeqs t'
  end.

Fixpoint collectedSeqs (t : list Event) : list nat :=
  match t with
  | [] => []
  | E_collected m :: t' => Sequence m :: collectedSeqs t'
  | _ :: t' => collectedSeqs t'
  end.

(** Events that neither delete nor collect a message. *)
Definition quiet (e : Event) : Prop :=
  match e with
  | E_deleteMsg _ _ | E_collected _ => False
  | _ => True
  end.

(** The streams after the messages with the given sequences were deleted
    from [stream]. *)
Definition deleteAll (stream : string) (seqs : list nat) (l : list Stream)
  : list Stream :=
  fold_left (fun acc seq => map (deleteSeq stream seq) acc) seqs l.

(** State of an acknowledgement after the events [t], with the collected
    messages [pending] still to be deleted. *)
Definition ackState (stream : string) (T0 : list Event) (S0 : list Stream)
    (pending : list StoredMsg) (w : World) : Prop :=
  exists t, added T0 (trace w) t /\
            (deletedSeqs t ++ map Sequence pending)%list = collectedSeqs t /\
            streams w = deleteAll stream (deletedSeqs t) S0.

(** *** What a DLS message id refers to *)

(** The station an id encodes, as the handlers read it: the internal name of
    the canonicalized first part of the id. *)
Definition idStation (K : Constants) (id : string) : option string :=
  match nth_error (Split id (dlsMsgSep K)) 0 with
  | None => None
  | Some p =>
      match StationNameFromStr K p with
      | (sn, None) => Some (Intern sn)
      | (_, Some _) => None
      end
  end.

(** The kind an id encodes: its second part. *)
Definition idKind (K : Constants) (id : string) : option string :=
  nth_error (Split id (dlsMsgSep K)) 1.

(** An id that refers to another station than [station], or to another kind
    than poison. *)
Definition foreignId (K : Constants) (station id : string) : Prop :=
  idStation K id <> Some station \/ idKind K id <> Some "poison".

(** The messages of the DLS stream of [station]: each is stored under the
    DLS subject of its kind and its own id, the id encodes the station and
    the kind, and the subject is not the poison subject of another id
    [other]. *)
Definition filedByOwnId (K : Constants) (station other : string)
    (msgs : list StoredMsg) : Prop :=
  forall m, In m msgs ->
    exists kind id,
      Subject m = GetDlsSubject K kind station id /\
      idStation K id = Some station /\
      idKind K id = Some kind /\
      (GetDlsSubject K "poison" station other = GetDlsSubject K kind station id ->
       kind = "poison" /\ id = other).

(** The consumer a fetch creates for [id] when [n] is the next free id. *)
Definition fetchConsumer (K : Constants) (sn : StationName) (id : string)
    (n : nat) : Consumer :=
  {| cons_stream := dlsStreamName K (Intern sn);
     cons_config :=
       {| cc_DeliverPolicy := DeliverAll; cc_AckPolicy := AckExplicit;
          Durable := "$memphis_fetch_dls_consumer_" ++ decimal n;
          FilterSubject := GetDlsSubject K "poison" (Intern sn) id |} |}.

(** * Further handlers of the station control plane *)

(** ** Consumer-group status *)

(** [models.CgMember], the fields the station handlers read. *)
Record CgMember := {
  cgm_IsActive : bool;
  cgm_IsDeleted : bool;
  cgm_MaxAckTimeMs : Z;
  cgm_MaxMsgDeliveries : Z
}.

(** The loop of [getCgStatus]: [inl r] when the loop returned [r], [inr n]
    when it ran to its end with [deletedCount = n]. *)
Fixpoint getCgStatus_loop (members : list CgMember) (deletedCount : nat)
  : (bool * bool) + nat :=
  match members with
  | [] => inr deletedCount
  | member :: rest =>
      if cgm_IsActive member then inl (true, false)
      else getCgStatus_loop rest
             (if cgm_IsDeleted member then S deletedCount else deletedCount)
  end.

Definition getCgStatus (members : list CgMember) : bool * bool :=
  match getCgStatus_loop members 0 with
  | inl r => r
  | inr deletedCount =>
      if (List.length members =? deletedCount)%nat then (false, true)
      else (false, false)
  end.

(** A [for ... range] loop that grows a local variable and may return from
    the handler. *)
Fixpoint forEachAcc {A S} (l : list A) (acc : S) (bodyOf : S -> A -> M S)
  : M S :=
  match l with
  | [] => ret acc
  | x :: r => acc' <- bodyOf acc x ;; forEachAcc r acc' bodyOf
  end.

Section MoreHandlers.

Variable K : Constants.

(** ** Removal of several stations *)

(** [StationsHandler.RemoveStation], after the sandbox guard and the
    validation of the request body. *)
Definition RemoveStation (c : GinContext) (bodyStationNames : list string)
  : M unit :=
  stationNames <- forEachAcc bodyStationNames [] (fun stationNames name =>
    let '(stationName, err) := StationNameFromStr K name in
    ifErr err (fun e =>
      Warnf ("RemoveStation: Station " ++ name ++ ": " ++ e) ;;
      AbortWithStatusJSON (SHOWABLE_ERROR_STATUS_CODE K) (B_message e) ;;
      return_) ;;

    let stationNames := (stationNames ++ [Ext stationName])%list in

    '(exist_, station, err) <- IsStationExist stationName ;;
    ifErr err (fun e =>
      Errorf ("RemoveStation: Station " ++ external stationName ++ ": " ++ e) ;;
      AbortWithStatusJSON 500 (B_message "Server error") ;;
      return_) ;;
    when (negb exist_) (
      let errMsg := "Station " ++ name ++ " does not exist" in
      Warnf ("RemoveStation: " ++ errMsg) ;;
      AbortWithStatusJSON (SHOWABLE_ERROR_STATUS_CODE K) (B_message errMsg) ;;
      return_) ;;

    err <- removeStationResources K station None ;;
    ifErr err (fun e =>
      Errorf ("RemoveStation: Station " ++ external stationName ++ ": " ++ e) ;;
      AbortWithStatusJSON 500 (B_message "Server error") ;;
      return_) ;;
    ret stationNames) ;;

  err <- stations_UpdateMany (RemoveStation_filter stationNames)
                             (U_set_is_deleted true) ;;
  ifErr err (fun e =>
    Errorf ("RemoveStation: " ++ e) ;;
    AbortWithStatusJSON 500 (B_message "Server error") ;;
    return_) ;;

  shouldSend <- shouldSendAnalytics ;;
  when shouldSend (
    '(user, _) <- getUserDetailsFromMiddleware c ;;
    SendEvent (Username user) "user-remove-station") ;;

  forEach bodyStationNames (fun name =>
    let '(stationName, err) := StationNameFromStr K name in
    ifErr err (fun e =>
      Errorf ("RemoveStation: Station " ++ name ++ ": " ++ e) ;;
      AbortWithStatusJSON 500 (B_message "Server error")) ;;

    '(user, err) <- getUserDetailsFromMiddleware c ;;
    ifErr err (fun e =>
      Errorf ("RemoveStation: Station " ++ name ++ ": " ++ e) ;;
      AbortWithStatusJSON 401 (B_message "Unauthorized")) ;;

    let message := "Station " ++ Ext stationName ++ " has been deleted by user "
                   ++ Username user in
    Noticef message ;;

    let newAuditLog :=
      {| al_StationName := Ext stationName;
         al_Message := message;
         al_CreatedByUser := Username user;
         al_UserType := UserType user |} in
    err <- CreateAuditLogs [newAuditLog] ;;
    ifErr err (fun e =>
      Warnf ("RemoveStation: Station " ++ name
             ++ " - create audit logs error: " ++ e))) ;;
  IndentedJSON 200 B_empty.

(** ** Detaching a schema over HTTP *)

(** [StationsHandler.RemoveSchemaFromStation], after the sandbox guard and
    the validation of the request body. *)
Definition RemoveSchemaFromStation (c : GinContext) (bodyStationName : string)
  : M unit :=
  let '(stationName, err) := StationNameFromStr K bodyStationName in
  ifErr err (fun e =>
    Warnf ("RemoveSchemaFromStation: At station" ++ bodyStationName ++ ": " ++ e) ;;
    AbortWithStatusJSON (SHOWABLE_ERROR_STATUS_CODE K) (B_message e) ;;
    return_) ;;
  '(exist_, station, err) <- IsStationExist stationName ;;
  ifErr err (fun e =>
    Errorf ("RemoveSchemaFromStation: At station" ++ bodyStationName ++ ": " ++ e) ;;
    AbortWithStatusJSON 500 (B_message "Server error") ;;
    return_) ;;
  when (negb exist_) (
    let errMsg := "Station " ++ bodyStationName ++ " does not exist" in
    Warnf ("RemoveSchemaFromStation: " ++ errMsg) ;;
    AbortWithStatusJSON (SHOWABLE_ERROR_STATUS_CODE K) (B_message errMsg) ;;
    return_) ;;

  err <- removeSchemaFromStation stationName true ;;
  ifErr err (fun e =>
    Errorf ("RemoveSchemaFromStation: At station" ++ bodyStationName ++ ": " ++ e) ;;
    AbortWithStatusJSON 500 (B_message "Server error") ;;
    return_) ;;

  '(user, err) <- getUserDetailsFromMiddleware c ;;
  ifErr err (fun e =>
    Errorf ("RemoveSchemaFromStation: At station" ++ bodyStationName ++ ": " ++ e) ;;
    AbortWithStatusJSON 401 (B_message "Unauthorized")) ;;
  let message := "Schema " ++ SchemaName (Schema station)
                 ++ " has been deleted from station " ++ Ext stationName
                 ++ " by user " ++ Username user in
  Noticef message ;;
  let newAuditLog :=
    {| al_StationName := Intern stationName;
       al_Message := message;
       al_CreatedByUser := Username user;
       al_UserType := UserType user |} in
  err <- CreateAuditLogs [newAuditLog] ;;
  ifErr err (fun e =>
    Errorf ("RemoveSchemaFromStation: At station" ++ bodyStationName
            ++ " - create audit logs error: " ++ e)) ;;

  shouldSend <- shouldSendAnalytics ;;
  when shouldSend (
    SendEvent (Username user) "user-remove-schema-from-station") ;;

  IndentedJSON 200 B_empty.

(** ** DLS configuration *)

(** [StationsHandler.UpdateDlsConfig], after the request body was
    validated. *)
Definition UpdateDlsConfig (c : GinContext) (bodyStationName : string)
    (bodyPoison bodySchemaverse : bool) : M unit :=
  let '(stationName, err) := StationNameFromStr K bodyStationName in
  ifErr err (fun e =>
    Warnf ("DlsConfiguration: At station" ++ bodyStationName ++ ": " ++ e) ;;
    AbortWithStatusJSON (SHOWABLE_ERROR_STATUS_CODE K) (B_message e) ;;
    return_) ;;

  '(exist_, station, err) <- IsStationExist stationName ;;
  ifErr err (fun e =>
    Errorf ("DlsConfiguration: At station" ++ bodyStationName ++ ": " ++ e) ;;
    AbortWithStatusJSON 500 (B_message "Server error") ;;
    return_) ;;
  when (negb exist_) (
    let errMsg := "Station " ++ bodyStationName ++ " does not exist" in
    Warnf ("DlsConfiguration: " ++ errMsg) ;;
    AbortWithStatusJSON (SHOWABLE_ERROR_STATUS_CODE K) (B_message errMsg) ;;
    return_) ;;

  when (negb (Bool.eqb (Poison (DlsConfig station)) bodyPoison)
        || negb (Bool.eqb (Schemaverse (DlsConfig station)) bodySchemaverse)) (
    let dlsConfigurationNew :=
      {| Poison := bodyPoison; Schemaverse := bodySchemaverse |} in
    '(_, err) <- stations_UpsertOne (UpdateDlsConfig_filter bodyStationName)
                   (U_set_dls_configuration dlsConfigurationNew) ;;
    ifErr err (fun e =>
      Errorf ("DlsConfiguration: At station" ++ bodyStationName ++ ": " ++ e) ;;
      AbortWithStatusJSON 500 (B_message "Server error") ;;
      return_)) ;;
  IndentedJSON 200 (B_dls bodyPoison bodySchemaverse).

End MoreHandlers.


(** ** Listing the stations *)

Definition setStorageType (t : string) (s : Station) : Station :=
  {| ID := ID s; Name := Name s; RetentionType := RetentionType s;
     RetentionValue := RetentionValue s; StorageType := t;
     Replicas := Replicas s; DedupEnabled := DedupEnabled s;
     DedupWindowInMs := DedupWindowInMs s; CreatedByUser := CreatedByUser s;
     CreationDate := CreationDate s; LastUpdate := LastUpdate s;
     Functions := Functions s; IsDeleted := IsDeleted s; Schema := Schema s;
     IdempotencyWindow := IdempotencyWindow s; DlsConfig := DlsConfig s;
     IsNative := IsNative s |}.

(** [models.ExtendedStationDetails]. *)
Record ExtendedStationDetails := {
  esd_Station : Station;
  esd_PoisonMessages : Z;
  esd_TotalMessages : Z;
  esd_Tags : list string
}.

(** [models.ExtendedStation]: a station as the aggregation of
    [GetAllStationsDetails] projects it, with the fields the listing
    fills in. *)
Record ExtendedStation := {
  es_Station : Station;
  es_TotalMessages : Z;
  es_PoisonMessages : Z;
  es_Tags : list string
}.

(** A Go slice value: [None] is the nil slice, which is encoded as JSON
    [null]; [Some []] is an empty slice, encoded as [[]]. *)
Definition Slice (A : Type) := option (list A).

Definition append {A} (s : Slice A) (x : A) : Slice A :=
  match s with
  | None => Some [x]
  | Some l => Some (l ++ [x])%list
  end.

(** A [for] loop of a function that returns a value: the body continues
    with the local variable ([inl]) or returns from the function ([inr]). *)
Fixpoint forEachRet {A S R} (l : list A) (acc : S)
    (bodyOf : S -> A -> M (S + R)) : M (S + R) :=
  match l with
  | [] => ret (inl acc)
  | x :: r =>
      res <- bodyOf acc x ;;
      match res with
      | inl acc' => forEachRet r acc' bodyOf
      | inr v => ret (inr v)
      end
  end.

(** The [$project] stage of [GetAllStationsDetails]: the fields it does not
    name are left at their zero values by the decoding. *)
Definition GetAllStationsDetails_project (d : StationDoc) : Station :=
  let s := body d in
  {| ID := ID s; Name := Name s; RetentionType := RetentionType s;
     RetentionValue := RetentionValue s; StorageType := StorageType s;
     Replicas := Replicas s; DedupEnabled := false;
     DedupWindowInMs := 0; CreatedByUser := CreatedByUser s;
     CreationDate := CreationDate s; LastUpdate := LastUpdate s;
     Functions := Functions s; IsDeleted := false;
     Schema := zeroSchemaDetails;
     IdempotencyWindow := IdempotencyWindow s; DlsConfig := DlsConfig s;
     IsNative := false |}.

(** [stationsCollection.Aggregate] with the [$match] and [$project] stages
    of [GetAllStationsDetails], followed by [cursor.All] into a slice of
    [models.ExtendedStation]: on an error the slice is still nil. *)
Definition stations_Aggregate (f : Filter) : M (Slice ExtendedStation * error) :=
  bad <- fails OpStationsFind ;;
  if bad : bool then ret (None, Some "store failure")
  else
    coll <- gets stationsCollection ;;
    ret (Some (map (fun d =>
                 {| es_Station := GetAllStationsDetails_project d;
                    es_TotalMessages := 0%Z; es_PoisonMessages := 0%Z;
                    es_Tags := [] |})
               (findMany f coll)), None).

Section Listing.

Variable K : Constants.

(** The two counters of the stream engine are declared in other files; the
    listings are read for any implementation of them. *)
Variable GetTotalMessagesInStation : StationName -> M (Z * error).
Variable GetTotalPoisonMsgsByStation : string -> M (Z * error).

(** [StationsHandler.GetTotalMessages]. *)
Definition GetTotalMessages (stationNameExt : string) : M (Z * error) :=
  let '(stationName, err) := StationNameFromStr K stationNameExt in
  match err with
  | Some e => ret (0%Z, Some e)
  | None =>
      '(totalMessages, err) <- GetTotalMessagesInStation stationName ;;
      ret (totalMessages, err)
  end.

(** [StationsHandler.GetStationsDetails]. *)
Definition GetStationsDetails : M (Slice ExtendedStationDetails * error) :=
  '(stations, err) <- stations_Find GetStationsDetails_filter ;;
  match err with
  | Some e => ret (Some [], Some e)
  | None =>
      if (List.length stations =? 0)%nat then ret (Some [], None)
      else
        res <- forEachRet stations None (fun exStations station =>
          '(totalMessages, err) <- GetTotalMessages (Name station) ;;
          match err with
          | Some e =>
              if IsNatsErr err JSStreamNotFoundErr then ret (inl exStations)
              else ret (inr (Some [], Some e))
          | None =>
              '(poisonMessages, err) <- GetTotalPoisonMsgsByStation (Name station) ;;
              match err with
              | Some e =>
                  if IsNatsErr err JSStreamNotFoundErr then ret (inl exStations)
                  else ret (inr (Some [], Some e))
              | None =>
                  '(tags, err) <- GetTagsByStation (ID station) ;;
                  match err with
                  | Some e => ret (inr (Some [], Some e))
                  | None =>
                      let station :=
                        if StorageType station =? "file"
                        then setStorageType "disk" station else station in
                      ret (inl (append exStations
                                  {| esd_Station := station;
                                     esd_PoisonMessages := poisonMessages;
                                     esd_TotalMessages := totalMessages;
                                     esd_Tags := tags |}))
                  end
              end
          end) ;;
        match res with
        | inr r => ret r
        | inl None => ret (Some [], None)
        | inl exStations => ret (exStations, None)
        end
  end.

(** [StationsHandler.GetAllStationsDetails]. *)
Definition GetAllStationsDetails : M (Slice ExtendedStation * error) :=
  '(stations, err) <- stations_Aggregate GetAllStationsDetails_filter ;;
  match err with
  | Some e => ret (stations, Some e)
  | None =>
      let stations := match stations with Some l => l | None => [] end in
      if (List.length stations =? 0)%nat then ret (Some [], None)
      else
        res <- forEachRet stations None (fun extStations station =>
          '(totalMessages, err) <- GetTotalMessages (Name (es_Station station)) ;;
          match err with
          | Some e =>
              if IsNatsErr err JSStreamNotFoundErr then ret (inl extStations)
              else ret (inr (Some [], Some e))
          | None =>
              '(poisonMessages, err) <-
                 GetTotalPoisonMsgsByStation (Name (es_Station station)) ;;
              match err with
              | Some e =>
                  if IsNatsErr err JSStreamNotFoundErr then ret (inl extStations)
                  else ret (inr (Some [], Some e))
              | None =>
                  '(tags, err) <- GetTagsByStation (ID (es_Station station)) ;;
                  match err with
                  | Some e => ret (inr (Some [], Some e))
                  | None =>
                      ret (inl (append extStations
                                  {| es_Station := es_Station station;
                                     es_TotalMessages := totalMessages;
                                     es_PoisonMessages := poisonMessages;
                                     es_Tags := tags |}))
                  end
              end
          end) ;;
        match res with
        | inr r => ret r
        | inl extStations => ret (extStations, None)
        end
  end.

End Listing.

(** A counter that reads the stream of the station through
    [memphisStreamInfo]: one implementation of the parameters of the
    listings. *)
Definition streamCount (name : string) : M (Z * error) :=
  '(n, err) <- memphisStreamInfo name ;;
  ret (Z.of_nat n, err).

(** * The log view of the console *)

(** [Array.prototype.findIndex]: the index of the first element that
    satisfies [p], or [-1]. *)
Fixpoint findIndex {A} (p : A -> bool) (l : list A) : Z :=
  match l with
  | [] => (-1)%Z
  | x :: r =>
      if p x then 0%Z
      else let i := findIndex p r in
           if (i <? 0)%Z then (-1)%Z else (i + 1)%Z
  end.

(** The index an argument of [slice] denotes in an array of length [len]:
    a negative argument counts from the end. *)
Definition relativeIndex (len k : Z) : Z :=
  if (k <? 0)%Z then Z.max (len + k) 0 else Z.min k len.

(** [Array.prototype.slice(start, end)]. *)
Definition slice {A} (l : list A) (start end_ : Z) : list A :=
  let len := Z.of_nat (List.length l) in
  let k := relativeIndex len start in
  let final := relativeIndex len end_ in
  firstn (Z.to_nat (final - k)) (skipn (Z.to_nat k) l).

Section LogsWrapper.

(** A log as the console receives it; the view reads its [message_seq]. *)
Variable Log : Type.
Variable message_seq : Log -> Z.

(** The state of [LogsWrapper] that the subscription reads and sets.
    [selectedRow] starts as [null]; [displayedLog] is [None] until a log is
    displayed. *)
Record LogsState := {
  st_logs : list Log;
  st_lastMgsSeq : Z;
  st_selectedRow : option Z;
  st_displayedLog : option Log;
  st_changeSelected : bool
}.

(** The body of the subscription loop of [startListen] for one message
    whose decoded [data.logs] is [dataLogs] ([None] when the field is
    missing), read with the state of the last render.  The result is
    [None] when the body throws a [TypeError]: [data.logs.slice] on a
    missing field, or [data.logs[0].message_seq] on an empty array, both
    before any state is set. *)
Definition onMessage (dataLogs : option (list Log)) (s : LogsState)
  : option LogsState :=
  match dataLogs with
  | None => None
  | Some logs =>
      let lastMgsSeqIndex :=
        findIndex (fun log => (message_seq log =? st_lastMgsSeq s)%Z) logs in
      let uniqueItems := slice logs 0 lastMgsSeqIndex in
      match logs with
      | [] => None
      | first :: _ =>
          Some {| st_logs := (uniqueItems ++ st_logs s)%list;
                  st_lastMgsSeq := message_seq first;
                  st_selectedRow :=
                    if st_changeSelected s then Some (message_seq first)
                    else st_selectedRow s;
                  st_displayedLog :=
                    if st_changeSelected s then Some first
                    else st_displayedLog s;
                  st_changeSelected := st_changeSelected s |}
      end
  end.

End LogsWrapper.
(** * Vocabulary of the further properties *)

(** A station name whose DLS stream exists among the streams [l]. *)
Definition dlsReady (K : Constants) (l : list Stream) (name : string) : Prop :=
  exists sn, StationNameFromStr K name = (sn, None) /\
             hasStream (dlsStreamName K (Intern sn)) l = true.

(** The messages of the stream called [name], as the engine finds it. *)
Definition messagesOf (name : string) (l : list Stream) : list StoredMsg :=
  match find (fun s => stream_name s =? name) l with
  | Some s => stream_msgs s
  | None => []
  end.

(** What an acknowledgement has achieved once the ids [done] are
    processed: the timer setting is [B], the DLS stream [D] holds at most
    [B] messages, and none of them is stored under the subject of an id of
    [done]. *)
Definition acked (B : nat) (D : string) (subj : string -> string)
    (done : list string) (w : World) : Prop :=
  beforeTimeout w = B /\
  List.length (messagesOf D (streams w)) <= B /\
  forall id m, In id done -> In m (messagesOf D (streams w)) ->
               Subject m <> subj id.

(** The state a fetch runs in: timer setting, streams and consumers. *)
Definition fetchState (w : World) : nat * list Stream * list Consumer :=
  (beforeTimeout w, streams w, consumers w).

(** The same while the collected messages [rem] of the id [cur] are still
    to be deleted: what is stored under the subject of [cur] has its
    sequence among those of [rem]. *)
Definition acking (B : nat) (D : string) (subj : string -> string)
    (done : list string) (cur : string) (rem : list StoredMsg) (w : World)
  : Prop :=
  beforeTimeout w = B /\
  List.length (messagesOf D (streams w)) <= B /\
  forall m, In m (messagesOf D (streams w)) ->
    (forall id, In id done -> Subject m <> subj id) /\
    (Subject m = subj cur -> In (Sequence m) (map Sequence rem)).

(** [headersJson[key]] read from a Go map. *)
Fixpoint getHeader (key : string) (h : list (string * string)) : option string :=
  match h with
  | [] => None
  | (k, v) :: r => if k =? key then Some v else getHeader key r
  end.

(** A re-published dead letter: it goes to a subject of the form
    [$memphis_dls_...] and carries the id of its DLS entry and the decimal
    sequence of the DLS message in its headers. *)
Definition resentMarked (e : Event) : Prop :=
  match e with
  | E_resend subject _ headers =>
      String.prefix "$memphis_dls_" subject = true /\
      (exists id, getHeader "$memphis_pm_id" headers = Some id) /\
      (exists seq, getHeader "$memphis_pm_sequence" headers = Some (decimal seq))
  | _ => True
  end.

(** *** Station creation *)

(** A creation request whose optional attributes, where given, pass the
    validations of the handler. *)
Definition acceptable (K : Constants) (csr : createStationRequest) : Prop :=
  (negb (csr_RetentionType csr =? "") = true ->
   validateRetentionType (ToLower (csr_RetentionType csr)) = None) /\
  (negb (csr_StorageType csr =? "") = true ->
   validateStorageType (ToLower (csr_StorageType csr)) = None) /\
  ((0 <? csr_Replicas csr)%Z = true ->
   validateReplicas (csr_Replicas csr) = None).

(** The station record [createStationDirectIntern] builds for a request
    that names no schema: [id] is the fresh object id, [time] the current
    time. *)
Definition newStationOf (c : client) (csr : createStationRequest)
    (sn : StationName) (id time : nat) (native : bool) : Station :=
  {| ID := id;
     Name := Ext sn;
     CreatedByUser := username c;
     CreationDate := time;
     IsDeleted := false;
     RetentionType :=
       if negb (csr_RetentionType csr =? "") then ToLower (csr_RetentionType csr)
       else "message_age_sec";
     RetentionValue :=
       if negb (csr_RetentionType csr =? "") then csr_RetentionValue csr
       else 604800%Z;
     StorageType :=
       if negb (csr_StorageType csr =? "") then ToLower (csr_StorageType csr)
       else "file";
     Replicas := if (0 <? csr_Replicas csr)%Z then csr_Replicas csr else 1%Z;
     DedupEnabled := csr_DedupEnabled csr;
     DedupWindowInMs := csr_DedupWindowMillis csr;
     LastUpdate := time;
     Schema := zeroSchemaDetails;
     Functions := [];
     IdempotencyWindow :=
       if (csr_IdempotencyWindow csr <=? 0)%Z then 120000%Z
       else if (csr_IdempotencyWindow csr <? 100)%Z then 100%Z
       else csr_IdempotencyWindow csr;
     IsNative := native;
     DlsConfig := csr_DlsConfiguration csr |}.

(** A well-formed station document, as the creation handlers are meant to
    store it: live, with the field [is_deleted] written out, a known
    retention and storage type, one to five replicas, an idempotency window
    of at least 100 ms and no functions. *)
Definition wellFormed (d : StationDoc) : Prop :=
  has_is_deleted d = true /\
  IsDeleted (body d) = false /\
  In (RetentionType (body d)) ["message_age_sec"; "messages"; "bytes"] /\
  In (StorageType (body d)) ["file"; "memory"] /\
  (1 <= Replicas (body d) <= 5)%Z /\
  (100 <= IdempotencyWindow (body d))%Z /\
  Functions (body d) = [].

(** What a creation request may do to the stations collection: nothing, or
    append one well-formed document of the lowercased name. *)
Definition storedFor (name : string) (before after : list StationDoc) : Prop :=
  after = before \/
  exists d, after = (before ++ [d])%list /\ wellFormed d /\
            Name (body d) = ToLower name.

(** A creation request that names a schema. *)
Definition sampleCreateWithSchema (name schema : string) : createStationRequest :=
  {| csr_StationName := name; csr_SchemaName := schema; csr_RetentionType := "";
     csr_RetentionValue := 0; csr_StorageType := ""; csr_Replicas := 0;
     csr_DedupEnabled := false; csr_DedupWindowMillis := 0;
     csr_IdempotencyWindow := 0;
     csr_DlsConfiguration := zeroDlsConfiguration |}.

(** A creation request the handler lets pass: the canonicalizer accepts the
    name and the optional attributes pass their validations. *)
Definition admissible (K : Constants) (csr : createStationRequest) : Prop :=
  (exists sn, StationNameFromStr K (csr_StationName csr) = (sn, None)) /\
  acceptable K csr.

(** *** Removal of several stations *)

(** The external names of the requested names, as [RemoveStation] collects
    them. *)
Definition canonicalNames (K : Constants) (names exts : list string) : Prop :=
  Forall2 (fun name ext =>
             exists sn, StationNameFromStr K name = (sn, None) /\ Ext sn = ext)
          names exts.

(** No live station document carries one of the names. *)
Definition noneLive (exts : list string) (l : list StationDoc) : Prop :=
  forall ext, In ext exts -> filter (matches (liveByName ext)) l = [].

(** *** Published schema updates *)

(** The schema updates published in a trace: subject and type, oldest
    first. *)
Fixpoint publishedUpdates (t : list Event) : list (string * SchemaUpdateType) :=
  match t with
  | [] => []
  | E_schemaUpdate subject u :: t' => (subject, UpdateType u) :: publishedUpdates t'
  | _ :: t' => publishedUpdates t'
  end.

(** An event that is no schema update. *)
Definition notUpdate (e : Event) : Prop :=
  match e with
  | E_schemaUpdate _ _ => False
  | _ => True
  end.

(** The update subject of the station a name denotes. *)
Definition updateSubject (K : Constants) (name : string) : string :=
  "$memphis_schema_updates_" ++ Intern (fst (StationNameFromStr K name)).

(** After the events added to [T0], the [Init] updates of the stations
    [done] have been published, in this order, and no other update. *)
Definition attachedTo (K : Constants) (T0 : list Event) (done : list string)
    (w : World) : Prop :=
  exists t, added T0 (trace w) t /\
            publishedUpdates t =
              map (fun n => (updateSubject K n, SchemaUpdateTypeInit)) done.

(** *** Listings *)

(** A station as a listing shows it: storage type [file] reads [disk]. *)
Definition shownStation (s : Station) : Station :=
  if StorageType s =? "file" then setStorageType "disk" s else s.

(** An entry of a listing taken in world [w]: the shown form of a live
    document of the stations collection. *)
Definition listedFrom (w : World) (x : ExtendedStationDetails) : Prop :=
  exists d, In d (stationsCollection w) /\
            matches GetStationsDetails_filter d = true /\
            esd_Station x = shownStation (decodeStation d).

(** The elements of a slice. *)
Definition elements {A} (s : Slice A) : list A :=
  match s with
  | None => []
  | Some l => l
  end.

(** A world with the live station [orders] and no stream. *)
Definition streamlessWorld : World := withStreams [] schemaWorld.

(** *** The fetches of a run *)

(** A fetch, as a trace shows it: the stream and filter subject of the
    consumer created for it, and the messages collected through it. *)
Record Fetch := {
  f_stream : string;
  f_filter : string;
  f_msgs : list StoredMsg
}.

(** A collected message belongs to the fetch that is open, the last one. *)
Fixpoint addToLast (m : StoredMsg) (fs : list Fetch) : list Fetch :=
  match fs with
  | [] => []
  | f :: r =>
      match r with
      | [] => [ {| f_stream := f_stream f; f_filter := f_filter f;
                   f_msgs := (f_msgs f ++ [m])%list |} ]
      | _ :: _ => f :: addToLast m r
      end
  end.

Definition fetchStep (fs : list Fetch) (e : Event) : list Fetch :=
  match e with
  | E_addConsumer s cc =>
      (fs ++ [ {| f_stream := s; f_filter := FilterSubject cc; f_msgs := [] |} ])%list
  | E_collected m => addToLast m fs
  | _ => fs
  end.

(** The fetches of a trace, in order: every call that creates a consumer
    opens a fetch, and every message collected after it, up to the next
    such call, was collected through it. *)
Definition fetches (t : list Event) : list Fetch := fold_left fetchStep t [].


(** The fetch of the id [id] in a request served from station [sn]: its
    consumer is created on the DLS stream of [sn] with the poison subject
    of [sn] and [id] as filter, and what it collects are messages of
    [stored] (the DLS stream of [sn] when the handler started) that are
    stored under exactly this subject. *)
Definition fetchOf (K : Constants) (sn : StationName)
    (stored : list StoredMsg) (id : string) (f : Fetch) : Prop :=
  f_stream f = dlsStreamName K (Intern sn) /\
  f_filter f = GetDlsSubject K "poison" (Intern sn) id /\
  Forall (fun m => In m stored /\
                   Subject m = GetDlsSubject K "poison" (Intern sn) id)
         (f_msgs f).


(** The state of a DLS handler that serves a request from station [sn]
    once the ids [done] have been fetched: the fetches of the events added
    to [T0] are those of [done], in order, and the DLS stream of [sn] holds
    messages of [stored] only. *)
Definition fetching (K : Constants) (sn : StationName) (T0 : list Event)
    (stored : list StoredMsg) (done : list string) (w : World) : Prop :=
  exists t, added T0 (trace w) t /\
            Forall2 (fetchOf K sn stored) done (fetches t) /\
            incl (messagesOf (dlsStreamName K (Intern sn)) (streams w)) stored.



(** Three ids in one request: a poison id of [orders], a poison id of
    another station and a schemaverse id of [orders]. *)
Definition mixedIds : list string :=
  ["orders~poison~1"; "other~poison~9"; "orders~schema~3"].

(** * Properties *)

(** ** Name canonicalizer *)

Lemma toLowerChar_idem (c : ascii) :
  toLowerChar (toLowerChar c) = toLowerChar c.
Proof. destruct c as [[] [] [] [] [] [] [] []]; reflexivity. Qed.

Lemma validNameChar_lower (c : ascii) :
  validNameChar c = true -> toLowerChar c = c.
Proof.
  destruct c as [[] [] [] [] [] [] [] []]; vm_compute; intro H;
    first [reflexivity | discriminate H].
Qed.


Lemma toLowerChar_delimiter (c d : ascii) :
  userDelimiter d -> toLowerChar c = d -> c = d.
Proof.
  intros [-> | [-> | ->]]; destruct c as [[] [] [] [] [] [] [] []];
    vm_compute; intro H; first [reflexivity | discriminate H].
Qed.

Lemma userDelimiter_valid (d : ascii) :
  userDelimiter d -> validNameChar d = true.
Proof. intros [-> | [-> | ->]]; reflexivity. Qed.

Lemma ToLower_idem (s : string) : ToLower (ToLower s) = ToLower s.
Proof.
  induction s as [| c s IH]; simpl; [reflexivity |].
  now rewrite toLowerChar_idem, IH.
Qed.

Section CanonicalizerFacts.

Variable K : Constants.

(** The substituted delimiter is a delimiter of external names; its
    replacement is outside their character class and is no capital
    letter. *)
Hypothesis delimiter_user : userDelimiter (delimiterToReplace K).
Hypothesis replacement_foreign : validNameChar (delimiterReplacement K) = false.
Hypothesis replacement_lower :
  toLowerChar (delimiterReplacement K) = delimiterReplacement K.

Lemma revert_replace (n : string) :
  forallbS validNameChar (ToLower n) = true ->
  revertDelimiters K (ToLower (replaceDelimiters K n)) = ToLower n.
Proof.
  unfold revertDelimiters, replaceDelimiters.
  induction n as [| c n IH]; simpl; [reflexivity |].
  intros H. apply andb_prop in H. destruct H as [Hc Hn].
  rewrite (IH Hn). f_equal.
  destruct (Ascii.eqb_spec c (delimiterToReplace K)) as [-> | Hne].
  - rewrite replacement_lower, Ascii.eqb_refl.
    symmetry. apply validNameChar_lower.
    now apply userDelimiter_valid.
  - destruct (Ascii.eqb_spec (toLowerChar c) (delimiterReplacement K)) as [E | _];
      [| reflexivity].
    rewrite E in Hc. rewrite replacement_foreign in Hc. discriminate Hc.
Qed.

Lemma replace_lower (n : string) :
  ToLower (replaceDelimiters K (ToLower n)) = ToLower (replaceDelimiters K n).
Proof.
  unfold replaceDelimiters.
  induction n as [| c n IH]; simpl; [reflexivity |].
  rewrite IH. f_equal.
  destruct (Ascii.eqb_spec c (delimiterToReplace K)) as [-> | Hne].
  - rewrite (validNameChar_lower _ (userDelimiter_valid delimiter_user)).
    now rewrite Ascii.eqb_refl.
  - destruct (Ascii.eqb_spec (toLowerChar c) (delimiterToReplace K)) as [E | _].
    + exfalso. apply Hne. now apply toLowerChar_delimiter.
    + apply toLowerChar_idem.
Qed.

Lemma StationNameFromStr_ok (n : string) (sn : StationName) :
  StationNameFromStr K n = (sn, None) ->
  validateName K (ToLower n) stationObjectName = None /\
  sn = {| internal := ToLower (replaceDelimiters K n); external := ToLower n |}.
Proof.
  unfold StationNameFromStr.
  destruct (validateName K (ToLower n) stationObjectName) eqn:E; intro H.
  - discriminate H.
  - split; [reflexivity |]. now inversion H.
Qed.

Lemma validateName_chars (n o : string) :
  validateName K n o = None -> forallbS validNameChar n = true.
Proof.
  unfold validateName.
  destruct (String.length n =? 0)%nat; [discriminate |].
  destruct (maxNameLength K <? String.length n)%nat; [discriminate |].
  destruct (forallbS validNameChar n); [reflexivity | discriminate].
Qed.

(** C6. For every name the canonicalizer accepts, the internal stream name
    produced by [StationNameFromStr] is mapped back by
    [StationNameFromStreamName] to the same external and internal name, and
    canonicalizing that external name again gives the same pair: the two
    functions are mutually inverse on valid names. *)
Theorem C6_canonical_name_round_trip (n : string) (sn : StationName) :
  StationNameFromStr K n = (sn, None) ->
  StationNameFromStreamName K (Intern sn) = sn /\
  StationNameFromStr K (Ext (StationNameFromStreamName K (Intern sn))) = (sn, None).
Proof.
  intros H. destruct (StationNameFromStr_ok n H) as [Hv ->].
  pose proof (validateName_chars _ _ Hv) as Hc.
  assert (E : StationNameFromStreamName K (ToLower (replaceDelimiters K n)) =
              {| internal := ToLower (replaceDelimiters K n);
                 external := ToLower n |}).
  { unfold StationNameFromStreamName. now rewrite revert_replace. }
  unfold Intern, Ext. cbn [internal external].
  split; [exact E |].
  rewrite E. cbn [external]. unfold StationNameFromStr.
  rewrite ToLower_idem, Hv, replace_lower. reflexivity.
Qed.

End CanonicalizerFacts.

Lemma C6_witness :
  StationNameFromStreamName sampleConstants "my#station-1" =
    {| internal := "my#station-1"; external := "my.station-1" |} /\
  StationNameFromStr sampleConstants "my.station-1" =
    ({| internal := "my#station-1"; external := "my.station-1" |}, None).
Proof.
  apply (@C6_canonical_name_round_trip sampleConstants
           (or_introl eq_refl) eq_refl eq_refl "My.Station-1"
           {| internal := "my#station-1"; external := "my.station-1" |}).
  reflexivity.
Defined.

(** ** Reasoning about handlers *)


Lemma sat_ret {A} (P : World -> Prop) (a : A) (Q : A -> World -> Prop) X :
  (forall w, P w -> Q a w) -> sat P (ret a) Q X.
Proof. intros H w Hw. simpl. auto. Qed.

Lemma sat_return {A} (P : World -> Prop) (Q : A -> World -> Prop) (X : World -> Prop) :
  (forall w, P w -> X w) -> sat P return_ Q X.
Proof. intros H w Hw. simpl. auto. Qed.

Lemma sat_bind {A B} (P : World -> Prop) (m : M A) (k : A -> M B)
    (Q : A -> World -> Prop) (R : B -> World -> Prop) X :
  sat P m Q X -> (forall a, sat (Q a) (k a) R X) -> sat P (bind m k) R X.
Proof.
  intros Hm Hk w Hw. unfold bind. specialize (Hm w Hw).
  destruct (m w) as [[a | |] w']; auto.
  apply Hk. exact Hm.
Qed.

Lemma sat_weaken {A} (P P' : World -> Prop) (m : M A)
    (Q Q' : A -> World -> Prop) (X X' : World -> Prop) :
  sat P' m Q' X' ->
  (forall w, P w -> P' w) ->
  (forall a w, Q' a w -> Q a w) ->
  (forall w, X' w -> X w) ->
  sat P m Q X.
Proof.
  intros H HP HQ HX w Hw. specialize (H w (HP w Hw)).
  destruct (m w) as [[a | |] w']; auto.
Qed.

Lemma sat_keeps {A B} (f : World -> B) (R : B -> Prop) (m : M A) :
  keeps f m ->
  sat (fun w => R (f w)) m (fun _ w => R (f w)) (fun w => R (f w)).
Proof.
  intros H w Hw. specialize (H w).
  destruct (m w) as [[a | |] w']; simpl in H; now rewrite H.
Qed.

(** Skipping a step that keeps the component an invariant speaks about. *)
Lemma sat_bind_keeps {A B C} (f : World -> C) (R : C -> Prop)
    (m : M A) (k : A -> M B) (Q : B -> World -> Prop) (X : World -> Prop) :
  keeps f m ->
  (forall w, R (f w) -> X w) ->
  (forall a, sat (fun w => R (f w)) (k a) Q X) ->
  sat (fun w => R (f w)) (bind m k) Q X.
Proof.
  intros Hm HX Hk.
  apply sat_bind with (Q := fun _ w => R (f w)); [| exact Hk].
  eapply sat_weaken; [apply (@sat_keeps _ _ f R m Hm) | | |]; auto.
Qed.

Lemma keeps_ret {A B} (f : World -> B) (a : A) : keeps f (ret a).
Proof. intro w. reflexivity. Qed.

Lemma keeps_return {A B} (f : World -> B) : keeps f (@return_ A).
Proof. intro w. reflexivity. Qed.

Lemma keeps_panic {A B} (f : World -> B) : keeps f (@panic A).
Proof. intro w. reflexivity. Qed.

Lemma keeps_gets {A B} (f : World -> B) (g : World -> A) : keeps f (gets g).
Proof. intro w. reflexivity. Qed.

Lemma keeps_modify {B} (f : World -> B) (g : World -> World) :
  (forall w, f (g w) = f w) -> keeps f (modify g).
Proof. intros H w. simpl. apply H. Qed.

Lemma keeps_bind {A B C} (f : World -> C) (m : M A) (k : A -> M B) :
  keeps f m -> (forall a, keeps f (k a)) -> keeps f (bind m k).
Proof.
  intros Hm Hk w. unfold bind. specialize (Hm w).
  destruct (m w) as [[a | |] w']; simpl in *; auto.
  rewrite <- Hm. apply Hk.
Qed.

Lemma keeps_forEach {A C} (f : World -> C) (l : list A) (b : A -> M unit) :
  (forall a, keeps f (b a)) -> keeps f (forEach l b).
Proof.
  intros H. induction l as [| x l IH]; simpl.
  - apply keeps_ret.
  - apply keeps_bind; auto.
Qed.

Lemma keeps_fetchLoop {C} (f : World -> C) :
  (forall t w, f (withTrace t w) = f w) ->
  forall amount arrivals msgs, keeps f (fetchLoop amount arrivals msgs).
Proof.
  intros Hf. induction amount as [| n IH]; intros arrivals msgs; simpl.
  - apply keeps_ret.
  - destruct arrivals as [| m rest]; [apply keeps_ret |].
    apply keeps_bind; [apply keeps_modify; intro; apply Hf | intros _].
    apply keeps_bind; [apply keeps_modify; intro; apply Hf | intros _].
    apply IH.
Qed.

Create HintDb handlers.

#[local] Hint Unfold emit fails index Errorf Warnf Noticef Error NewObjectID timeNow
  nuidNext respondOnGlobalAcc respondWithErr respondWithErrOrJsApiResp
  ifErr when IsStationExist IsSchemaExist getActiveVersionBySchemaId
  generateSchemaUpdateInit updateStationProducersOfSchemaChange
  stations_FindOne stations_Find producers_UpdateMany consumers_UpdateMany
  CreateAuditLogs RemoveAllAuditLogsByStation DeleteTagsFromStation
  GetTagsByStation AddTagsToEntity shouldSendAnalytics SendEvent
  getUserDetailsFromMiddleware AbortWithStatusJSON IndentedJSON
  CreateStream CreateDlsStream RemoveStream memphisStreamInfo
  memphisAddConsumer memphisRemoveConsumer memphisDeleteMsgFromStream
  subscribeOnGlobalAcc unsubscribeOnGlobalAcc sendInternalAccountMsgWithReply
  deliveries ResendPoisonMessage stations_InsertOne stations_UpdateOne
  stations_UpdateMany stations_UpsertOne : handlers.

(** Decides [keeps f m] for straight-line code over the primitives, when
    none of them touches [f]. *)
Ltac keeps_tac :=
  repeat first
    [ apply keeps_ret | apply keeps_return | apply keeps_panic
    | apply keeps_gets
    | apply keeps_modify; intro; reflexivity
    | apply keeps_bind; [| intros ?]
    | apply keeps_forEach; intros ?
    | apply keeps_fetchLoop; intros; reflexivity
    | match goal with
      | |- keeps _ (match ?x with _ => _ end) => destruct x
      end
    | progress autounfold with handlers
    | progress cbv zeta ].

(** Walks along a handler as long as its steps keep the component [f] the
    invariant [R] speaks about. *)
Ltac walk f R :=
  repeat first
    [ apply (@sat_bind_keeps _ _ _ f R); [solve [keeps_tac] | solve [auto] | intros ?]
    | match goal with
      | |- sat _ (match ?x with _ => _ end) _ _ => destruct x
      end
    | progress cbv zeta ].

Lemma sat_end_keeps {A C} (f : World -> C) (R : C -> Prop) (m : M A)
    (Q : A -> World -> Prop) (X : World -> Prop) :
  keeps f m ->
  (forall a w, R (f w) -> Q a w) ->
  (forall w, R (f w) -> X w) ->
  sat (fun w => R (f w)) m Q X.
Proof.
  intros Hm HQ HX.
  eapply sat_weaken; [apply (@sat_keeps _ _ f R m Hm) | | |]; auto.
Qed.

Lemma sat_pre {A} (P P' : World -> Prop) (m : M A) Q X :
  (forall w, P w -> P' w) -> sat P' m Q X -> sat P m Q X.
Proof. intros HP H. eapply sat_weaken; eauto. Qed.

(** ** Idempotency window *)

Lemma window_cases (x : Z) :
  windowNormalized x
    (if (x <=? 0)%Z then 120000%Z else if (x <? 100)%Z then 100%Z else x).
Proof.
  unfold windowNormalized.
  destruct (Z.leb_spec x 0); [repeat split; intros; lia |].
  destruct (Z.ltb_spec x 100); repeat split; intros; lia.
Qed.


Lemma sat_InsertOne (S0 : list StationDoc) (st : Station) (X : World -> Prop) :
  sat (fun w => stationsCollection w = S0) (stations_InsertOne st)
      (fun err w' =>
         match err with
         | Some _ => stationsCollection w' = S0
         | None => stationsCollection w' =
                     (S0 ++ [{| body := st; has_is_deleted := true |}])%list
         end) X.
Proof.
  intros w Hw. unfold stations_InsertOne, bind, fails, gets, modify, ret.
  destruct (existsb (Op_eqb OpStationsInsert) (failing w)); simpl;
    [exact Hw | now rewrite Hw].
Qed.

Lemma sat_UpsertOne (S0 : list StationDoc) f u (X : World -> Prop) :
  sat (fun w => stationsCollection w = S0) (stations_UpsertOne f u)
      (fun r w' =>
         match snd r with
         | Some _ => stationsCollection w' = S0
         | None => stationsCollection w' = upsertOne f u S0 /\
                   fst r = matchedCount f S0
         end) X.
Proof.
  intros w Hw. unfold stations_UpsertOne, bind, fails, gets, modify, ret.
  destruct (existsb (Op_eqb OpStationsUpdate) (failing w)); simpl;
    [exact Hw | now rewrite Hw].
Qed.

Lemma updateOne_setOnInsert f st (l : list StationDoc) :
  updateOne f (U_setOnInsert st) l = l.
Proof.
  induction l as [| d l IH]; simpl; [reflexivity |].
  destruct (matches f d); [reflexivity | now rewrite IH].
Qed.

Lemma createStationDirectIntern_window K c reply csr w :
  createdWith (csr_IdempotencyWindow csr) (stationsCollection w)
    (stationsCollection (exec (createStationDirectIntern K c reply csr None) w)).
Proof.
  set (S0 := stationsCollection w).
  assert (H : sat (fun w => stationsCollection w = S0)
                  (createStationDirectIntern K c reply csr None)
                  (fun _ w' => createdWith (csr_IdempotencyWindow csr) S0 (stationsCollection w'))
                  (fun w' => createdWith (csr_IdempotencyWindow csr) S0 (stationsCollection w'))).
  { unfold createStationDirectIntern.
    assert (HX : forall w, stationsCollection w = S0 ->
                   createdWith (csr_IdempotencyWindow csr) S0 (stationsCollection w))
      by (intros ? ->; now left).
    walk stationsCollection (fun s : list StationDoc => s = S0).
    eapply sat_bind; [apply sat_InsertOne |].
    intros [? |].
    - walk stationsCollection (fun s : list StationDoc => s = S0).
      apply (@sat_end_keeps _ _ stationsCollection (fun s => s = S0));
        [solve [keeps_tac] | auto | auto].
    - match goal with
      | |- sat (fun w => _ = (S0 ++ [?d])%list) _ _ _ =>
          assert (HX' : forall w, stationsCollection w = (S0 ++ [d])%list ->
                   createdWith (csr_IdempotencyWindow csr) S0 (stationsCollection w))
            by (intros ? ->; right; eexists; split; [reflexivity | apply window_cases]);
          walk stationsCollection (fun s : list StationDoc => s = (S0 ++ [d])%list);
          apply (@sat_end_keeps _ _ stationsCollection (fun s => s = (S0 ++ [d])%list));
            [solve [keeps_tac] | auto | auto]
      end. }
  specialize (H w eq_refl). unfold exec.
  destruct (createStationDirectIntern K c reply csr None w) as [[[] | |] w'];
    exact H.
Qed.

Lemma CreateStation_window K c body_ w :
  createdWith (css_IdempotencyWindow body_) (stationsCollection w)
    (stationsCollection (exec (CreateStation K c body_) w)).
Proof.
  set (S0 := stationsCollection w).
  assert (H : sat (fun w => stationsCollection w = S0)
                  (CreateStation K c body_)
                  (fun _ w' => createdWith (css_IdempotencyWindow body_) S0 (stationsCollection w'))
                  (fun w' => createdWith (css_IdempotencyWindow body_) S0 (stationsCollection w'))).
  { unfold CreateStation.
    assert (HX : forall w, stationsCollection w = S0 ->
                   createdWith (css_IdempotencyWindow body_) S0 (stationsCollection w))
      by (intros ? ->; now left).
    walk stationsCollection (fun s : list StationDoc => s = S0).
    eapply sat_bind; [apply sat_UpsertOne |].
    intros [mc [? |]]; cbn [fst snd].
    - walk stationsCollection (fun s : list StationDoc => s = S0).
      apply (@sat_end_keeps _ _ stationsCollection (fun s => s = S0));
        [solve [keeps_tac] | auto | auto].
    - unfold upsertOne, matchedCount.
      match goal with
      | |- context [existsb ?p S0] => destruct (existsb p S0)
      end.
      + apply sat_pre with (P' := fun w => stationsCollection w = S0).
        { intros ? [-> _].
          destruct (negb (_ =? ""))%string; apply updateOne_setOnInsert. }
        walk stationsCollection (fun s : list StationDoc => s = S0).
        apply (@sat_end_keeps _ _ stationsCollection (fun s => s = S0));
          [solve [keeps_tac] | auto | auto].
      + match goal with
        | |- sat (fun w => _ = (S0 ++ [?d])%list /\ _) _ _ _ =>
            apply sat_pre with (P' := fun w => stationsCollection w = (S0 ++ [d])%list);
              [intros ? [-> _]; reflexivity |];
            assert (HX' : forall w, stationsCollection w = (S0 ++ [d])%list ->
                     createdWith (css_IdempotencyWindow body_) S0 (stationsCollection w))
              by (intros ? ->; right; eexists; split;
                  [reflexivity
                  | destruct (negb (_ =? ""))%string; apply window_cases]);
            walk stationsCollection (fun s : list StationDoc => s = (S0 ++ [d])%list);
            apply (@sat_end_keeps _ _ stationsCollection (fun s => s = (S0 ++ [d])%list));
              [solve [keeps_tac] | auto | auto]
        end. }
  specialize (H w eq_refl). unfold exec.
  destruct (CreateStation K c body_ w) as [[[] | |] w']; exact H.
Qed.

(** C7. [CreateStation] normalizes the idempotency window, in the SDK
    variant and in the HTTP variant alike: whenever a station document is
    persisted, a requested window of at most 0 is stored as 120000, a window
    strictly between 0 and 100 as 100, and a window of at least 100
    unchanged; so 0 is stored as 120000, 50 as 100, 200 as 200 and 1000000
    as 1000000. *)
Theorem C7_idempotency_window_normalized :
  (forall K c reply csr w,
      createdWith (csr_IdempotencyWindow csr) (stationsCollection w)
        (stationsCollection
           (exec (createStationDirect K c reply (Decoded csr)) w))) /\
  (forall K c body_ w,
      createdWith (css_IdempotencyWindow body_) (stationsCollection w)
        (stationsCollection (exec (CreateStation K c body_) w))) /\
  map (fun win =>
         storedWindows
           (exec (createStationDirect sampleConstants sampleClient "reply"
                    (Decoded (sampleCreate "orders" win))) emptyWorld))
      [0; 50; 200; 1000000]%Z
    = [[120000]; [100]; [200]; [1000000]]%Z /\
  map (fun win =>
         storedWindows
           (exec (CreateStation sampleConstants sampleContext
                    (sampleBody "orders" win)) emptyWorld))
      [0; 50; 200; 1000000]%Z
    = [[120000]; [100]; [200]; [1000000]]%Z.
Proof.
  split; [| split; [| split]].
  - intros. apply createStationDirectIntern_window.
  - intros. apply CreateStation_window.
  - vm_compute. reflexivity.
  - vm_compute. reflexivity.
Qed.

(** ** Destroying a station that does not exist *)

Lemma withTrace_withTrace (t t' : list Event) (w : World) :
  withTrace t' (withTrace t w) = withTrace t' w.
Proof. reflexivity. Qed.

Lemma trace_withTrace (t : list Event) (w : World) : trace (withTrace t w) = t.
Proof. reflexivity. Qed.

(** C8. When [removeStationDirectIntern] is asked to destroy a station that
    does not exist, the not-found message is built from the zero-valued
    station record: the only reply is the text "Station  does not exist",
    with an empty name and two spaces, whatever name was requested. *)
Theorem C8_destroy_missing_station_message
    (K : Constants) (c : client) (reply : string) (dsr : destroyStationRequest)
    (w : World) (sn : StationName) :
  StationNameFromStr K (dsr_StationName dsr) = (sn, None) ->
  existsb (Op_eqb OpIsStationExist) (failing w) = false ->
  findOne (liveByName (Ext sn)) (stationsCollection w) = None ->
  removeStationDirect K c reply (Decoded dsr) w =
    (Returned,
     withTrace (trace w ++ [E_log "removeStationDirect: Station  does not exist";
                            E_respond reply "Station  does not exist"])%list w).
Proof.
  intros Hn Hf Hs.
  unfold removeStationDirect, removeStationDirectIntern. rewrite Hn.
  unfold IsStationExist, bind, ifErr, fails, gets, ret. cbn [fst snd].
  rewrite Hf, Hs. cbn.
  rewrite <- app_assoc. reflexivity.
Qed.

Lemma C8_witness :
  removeStationDirect sampleConstants sampleClient "reply"
      (Decoded {| dsr_StationName := "Ghost" |}) emptyWorld =
    (Returned,
     withTrace [E_log "removeStationDirect: Station  does not exist";
                E_respond "reply" "Station  does not exist"] emptyWorld).
Proof.
  apply (@C8_destroy_missing_station_message sampleConstants sampleClient "reply"
           {| dsr_StationName := "Ghost" |} emptyWorld
           {| internal := "ghost"; external := "ghost" |});
    reflexivity.
Defined.

(** ** Documents without the [is_deleted] field *)

Lemma decodeStation_normalize (d : StationDoc) :
  decodeStation (normalizeDoc d) = decodeStation d.
Proof.
  destruct d as [b h]. unfold normalizeDoc, decodeStation, explicitlyLive.
  destruct h; reflexivity.
Qed.

Lemma name_normalize (d : StationDoc) :
  Name (body (normalizeDoc d)) = Name (body d).
Proof. destruct d as [b []]; reflexivity. Qed.


Lemma legacySafe_matches (f : Filter) :
  legacySafe f -> forall d, matches f (normalizeDoc d) = matches f d.
Proof.
  induction 1; intros d; simpl.
  - now rewrite name_normalize.
  - now rewrite name_normalize.
  - destruct d as [b []]; reflexivity.
  - destruct d as [b []]; reflexivity.
  - now rewrite IHlegacySafe1, IHlegacySafe2.
Qed.

Lemma legacySafe_treats (f : Filter) :
  legacySafe f -> treatsLegacyAsLive f.
Proof.
  intros Hf d Hd. rewrite <- (legacySafe_matches Hf d).
  unfold normalizeDoc. now rewrite Hd.
Qed.

Lemma liveFilters_safe n ns f : In f (liveFilters n ns) -> legacySafe f.
Proof.
  unfold liveFilters. simpl.
  intros H.
  repeat (destruct H as [<- | H]; [repeat constructor |]).
  destruct H.
Qed.

Lemma normalizeDoc_idem (d : StationDoc) :
  normalizeDoc (normalizeDoc d) = normalizeDoc d.
Proof. destruct d as [b []]; reflexivity. Qed.

Lemma find_normalize (f : Filter) (l : list StationDoc) :
  legacySafe f ->
  find (matches f) (map normalizeDoc l) = option_map normalizeDoc (find (matches f) l).
Proof.
  intros Hf. induction l as [| d l IH]; simpl; [reflexivity |].
  rewrite (legacySafe_matches Hf). destruct (matches f d); auto.
Qed.

Lemma existsb_normalize (f : Filter) (l : list StationDoc) :
  legacySafe f ->
  existsb (matches f) (map normalizeDoc l) = existsb (matches f) l.
Proof.
  intros Hf. induction l as [| d l IH]; simpl; [reflexivity |].
  now rewrite (legacySafe_matches Hf), IH.
Qed.

Lemma filter_normalize (f : Filter) (l : list StationDoc) :
  legacySafe f ->
  filter (matches f) (map normalizeDoc l) = map normalizeDoc (filter (matches f) l).
Proof.
  intros Hf. induction l as [| d l IH]; simpl; [reflexivity |].
  rewrite (legacySafe_matches Hf). destruct (matches f d); simpl; now rewrite IH.
Qed.


Lemma plain_set_is_deleted b : plainUpdate (U_set_is_deleted b).
Proof. intros [b0 []]; destruct b0; reflexivity. Qed.

Lemma plain_set_dls c : plainUpdate (U_set_dls_configuration c).
Proof. intros [b0 []]; destruct b0; reflexivity. Qed.

Lemma updateOne_normalize f u (l : list StationDoc) :
  legacySafe f -> plainUpdate u ->
  map normalizeDoc (updateOne f u (map normalizeDoc l)) =
  map normalizeDoc (updateOne f u l).
Proof.
  intros Hf Hu. induction l as [| d l IH]; simpl; [reflexivity |].
  rewrite (legacySafe_matches Hf). destruct (matches f d); simpl.
  - rewrite <- Hu. f_equal. rewrite map_map.
    apply map_ext. intro. apply normalizeDoc_idem.
  - now rewrite IH, normalizeDoc_idem.
Qed.

Lemma map_normalize_idem (l : list StationDoc) :
  map normalizeDoc (map normalizeDoc l) = map normalizeDoc l.
Proof. rewrite map_map. apply map_ext. intro. apply normalizeDoc_idem. Qed.

Lemma upsertOne_normalize f u (l : list StationDoc) :
  legacySafe f -> plainUpdate u ->
  map normalizeDoc (upsertOne f u (map normalizeDoc l)) =
  map normalizeDoc (upsertOne f u l).
Proof.
  intros Hf Hu. unfold upsertOne. rewrite (existsb_normalize _ Hf).
  destruct (existsb (matches f) l).
  - now apply updateOne_normalize.
  - rewrite !map_app. now rewrite map_normalize_idem.
Qed.

(** *** Worlds *)

Lemma legacyEquiv_stations w w' :
  legacyEquiv w w' ->
  map normalizeDoc (stationsCollection w) = map normalizeDoc (stationsCollection w').
Proof.
  unfold legacyEquiv, normalizeWorld, withStations. intro H.
  now inversion H.
Qed.

Lemma legacyEquiv_intro w w' :
  map normalizeDoc (stationsCollection w) = map normalizeDoc (stationsCollection w') ->
  withStations [] w = withStations [] w' ->
  legacyEquiv w w'.
Proof.
  unfold legacyEquiv, normalizeWorld, withStations. intros H1 H2.
  inversion H2. now rewrite H1.
Qed.

Lemma legacyEquiv_rest w w' :
  legacyEquiv w w' -> withStations [] w = withStations [] w'.
Proof.
  unfold legacyEquiv, normalizeWorld, withStations. intro H.
  now inversion H.
Qed.

Lemma legacyBlind_ret {A} (a : A) : legacyBlind (ret a).
Proof. intros w w' H. simpl. auto. Qed.

Lemma legacyBlind_return {A} : legacyBlind (@return_ A).
Proof. intros w w' H. simpl. auto. Qed.

Lemma legacyBlind_bind {A B} (m : M A) (k : A -> M B) :
  legacyBlind m -> (forall a, legacyBlind (k a)) -> legacyBlind (bind m k).
Proof.
  intros Hm Hk w w' H. unfold bind.
  destruct (Hm w w' H) as [Hv Hw].
  destruct (m w) as [[a | |] w1], (m w') as [[a' | |] w1']; simpl in *;
    try discriminate; auto.
  injection Hv as <-. now apply Hk.
Qed.

(** Reading a component other than the station documents. *)
Lemma legacyBlind_gets {A} (g : World -> A) :
  (forall w, g w = g (withStations [] w)) -> legacyBlind (gets g).
Proof.
  intros Hg w w' H. simpl. split; [| exact H].
  f_equal. rewrite (Hg w), (Hg w'). f_equal. now apply legacyEquiv_rest.
Qed.

(** Changing components other than the station documents. *)
Lemma legacyBlind_modify (h : World -> World) :
  (forall w, stationsCollection (h w) = stationsCollection w) ->
  (forall w, withStations [] (h w) = withStations [] (h (withStations [] w))) ->
  legacyBlind (modify h).
Proof.
  intros Hs Hh w w' H. simpl. split; [reflexivity |].
  apply legacyEquiv_intro.
  - rewrite !Hs. now apply legacyEquiv_stations.
  - rewrite (Hh w), (Hh w'). do 2 f_equal. now apply legacyEquiv_rest.
Qed.

(** Changing the station documents in a way that does not see the
    normalization. *)
Lemma legacyBlind_modify_stations (g : list StationDoc -> list StationDoc) :
  (forall l, map normalizeDoc (g (map normalizeDoc l)) = map normalizeDoc (g l)) ->
  legacyBlind (modify (fun w => withStations (g (stationsCollection w)) w)).
Proof.
  intros Hg w w' H. simpl. split; [reflexivity |].
  apply legacyEquiv_intro.
  - simpl. rewrite <- (Hg (stationsCollection w)), <- (Hg (stationsCollection w')).
    now rewrite (legacyEquiv_stations H).
  - apply (legacyEquiv_rest H).
Qed.

Lemma legacyBlind_forEachErr {A} (l : list A) (b : A -> M error) :
  (forall a, legacyBlind (b a)) -> legacyBlind (forEachErr l b).
Proof.
  intros Hb. induction l as [| x l IH]; simpl.
  - apply legacyBlind_ret.
  - apply legacyBlind_bind; [apply Hb |].
    intros [e |]; [apply legacyBlind_ret | apply IH].
Qed.

Lemma legacyBlind_panic {A} : legacyBlind (@panic A).
Proof. intros w w' H. simpl. auto. Qed.

Lemma legacyEquiv_failing w w' : legacyEquiv w w' -> failing w = failing w'.
Proof. intro H. apply legacyEquiv_rest in H. now inversion H. Qed.

Lemma find_equiv f w w' :
  legacySafe f -> legacyEquiv w w' ->
  option_map decodeStation (find (matches f) (stationsCollection w)) =
  option_map decodeStation (find (matches f) (stationsCollection w')).
Proof.
  intros Hf H. apply legacyEquiv_stations in H.
  assert (E : forall l, option_map decodeStation (find (matches f) l) =
                        option_map decodeStation (find (matches f) (map normalizeDoc l))).
  { intro l. rewrite (find_normalize _ Hf).
    destruct (find (matches f) l); simpl; [| reflexivity].
    now rewrite decodeStation_normalize. }
  now rewrite (E (stationsCollection w)), (E (stationsCollection w')), H.
Qed.

Lemma legacyBlind_IsStationExist (sn : StationName) :
  legacyBlind (IsStationExist sn).
Proof.
  intros w w' H. unfold IsStationExist, bind, fails, gets, ret, findOne.
  rewrite (legacyEquiv_failing H).
  destruct (existsb (Op_eqb OpIsStationExist) (failing w')); simpl; [auto |].
  assert (Hs : legacySafe (liveByName (Ext sn))) by repeat constructor.
  pose proof (find_equiv Hs H) as E.
  destruct (find _ (stationsCollection w)), (find _ (stationsCollection w'));
    cbn [option_map] in E; try discriminate E; cbn [fst snd];
    (split; [congruence | exact H]).
Qed.

Lemma legacyBlind_FindOne (f : Filter) :
  legacySafe f -> legacyBlind (stations_FindOne f).
Proof.
  intros Hs w w' H. unfold stations_FindOne, bind, fails, gets, ret, findOne.
  rewrite (legacyEquiv_failing H).
  destruct (existsb (Op_eqb OpStationsFind) (failing w')); simpl; [auto |].
  pose proof (find_equiv Hs H) as E.
  destruct (find _ (stationsCollection w)), (find _ (stationsCollection w'));
    cbn [option_map] in E; try discriminate E; cbn [fst snd];
    (split; [congruence | exact H]).
Qed.

Lemma legacyBlind_Find (f : Filter) :
  legacySafe f -> legacyBlind (stations_Find f).
Proof.
  intros Hs w w' H. unfold stations_Find, bind, fails, gets, ret, findMany.
  rewrite (legacyEquiv_failing H).
  destruct (existsb (Op_eqb OpStationsFind) (failing w')); simpl; [auto |].
  split; [| exact H]. do 2 f_equal.
  assert (E : forall l, map decodeStation (filter (matches f) l) =
                        map decodeStation (filter (matches f) (map normalizeDoc l))).
  { intro l. rewrite (filter_normalize _ Hs), map_map.
    apply map_ext. intro. now rewrite decodeStation_normalize. }
  rewrite (E (stationsCollection w)), (E (stationsCollection w')).
  now rewrite (legacyEquiv_stations H).
Qed.

Lemma legacyBlind_fails (op : Op) : legacyBlind (fails op).
Proof. apply legacyBlind_gets. intro. reflexivity. Qed.

Lemma legacyBlind_UpdateOne (f : Filter) (u : Update) :
  legacySafe f -> plainUpdate u -> legacyBlind (stations_UpdateOne f u).
Proof.
  intros Hf Hu. unfold stations_UpdateOne.
  apply legacyBlind_bind; [apply legacyBlind_fails |].
  intros []; [apply legacyBlind_ret |].
  apply legacyBlind_bind; [| intro; apply legacyBlind_ret].
  apply (legacyBlind_modify_stations (updateOne f u)).
  intro l. now apply updateOne_normalize.
Qed.

Lemma legacyBlind_UpsertOne (f : Filter) (u : Update) :
  legacySafe f -> plainUpdate u -> legacyBlind (stations_UpsertOne f u).
Proof.
  intros Hf Hu w w' H.
  unfold stations_UpsertOne, bind, fails, gets, modify, ret.
  rewrite (legacyEquiv_failing H).
  destruct (existsb (Op_eqb OpStationsUpdate) (failing w')); simpl; [auto |].
  split.
  - do 2 f_equal. unfold matchedCount.
    rewrite <- (existsb_normalize (stationsCollection w) Hf),
            <- (existsb_normalize (stationsCollection w') Hf).
    now rewrite (legacyEquiv_stations H).
  - apply legacyEquiv_intro; simpl.
    + rewrite <- (upsertOne_normalize (stationsCollection w) Hf Hu),
              <- (upsertOne_normalize (stationsCollection w') Hf Hu).
      now rewrite (legacyEquiv_stations H).
    + apply (legacyEquiv_rest H).
Qed.

(** Decides [legacyBlind m] for code over the primitives whose store
    accesses go through filters that spell out "false or absent". *)
Ltac blind_tac :=
  repeat first
    [ apply legacyBlind_ret | apply legacyBlind_return | apply legacyBlind_panic
    | apply legacyBlind_IsStationExist
    | apply legacyBlind_FindOne; repeat constructor
    | apply legacyBlind_Find; repeat constructor
    | apply legacyBlind_UpdateOne;
        [repeat constructor | first [apply plain_set_is_deleted | apply plain_set_dls]]
    | apply legacyBlind_UpsertOne;
        [repeat constructor | first [apply plain_set_is_deleted | apply plain_set_dls]]
    | apply legacyBlind_gets; intro; reflexivity
    | apply legacyBlind_modify; intro; reflexivity
    | apply legacyBlind_bind; [| intros ?]
    | apply legacyBlind_forEachErr; intros ?
    | match goal with
      | |- legacyBlind (match ?x with _ => _ end) => destruct x
      end
    | progress autounfold with handlers
    | progress cbv zeta ].

Lemma GetStation_legacyBlind K c n : legacyBlind (GetStation K c n).
Proof. unfold GetStation, GetStation_filter. blind_tac. Qed.

Lemma removeStationDirect_legacyBlind K c reply msg :
  legacyBlind (removeStationDirect K c reply msg).
Proof.
  unfold removeStationDirect, removeStationDirectIntern, removeStationResources,
    removeStationDirectIntern_filter.
  blind_tac.
Qed.

Lemma LaunchDlsForOldStations_legacyBlind K :
  legacyBlind (LaunchDlsForOldStations K).
Proof.
  unfold LaunchDlsForOldStations, LaunchDlsForOldStations_filter,
    LaunchDlsForOldStations_update_filter.
  blind_tac.
Qed.

(** The claim C10 as stated, that every station filter of the handlers
    treats a document without [is_deleted] as live, fails: the upsert filter
    of [CreateStation] selects ["name": "orders", "is_deleted": false] but
    not the same station written without the field. *)
Lemma C10_counterexample :
  ~ (forall f, In f (stationFilters "orders") -> treatsLegacyAsLive f).
Proof.
  intro H.
  assert (Hin : In (CreateStation_filter "orders") (stationFilters "orders"))
    by (simpl; auto).
  specialize (H _ Hin legacyOrders eq_refl).
  vm_compute in H. discriminate H.
Qed.

(** C10, amended. The lookup, tombstone and update filters that spell out
    "[is_deleted] false or absent" ([GetStation], [GetStationsDetails],
    [GetAllStationsDetails], [RemoveStation], [removeStationDirectIntern],
    [removeSchemaFromStation], [UpdateDlsConfig] and both filters of
    [LaunchDlsForOldStations]) treat a station document without the field
    as live; [GetStation], [removeStationDirect] and
    [LaunchDlsForOldStations] cannot tell such a document from one with
    [is_deleted: false]: they have the same outcome, send the same messages
    and leave the same documents.  The upsert filter of [CreateStation] is
    keyed on [is_deleted: false] alone and selects no document without the
    field. *)
Theorem C10_legacy_documents_are_live :
  (forall n ns f, In f (liveFilters n ns) -> treatsLegacyAsLive f) /\
  (forall K c n, legacyBlind (GetStation K c n)) /\
  (forall K c reply msg, legacyBlind (removeStationDirect K c reply msg)) /\
  (forall K, legacyBlind (LaunchDlsForOldStations K)) /\
  (forall n d, has_is_deleted d = false -> matches (CreateStation_filter n) d = false).
Proof.
  split; [| split; [| split; [| split]]].
  - intros n ns f H. apply legacySafe_treats. exact (@liveFilters_safe n ns f H).
  - apply GetStation_legacyBlind.
  - apply removeStationDirect_legacyBlind.
  - apply LaunchDlsForOldStations_legacyBlind.
  - intros n d Hd. simpl. rewrite Hd. apply andb_false_r.
Qed.

(** ** Creating a station twice *)

(** The HTTP variant refuses a second station of the same name. *)
Lemma CreateStation_name_exists
    (K : Constants) (c : GinContext) (body_ : CreateStationSchema)
    (w : World) (sn : StationName) (d : StationDoc) :
  StationNameFromStr K (css_Name body_) = (sn, None) ->
  existsb (Op_eqb OpIsStationExist) (failing w) = false ->
  findOne (liveByName (Ext sn)) (stationsCollection w) = Some d ->
  CreateStation K c body_ w =
    (Returned,
     withTrace (trace w ++
       [E_log ("CreateStation: Station " ++ Ext sn ++ " already exists");
        E_http (SHOWABLE_ERROR_STATUS_CODE K)
               (B_message ("Station " ++ Ext sn ++ " already exists"))])%list w).
Proof.
  intros Hn Hf Hs.
  unfold CreateStation. rewrite Hn.
  unfold IsStationExist, bind, ifErr, fails, gets, ret. cbn [fst snd].
  rewrite Hf, Hs. cbn.
  rewrite <- app_assoc. reflexivity.
Qed.

(** C1 (code at the failing input). When a live station of the requested
    name exists, the SDK variant of [CreateStation] adds no document, but it
    answers with the empty payload, which is the success reply, and not with
    a NameExists error: the error message is built and logged, and the
    [nil] error of the lookup is passed to the reply. *)
Theorem C1_sdk_duplicate_create_replies_success
    (K : Constants) (c : client) (reply : string) (csr : createStationRequest)
    (w : World) (sn : StationName) (d : StationDoc) :
  StationNameFromStr K (csr_StationName csr) = (sn, None) ->
  existsb (Op_eqb OpIsStationExist) (failing w) = false ->
  findOne (liveByName (Ext sn)) (stationsCollection w) = Some d ->
  createStationDirect K c reply (Decoded csr) w =
    (Returned,
     withTrace (trace w ++
       [E_log ("createStationDirect: Station " ++ Ext sn ++ " already exists");
        E_respond reply ""])%list w).
Proof.
  intros Hn Hf Hs.
  unfold createStationDirect, createStationDirectIntern. rewrite Hn.
  unfold IsStationExist, bind, ifErr, fails, gets, ret. cbn [fst snd].
  rewrite Hf, Hs. cbn.
  rewrite <- app_assoc. reflexivity.
Qed.

(** The world after a first, successful [CreateStation] for "Orders". *)
Lemma afterFirstCreate_eq :
  let w1 := exec (createStationDirect sampleConstants sampleClient "reply1"
                    (Decoded (sampleCreate "Orders" 0))) emptyWorld in
  repliesOn "reply1" (trace w1) = [""] /\
  List.length (liveStations "orders" w1) = 1.
Proof. vm_compute. split; reflexivity. Qed.

Lemma C1_witness :
  let w1 := exec (createStationDirect sampleConstants sampleClient "reply1"
                    (Decoded (sampleCreate "Orders" 0))) emptyWorld in
  createStationDirect sampleConstants sampleClient "reply2"
      (Decoded (sampleCreate "Orders" 0)) w1 =
    (Returned,
     withTrace (trace w1 ++
       [E_log "createStationDirect: Station orders already exists";
        E_respond "reply2" ""])%list w1).
Proof.
  intro w1.
  apply (@C1_sdk_duplicate_create_replies_success sampleConstants sampleClient
           "reply2" (sampleCreate "Orders" 0) w1
           {| internal := "orders"; external := "orders" |}
           (hd legacyOrders (stationsCollection w1)));
    reflexivity.
Defined.

(** ** Running a handler step by step *)

Lemma bind_next {A B} (m : M A) (k : A -> M B) (w w' : World) (a : A) :
  m w = (Next a, w') -> bind m k w = k a w'.
Proof. intro H. unfold bind. now rewrite H. Qed.

Lemma bind_returned {A B} (m : M A) (k : A -> M B) (w w' : World) :
  m w = (Returned, w') -> bind m k w = (Returned, w').
Proof. intro H. unfold bind. now rewrite H. Qed.

Lemma bind_panicked {A B} (m : M A) (k : A -> M B) (w w' : World) :
  m w = (Panicked, w') -> bind m k w = (Panicked, w').
Proof. intro H. unfold bind. now rewrite H. Qed.

Lemma fails_none (op : Op) (w : World) :
  failing w = [] -> fails op w = (Next false, w).
Proof. intro H. unfold fails, gets. now rewrite H. Qed.

Lemma IsStationExist_eq (sn : StationName) (w : World) :
  failing w = [] ->
  IsStationExist sn w =
    (Next match findOne (liveByName (Ext sn)) (stationsCollection w) with
          | Some d => (true, decodeStation d, None)
          | None => (false, zeroStation, None)
          end, w).
Proof.
  intro H. unfold IsStationExist.
  erewrite bind_next; [| apply fails_none; exact H].
  unfold bind, gets.
  destruct (findOne (liveByName (Ext sn)) (stationsCollection w)); reflexivity.
Qed.

Lemma IsSchemaExist_eq (n : string) (w : World) :
  failing w = [] ->
  IsSchemaExist n w =
    (Next match find (fun s => schema_Name s =? n) (schemasCollection w) with
          | Some s => (true, s, None)
          | None => (false, zeroSchema, None)
          end, w).
Proof.
  intro H. unfold IsSchemaExist.
  erewrite bind_next; [| apply fails_none; exact H].
  unfold bind, gets.
  destruct (find _ (schemasCollection w)); reflexivity.
Qed.

Lemma getActiveVersionBySchemaId_eq (id : nat) (w : World) :
  failing w = [] ->
  getActiveVersionBySchemaId id w =
    (Next match find (fun v => (sv_SchemaId v =? id)%nat && sv_Active v)
                     (schemaVersionsCollection w) with
          | Some v => (v, None)
          | None => (zeroSchemaVersion, Some "mongo: no documents in result")
          end, w).
Proof.
  intro H. unfold getActiveVersionBySchemaId.
  erewrite bind_next; [| apply fails_none; exact H].
  unfold bind, gets.
  destruct (find _ (schemaVersionsCollection w)); reflexivity.
Qed.

Lemma generateSchemaUpdateInit_eq (s : SchemaRec) (v : SchemaVersion) (w : World) :
  failing w = [] ->
  find (fun v => (sv_SchemaId v =? schema_ID s)%nat && sv_Active v)
       (schemaVersionsCollection w) = Some v ->
  generateSchemaUpdateInit s w =
    (Next ({| init_SchemaName := schema_Name s;
              init_VersionNumber := sv_VersionNumber v;
              init_Content := sv_SchemaContent v;
              init_SchemaType := schema_Type s |}, None), w).
Proof.
  intros H Hv. unfold generateSchemaUpdateInit.
  erewrite bind_next; [| apply fails_none; exact H].
  cbv beta iota.
  erewrite bind_next; [| apply getActiveVersionBySchemaId_eq; exact H].
  now rewrite Hv.
Qed.

Lemma stations_UpdateOne_eq (f : Filter) (u : Update) (w : World) :
  failing w = [] ->
  stations_UpdateOne f u w =
    (Next None, withStations (updateOne f u (stationsCollection w)) w).
Proof.
  intro H. unfold stations_UpdateOne.
  erewrite bind_next; [| apply fails_none; exact H]. reflexivity.
Qed.

Lemma CreateAuditLogs_eq (logs : list AuditLog) (w : World) :
  failing w = [] ->
  CreateAuditLogs logs w =
    (Next None, withAuditLogs (auditLogsCollection w ++ logs)%list w).
Proof.
  intro H. unfold CreateAuditLogs.
  erewrite bind_next; [| apply fails_none; exact H]. reflexivity.
Qed.

Lemma getUserDetailsFromMiddleware_eq (c : GinContext) (w : World) :
  failing w = [] ->
  getUserDetailsFromMiddleware c w =
    (Next match ctx_user c with
          | Some u => (u, None)
          | None => (zeroUser, Some "Username is empty")
          end, w).
Proof.
  intro H. unfold getUserDetailsFromMiddleware.
  erewrite bind_next; [| apply fails_none; exact H].
  destruct (ctx_user c); reflexivity.
Qed.

(** One step of a handler whose first computation continues. *)
Ltac prim_eq H :=
  first
    [ apply IsStationExist_eq; exact H
    | apply IsSchemaExist_eq; exact H
    | apply getActiveVersionBySchemaId_eq; exact H
    | apply stations_UpdateOne_eq; exact H
    | apply CreateAuditLogs_eq; exact H
    | apply getUserDetailsFromMiddleware_eq; exact H
    | apply fails_none; exact H
    | eapply generateSchemaUpdateInit_eq; [exact H | eassumption]
    | reflexivity ].

Ltac step H :=
  erewrite bind_next; [| prim_eq H]; cbv beta iota zeta.

(** ** Replies of the schema attachment handler *)

(** C2 (code at the failing input). An attachment request for a schema that
    does not exist, on a station that does, makes [useSchemaDirect] panic
    while it builds the error message ([err.Error()] on the [nil] error of
    the lookup): nothing is sent, so the request gets no reply. *)
Theorem C2_attach_missing_schema_gets_no_reply
    (K : Constants) (c : client) (reply : string) (asr : attachSchemaRequest)
    (w : World) (sn : StationName) (d : StationDoc) :
  StationNameFromStr K (asr_StationName asr) = (sn, None) ->
  failing w = [] ->
  findOne (liveByName (Ext sn)) (stationsCollection w) = Some d ->
  find (fun s => schema_Name s =? ToLower (asr_Name asr)) (schemasCollection w) = None ->
  useSchemaDirect K c reply (Decoded asr) w = (Panicked, w) /\
  repliesOn reply (trace (exec (useSchemaDirect K c reply (Decoded asr)) w)) =
    repliesOn reply (trace w).
Proof.
  intros Hn Hf Hs Hsc.
  assert (E : useSchemaDirect K c reply (Decoded asr) w = (Panicked, w)).
  { unfold useSchemaDirect. step Hf. rewrite Hn.
    unfold ifErr at 1. step Hf.
    step Hf. rewrite Hs.
    unfold ifErr at 1. step Hf.
    unfold when at 1. cbn [negb]. step Hf.
    step Hf. rewrite Hsc.
    unfold ifErr at 1. step Hf.
    reflexivity. }
  split; [exact E |]. unfold exec. now rewrite E.
Qed.

Lemma C2_witness :
  useSchemaDirect sampleConstants sampleClient "reply"
      (Decoded {| asr_Name := "NoSuchSchema"; asr_StationName := "Orders" |})
      schemaWorld = (Panicked, schemaWorld) /\
  repliesOn "reply"
    (trace (exec (useSchemaDirect sampleConstants sampleClient "reply"
                    (Decoded {| asr_Name := "NoSuchSchema";
                                asr_StationName := "Orders" |})) schemaWorld)) =
    repliesOn "reply" (trace schemaWorld).
Proof.
  apply (@C2_attach_missing_schema_gets_no_reply sampleConstants sampleClient
           "reply" {| asr_Name := "NoSuchSchema"; asr_StationName := "Orders" |}
           schemaWorld {| internal := "orders"; external := "orders" |}
           {| body := ordersStation; has_is_deleted := true |});
    reflexivity.
Defined.

(** A second path without a reply: when the schema update cannot be
    generated, [useSchemaDirect] logs the error and returns; the binding has
    been persisted by then. *)
Lemma useSchemaDirect_update_failure_gets_no_reply :
  let w := withFailing [OpGenerateSchemaUpdateInit] schemaWorld in
  let r := useSchemaDirect sampleConstants sampleClient "reply"
             (Decoded {| asr_Name := "OrderV1"; asr_StationName := "Orders" |}) w in
  fst r = Returned /\
  repliesOn "reply" (trace (snd r)) = [] /\
  map (fun d => Schema (body d)) (stationsCollection (snd r)) =
    [ {| SchemaName := "orderv1"; VersionNumber := 3 |} ].
Proof. vm_compute. repeat split; reflexivity. Qed.

(** On the regular path the request is answered once, with the empty
    payload. *)
Lemma useSchemaDirect_success_replies_once :
  let r := useSchemaDirect sampleConstants sampleClient "reply"
             (Decoded {| asr_Name := "OrderV1"; asr_StationName := "Orders" |})
             schemaWorld in
  fst r = Next tt /\ repliesOn "reply" (trace (snd r)) = [""].
Proof. vm_compute. split; reflexivity. Qed.

(** ** Attaching a schema *)

Lemma repliesOn_app (r : string) (t t' : list Event) :
  repliesOn r (t ++ t') = (repliesOn r t ++ repliesOn r t')%list.
Proof.
  induction t as [| e t IH]; simpl; [reflexivity |].
  destruct e; auto. destruct (replySubject =? r); simpl; now rewrite IH.
Qed.

Lemma updateOne_find (f : Filter) (u : Update) (l : list StationDoc) (d : StationDoc) :
  find (matches f) l = Some d ->
  matches f (applyUpdate u d) = true ->
  find (matches f) (updateOne f u l) = Some (applyUpdate u d).
Proof.
  induction l as [| x l IH]; simpl; [discriminate |].
  destruct (matches f x) eqn:E; intros H Hm.
  - assert (x = d) by congruence. subst x. simpl. now rewrite Hm.
  - simpl. rewrite E. now apply IH.
Qed.

Lemma strict_is_live (n : string) (l : list StationDoc) (d : StationDoc) :
  findOne (useSchemaDirect_filter n) l = Some d ->
  exists d', findOne (liveByName n) l = Some d'.
Proof.
  unfold findOne. induction l as [| x l IH]; simpl; [discriminate |].
  destruct (Name (body x) =? n); simpl.
  - destruct (has_is_deleted x), (IsDeleted (body x)); simpl; eauto.
  - exact IH.
Qed.

Ltac run_useSchemaDirect Hf Hn Hd Hs Hv Ea :=
  unfold useSchemaDirect; step Hf; rewrite Hn;
  unfold ifErr at 1; step Hf;
  step Hf; rewrite Hd;
  unfold ifErr at 1; step Hf;
  unfold when at 1; cbn [negb]; step Hf;
  step Hf; rewrite Hs;
  unfold ifErr at 1; step Hf;
  unfold when at 1; cbn [negb]; step Hf;
  step Hf; rewrite Hv;
  unfold ifErr at 1; step Hf;
  step Hf;
  unfold ifErr at 1; step Hf;
  step Hf; step Hf;
  unfold ifErr at 1; step Hf;
  step Hf;
  cbn [analyticsEnabled withAuditLogs withTrace withStations];
  rewrite Ea; unfold when at 1; step Hf;
  (erewrite bind_next;
     [| eapply generateSchemaUpdateInit_eq; [exact Hf | exact Hv]]);
  cbv beta iota zeta; unfold ifErr at 1; step Hf; step Hf;
  reflexivity.

(** The regular path of [useSchemaDirect], for a station the lookup finds:
    the final world. *)
Lemma useSchemaDirect_run
    (K : Constants) (c : client) (reply : string) (asr : attachSchemaRequest)
    (w : World) (sn : StationName) (d : StationDoc)
    (sch : SchemaRec) (v : SchemaVersion) :
  StationNameFromStr K (asr_StationName asr) = (sn, None) ->
  failing w = [] ->
  findOne (liveByName (Ext sn)) (stationsCollection w) = Some d ->
  find (fun s => schema_Name s =? ToLower (asr_Name asr)) (schemasCollection w) = Some sch ->
  find (fun x => (sv_SchemaId x =? schema_ID sch)%nat && sv_Active x)
       (schemaVersionsCollection w) = Some v ->
  exists w' t,
    useSchemaDirect K c reply (Decoded asr) w = (Next tt, w') /\
    stationsCollection w' =
      updateOne (useSchemaDirect_filter (Ext sn))
        (U_set_schema {| SchemaName := ToLower (asr_Name asr);
                         VersionNumber := sv_VersionNumber v |})
        (stationsCollection w) /\
    trace w' =
      (trace w ++ t ++
       [E_schemaUpdate ("$memphis_schema_updates_" ++ Intern sn)
          {| UpdateType := SchemaUpdateTypeInit;
             Init := {| init_SchemaName := schema_Name sch;
                        init_VersionNumber := sv_VersionNumber v;
                        init_Content := sv_SchemaContent v;
                        init_SchemaType := schema_Type sch |} |};
        E_respond reply ""])%list /\
    repliesOn reply t = [].
Proof.
  intros Hn Hf Hd' Hs Hv.
  destruct (analyticsEnabled w) eqn:Ea;
    [ refine (ex_intro _ _ (ex_intro _ [_; _] (conj _ _)))
    | refine (ex_intro _ _ (ex_intro _ [_] (conj _ _))) ];
    [> run_useSchemaDirect Hf Hn Hd' Hs Hv Ea
     | cbn; repeat split; try rewrite <- !app_assoc; reflexivity
     | run_useSchemaDirect Hf Hn Hd' Hs Hv Ea
     | cbn; repeat split; try rewrite <- !app_assoc; reflexivity ].
Qed.

Lemma useSchemaDirect_success
    (K : Constants) (c : client) (reply : string) (asr : attachSchemaRequest)
    (w : World) (sn : StationName) (d : StationDoc)
    (sch : SchemaRec) (v : SchemaVersion) :
  StationNameFromStr K (asr_StationName asr) = (sn, None) ->
  failing w = [] ->
  findOne (useSchemaDirect_filter (Ext sn)) (stationsCollection w) = Some d ->
  find (fun s => schema_Name s =? ToLower (asr_Name asr)) (schemasCollection w) = Some sch ->
  find (fun x => (sv_SchemaId x =? schema_ID sch)%nat && sv_Active x)
       (schemaVersionsCollection w) = Some v ->
  exists w' t,
    useSchemaDirect K c reply (Decoded asr) w = (Next tt, w') /\
    stationsCollection w' =
      updateOne (useSchemaDirect_filter (Ext sn))
        (U_set_schema {| SchemaName := ToLower (asr_Name asr);
                         VersionNumber := sv_VersionNumber v |})
        (stationsCollection w) /\
    trace w' =
      (trace w ++ t ++
       [E_schemaUpdate ("$memphis_schema_updates_" ++ Intern sn)
          {| UpdateType := SchemaUpdateTypeInit;
             Init := {| init_SchemaName := schema_Name sch;
                        init_VersionNumber := sv_VersionNumber v;
                        init_Content := sv_SchemaContent v;
                        init_SchemaType := schema_Type sch |} |};
        E_respond reply ""])%list /\
    repliesOn reply t = [].
Proof.
  intros Hn Hf Hd Hs Hv.
  destruct (strict_is_live _ _ Hd) as [d' Hd'].
  exact (@useSchemaDirect_run K c reply asr w sn d' sch v Hn Hf Hd' Hs Hv).
Qed.

Lemma bind_assoc {A B C} (m : M A) (f : A -> M B) (g : B -> M C) (w : World) :
  bind (bind m f) g w = bind m (fun x => bind (f x) g) w.
Proof. unfold bind. destruct (m w) as [[a | |] w']; reflexivity. Qed.

(** Runs a handler along its regular path: [Hf] states that no call fails,
    [rew] rewrites with what is known about the lookups. *)
Ltac run Hf rew :=
  repeat first
    [ step Hf
    | rewrite bind_assoc
    | progress rew
    | progress cbv beta iota zeta
    | progress cbn [ifErr when negb forEach analyticsEnabled failing
                    stationsCollection schemasCollection
                    schemaVersionsCollection streams consumers
                    withAuditLogs withTrace withStations withStreams
                    withConsumers withNextID withMembers] ].

Lemma UseSchema_run
    (K : Constants) (c : GinContext) (schemaName stationName : string)
    (w : World) (sn : StationName) (d : StationDoc)
    (sch : SchemaRec) (v : SchemaVersion) :
  StationNameFromStr K stationName = (sn, None) ->
  failing w = [] ->
  findOne (liveByName (Ext sn)) (stationsCollection w) = Some d ->
  find (fun s => schema_Name s =? ToLower schemaName) (schemasCollection w) = Some sch ->
  find (fun x => (sv_SchemaId x =? schema_ID sch)%nat && sv_Active x)
       (schemaVersionsCollection w) = Some v ->
  exists w' t t',
    UseSchema K c schemaName [stationName] w = (Next tt, w') /\
    stationsCollection w' =
      updateOne (UseSchema_filter (Ext sn))
        (U_set_schema {| SchemaName := ToLower schemaName;
                         VersionNumber := sv_VersionNumber v |})
        (stationsCollection w) /\
    trace w' =
      (trace w ++ t ++
       [E_schemaUpdate ("$memphis_schema_updates_" ++ Intern sn)
          {| UpdateType := SchemaUpdateTypeInit;
             Init := {| init_SchemaName := schema_Name sch;
                        init_VersionNumber := sv_VersionNumber v;
                        init_Content := sv_SchemaContent v;
                        init_SchemaType := schema_Type sch |} |}] ++ t' ++
       [E_http 200 (B_schema (ToLower schemaName) (sv_VersionNumber v) false)])%list.
Proof.
  intros Hn Hf Hd' Hs Hv.
  destruct (analyticsEnabled w) eqn:Ea, (ctx_user c) as [u |] eqn:Eu.
  all: eexists; unfold UseSchema;
    run Hf ltac:(first [rewrite Hn | rewrite Hd' | rewrite Hs | rewrite Hv
                       | rewrite Ea | rewrite Eu]).
  all: [> refine (ex_intro _ [_] (ex_intro _ [_] _))
        | refine (ex_intro _ [_; _; _] (ex_intro _ [_] _))
        | refine (ex_intro _ [_] (ex_intro _ [] _))
        | refine (ex_intro _ [_; _; _] (ex_intro _ [] _)) ].
  all: split; [reflexivity | split; [reflexivity |]].
  all: cbn [trace withTrace withAuditLogs withStations];
    rewrite <- !app_assoc; reflexivity.
Qed.

Lemma UseSchema_success
    (K : Constants) (c : GinContext) (schemaName stationName : string)
    (w : World) (sn : StationName) (d : StationDoc)
    (sch : SchemaRec) (v : SchemaVersion) :
  StationNameFromStr K stationName = (sn, None) ->
  failing w = [] ->
  findOne (UseSchema_filter (Ext sn)) (stationsCollection w) = Some d ->
  find (fun s => schema_Name s =? ToLower schemaName) (schemasCollection w) = Some sch ->
  find (fun x => (sv_SchemaId x =? schema_ID sch)%nat && sv_Active x)
       (schemaVersionsCollection w) = Some v ->
  exists w' t t',
    UseSchema K c schemaName [stationName] w = (Next tt, w') /\
    stationsCollection w' =
      updateOne (UseSchema_filter (Ext sn))
        (U_set_schema {| SchemaName := ToLower schemaName;
                         VersionNumber := sv_VersionNumber v |})
        (stationsCollection w) /\
    trace w' =
      (trace w ++ t ++
       [E_schemaUpdate ("$memphis_schema_updates_" ++ Intern sn)
          {| UpdateType := SchemaUpdateTypeInit;
             Init := {| init_SchemaName := schema_Name sch;
                        init_VersionNumber := sv_VersionNumber v;
                        init_Content := sv_SchemaContent v;
                        init_SchemaType := schema_Type sch |} |}] ++ t' ++
       [E_http 200 (B_schema (ToLower schemaName) (sv_VersionNumber v) false)])%list.
Proof.
  intros Hn Hf Hd Hs Hv.
  destruct (strict_is_live _ _ Hd) as [d' Hd'].
  exact (@UseSchema_run K c schemaName stationName w sn d' sch v Hn Hf Hd' Hs Hv).
Qed.

Lemma live_after_strict_update (n : string) (sd : SchemaDetails)
    (l : list StationDoc) (d : StationDoc) :
  find (matches (useSchemaDirect_filter n)) l = Some d ->
  find (matches (liveByName n)) l = Some d ->
  find (matches (liveByName n))
       (updateOne (useSchemaDirect_filter n) (U_set_schema sd) l)
    = Some (applyUpdate (U_set_schema sd) d).
Proof.
  intros Hs Hl. induction l as [| x l IH]; [discriminate |].
  cbn [find] in Hs, Hl. cbn [updateOne].
  destruct (matches (liveByName n) x) eqn:El.
  - assert (x = d) by congruence. subst x.
    destruct (matches (useSchemaDirect_filter n) d) eqn:Es.
    + cbn [find].
      assert (Hm : matches (liveByName n) (applyUpdate (U_set_schema sd) d) = true)
        by (destruct d as [b h]; exact El).
      now rewrite Hm.
    + exfalso. apply find_some in Hs. destruct Hs as [_ Hm]. congruence.
  - destruct (matches (useSchemaDirect_filter n) x) eqn:Es.
    + exfalso. cbn in Es, El. apply andb_prop in Es. destruct Es as [E1 E2].
      rewrite E1, E2 in El. discriminate.
    + cbn [find]. rewrite El. now apply IH.
Qed.

Lemma binding_after_update (n : string) (sd : SchemaDetails)
    (l : list StationDoc) (d : StationDoc) :
  findOne (useSchemaDirect_filter n) l = Some d ->
  findOne (liveByName n) l = Some d ->
  option_map (fun d => Schema (body d))
    (findOne (liveByName n)
       (updateOne (useSchemaDirect_filter n) (U_set_schema sd) l)) = Some sd.
Proof.
  intros Hs Hl. unfold findOne in *.
  rewrite (@live_after_strict_update n sd l d Hs Hl). reflexivity.
Qed.

Lemma updateOne_none (f : Filter) (u : Update) (l : list StationDoc) :
  find (matches f) l = None -> updateOne f u l = l.
Proof.
  induction l as [| x l IH]; simpl; [reflexivity |].
  destruct (matches f x); [discriminate |]. intro H. now rewrite IH.
Qed.

(** Where the slip does not reach: when the document the lookups find is
    also the one the update filter selects (it has [is_deleted: false]
    written out), attaching schema [s] to station [n] leaves the station
    bound to (lowercase [s], active version of [s]) and publishes the
    [Init] update with the content of that version on the update subject
    of the station; the SDK request is answered once, with the empty
    payload. *)
Lemma attach_binds_station_with_is_deleted
    (K : Constants) (c : client) (gc : GinContext) (reply s n : string)
    (w : World) (sn : StationName) (d : StationDoc)
    (sch : SchemaRec) (v : SchemaVersion) :
  StationNameFromStr K n = (sn, None) ->
  failing w = [] ->
  findOne (useSchemaDirect_filter (Ext sn)) (stationsCollection w) = Some d ->
  findOne (liveByName (Ext sn)) (stationsCollection w) = Some d ->
  find (fun x => schema_Name x =? ToLower s) (schemasCollection w) = Some sch ->
  find (fun x => (sv_SchemaId x =? schema_ID sch)%nat && sv_Active x)
       (schemaVersionsCollection w) = Some v ->
  let binding :=
    {| SchemaName := ToLower s; VersionNumber := sv_VersionNumber v |} in
  let update :=
    E_schemaUpdate ("$memphis_schema_updates_" ++ Intern sn)
      {| UpdateType := SchemaUpdateTypeInit;
         Init := {| init_SchemaName := schema_Name sch;
                    init_VersionNumber := sv_VersionNumber v;
                    init_Content := sv_SchemaContent v;
                    init_SchemaType := schema_Type sch |} |} in
  (let w' := exec (useSchemaDirect K c reply
                     (Decoded {| asr_Name := s; asr_StationName := n |})) w in
   bindingOf (Ext sn) w' = Some binding /\
   (exists t, added (trace w) (trace w') t /\ In update t /\
              repliesOn reply t = [""])) /\
  (let w' := exec (UseSchema K gc s [n]) w in
   bindingOf (Ext sn) w' = Some binding /\
   (exists t, added (trace w) (trace w') t /\ In update t)).
Proof.
  intros Hn Hf Hd Hl Hs Hv binding update. split.
  - destruct (@useSchemaDirect_success K c reply
                {| asr_Name := s; asr_StationName := n |} w sn d sch v
                Hn Hf Hd Hs Hv) as (w' & t & E & Hst & Ht & Hr).
    unfold exec. rewrite E. cbn [snd]. split.
    + unfold bindingOf. rewrite Hst. now apply binding_after_update with (d := d).
    + eexists. split; [exact Ht |]. split.
      * apply in_or_app. right. simpl. auto.
      * rewrite repliesOn_app, Hr. simpl. now rewrite String.eqb_refl.
  - destruct (@UseSchema_success K gc s n w sn d sch v Hn Hf Hd Hs Hv)
      as (w' & t & t' & E & Hst & Ht).
    unfold exec. rewrite E. cbn [snd]. split.
    + unfold bindingOf. rewrite Hst. now apply binding_after_update with (d := d).
    + eexists. split; [exact Ht |].
      apply in_or_app. right. simpl. auto.
Qed.

Lemma attach_binds_orders :
  let binding := {| SchemaName := "orderv1"; VersionNumber := 3 |} in
  let update :=
    E_schemaUpdate "$memphis_schema_updates_orders"
      {| UpdateType := SchemaUpdateTypeInit;
         Init := {| init_SchemaName := "orderv1"; init_VersionNumber := 3;
                    init_Content := "{order}"; init_SchemaType := "json" |} |} in
  (let w' := exec (useSchemaDirect sampleConstants sampleClient "reply"
                     (Decoded {| asr_Name := "OrderV1";
                                 asr_StationName := "Orders" |})) schemaWorld in
   bindingOf "orders" w' = Some binding /\
   (exists t, added (trace schemaWorld) (trace w') t /\ In update t /\
              repliesOn "reply" t = [""])) /\
  (let w' := exec (UseSchema sampleConstants sampleContext "OrderV1" ["Orders"])
                  schemaWorld in
   bindingOf "orders" w' = Some binding /\
   (exists t, added (trace schemaWorld) (trace w') t /\ In update t)).
Proof.
  apply (@attach_binds_station_with_is_deleted sampleConstants sampleClient
           sampleContext "reply" "OrderV1" "Orders" schemaWorld
           {| internal := "orders"; external := "orders" |}
           {| body := ordersStation; has_is_deleted := true |}
           {| schema_ID := 11; schema_Name := "orderv1"; schema_Type := "json" |}
           {| sv_VersionNumber := 3; sv_Active := true;
              sv_SchemaContent := "{order}"; sv_SchemaId := 11 |});
    reflexivity.
Qed.

(** C4 (code at the failing input). A live station whose document was
    stored without [is_deleted] passes the existence check of both
    attachment handlers, but their update filter asks for
    [is_deleted: false] and selects no document.  For every such station,
    an existing schema with an active version and no failing call, the SDK
    handler answers with the empty (success) payload, the HTTP handler with
    200, both publish the [Init] update on the update subject of the
    station, and the stations collection is unchanged: the station is not
    bound to (lowercase [s], active version of [s]). *)
Theorem C4_attach_skips_station_without_is_deleted
    (K : Constants) (c : client) (gc : GinContext) (reply s n : string)
    (w : World) (sn : StationName) (d : StationDoc)
    (sch : SchemaRec) (v : SchemaVersion) :
  StationNameFromStr K n = (sn, None) ->
  failing w = [] ->
  findOne (liveByName (Ext sn)) (stationsCollection w) = Some d ->
  findOne (useSchemaDirect_filter (Ext sn)) (stationsCollection w) = None ->
  find (fun x => schema_Name x =? ToLower s) (schemasCollection w) = Some sch ->
  find (fun x => (sv_SchemaId x =? schema_ID sch)%nat && sv_Active x)
       (schemaVersionsCollection w) = Some v ->
  let binding :=
    {| SchemaName := ToLower s; VersionNumber := sv_VersionNumber v |} in
  let update :=
    E_schemaUpdate ("$memphis_schema_updates_" ++ Intern sn)
      {| UpdateType := SchemaUpdateTypeInit;
         Init := {| init_SchemaName := schema_Name sch;
                    init_VersionNumber := sv_VersionNumber v;
                    init_Content := sv_SchemaContent v;
                    init_SchemaType := schema_Type sch |} |} in
  Schema (body d) <> binding ->
  (let m := useSchemaDirect K c reply
              (Decoded {| asr_Name := s; asr_StationName := n |}) in
   outcome m w = Next tt /\
   stationsCollection (exec m w) = stationsCollection w /\
   bindingOf (Ext sn) (exec m w) <> Some binding /\
   (exists t, added (trace w) (trace (exec m w)) t /\ In update t /\
              repliesOn reply t = [""])) /\
  (let m := UseSchema K gc s [n] in
   outcome m w = Next tt /\
   stationsCollection (exec m w) = stationsCollection w /\
   bindingOf (Ext sn) (exec m w) <> Some binding /\
   (exists t, added (trace w) (trace (exec m w)) t /\ In update t /\
              In (E_http 200 (B_schema (ToLower s) (sv_VersionNumber v) false)) t)).
Proof.
  intros Hn Hf Hl Hnone Hs Hv binding update Hb.
  assert (Hbind : forall w', stationsCollection w' = stationsCollection w ->
                    bindingOf (Ext sn) w' <> Some binding).
  { intros w' E. unfold bindingOf. rewrite E, Hl. cbn. congruence. }
  split.
  - destruct (@useSchemaDirect_run K c reply
                {| asr_Name := s; asr_StationName := n |} w sn d sch v
                Hn Hf Hl Hs Hv) as (w' & t & E & Hst & Ht & Hr).
    cbn [asr_Name] in Hst.
    rewrite (updateOne_none _ _ _ Hnone) in Hst.
    cbv zeta. unfold outcome, exec. rewrite E. cbn [fst snd].
    split; [reflexivity |]. split; [exact Hst |]. split; [now apply Hbind |].
    eexists. split; [exact Ht |]. split.
    + apply in_or_app. right. simpl. auto.
    + rewrite repliesOn_app, Hr. simpl. now rewrite String.eqb_refl.
  - destruct (@UseSchema_run K gc s n w sn d sch v Hn Hf Hl Hs Hv)
      as (w' & t & t' & E & Hst & Ht).
    change (UseSchema_filter (Ext sn)) with (useSchemaDirect_filter (Ext sn)) in Hst.
    rewrite (updateOne_none _ _ _ Hnone) in Hst.
    cbv zeta. unfold outcome, exec. rewrite E. cbn [fst snd].
    split; [reflexivity |]. split; [exact Hst |]. split; [now apply Hbind |].
    eexists. split; [exact Ht |]. split.
    + apply in_or_app. right. simpl. auto.
    + apply in_or_app. right. apply in_or_app. right.
      apply in_or_app. right. simpl. auto.
Qed.

Lemma C4_witness :
  let w := withStations [legacyOrders] schemaWorld in
  let binding := {| SchemaName := "orderv1"; VersionNumber := 3 |} in
  let update :=
    E_schemaUpdate "$memphis_schema_updates_orders"
      {| UpdateType := SchemaUpdateTypeInit;
         Init := {| init_SchemaName := "orderv1"; init_VersionNumber := 3;
                    init_Content := "{order}"; init_SchemaType := "json" |} |} in
  (let m := useSchemaDirect sampleConstants sampleClient "reply"
              (Decoded {| asr_Name := "OrderV1"; asr_StationName := "Orders" |}) in
   outcome m w = Next tt /\
   stationsCollection (exec m w) = stationsCollection w /\
   bindingOf "orders" (exec m w) <> Some binding /\
   (exists t, added (trace w) (trace (exec m w)) t /\ In update t /\
              repliesOn "reply" t = [""])) /\
  (let m := UseSchema sampleConstants sampleContext "OrderV1" ["Orders"] in
   outcome m w = Next tt /\
   stationsCollection (exec m w) = stationsCollection w /\
   bindingOf "orders" (exec m w) <> Some binding /\
   (exists t, added (trace w) (trace (exec m w)) t /\ In update t /\
              In (E_http 200 (B_schema "orderv1" 3 false)) t)).
Proof.
  apply (@C4_attach_skips_station_without_is_deleted sampleConstants sampleClient
           sampleContext "reply" "OrderV1" "Orders"
           (withStations [legacyOrders] schemaWorld)
           {| internal := "orders"; external := "orders" |}
           legacyOrders
           {| schema_ID := 11; schema_Name := "orderv1"; schema_Type := "json" |}
           {| sv_VersionNumber := 3; sv_Active := true;
              sv_SchemaContent := "{order}"; sv_SchemaId := 11 |});
    try reflexivity.
  discriminate.
Defined.

(** ** Dead-letter fetches *)

Lemma emitsOnly_ret {A} ok (a : A) : emitsOnly ok (ret a).
Proof. intro w. exists []. split; [symmetry; apply app_nil_r | constructor]. Qed.

Lemma emitsOnly_return {A} ok : emitsOnly ok (@return_ A).
Proof. intro w. exists []. split; [symmetry; apply app_nil_r | constructor]. Qed.

Lemma emitsOnly_panic {A} ok : emitsOnly ok (@panic A).
Proof. intro w. exists []. split; [symmetry; apply app_nil_r | constructor]. Qed.

Lemma emitsOnly_gets {A} ok (g : World -> A) : emitsOnly ok (gets g).
Proof. intro w. exists []. split; [symmetry; apply app_nil_r | constructor]. Qed.

Lemma emitsOnly_modify ok (g : World -> World) :
  (forall w, trace (g w) = trace w) -> emitsOnly ok (modify g).
Proof.
  intros H w. exists []. split; [| constructor].
  unfold added. simpl. rewrite H. symmetry. apply app_nil_r.
Qed.

Lemma emitsOnly_emit (ok : Event -> Prop) (e : Event) :
  ok e -> emitsOnly ok (emit e).
Proof. intros H w. exists [e]. split; [reflexivity | auto]. Qed.

Lemma emitsOnly_bind {A B} ok (m : M A) (k : A -> M B) :
  emitsOnly ok m -> (forall a, emitsOnly ok (k a)) -> emitsOnly ok (bind m k).
Proof.
  intros Hm Hk w. unfold bind. destruct (Hm w) as (t & Ht & Hok).
  destruct (m w) as [[a | |] w1]; simpl in *; eauto.
  destruct (Hk a w1) as (t' & Ht' & Hok').
  exists (t ++ t')%list. split.
  - unfold added in *. rewrite Ht', Ht. now rewrite app_assoc.
  - apply Forall_app. auto.
Qed.

Lemma emitsOnly_forEach {A} ok (l : list A) (b : A -> M unit) :
  (forall a, In a l -> emitsOnly ok (b a)) -> emitsOnly ok (forEach l b).
Proof.
  induction l as [| x l IH]; intros H; simpl.
  - apply emitsOnly_ret.
  - apply emitsOnly_bind; [apply H; now left | intros _].
    apply IH. intros a Ha. apply H. now right.
Qed.

Lemma emitsOnly_fetchLoop (ok : Event -> Prop) :
  (forall n, ok (E_ack n)) -> (forall m, ok (E_collected m)) ->
  forall amount arrivals msgs, emitsOnly ok (fetchLoop amount arrivals msgs).
Proof.
  intros Ha Hc. induction amount as [| n IH]; intros arrivals msgs; simpl.
  - apply emitsOnly_ret.
  - destruct arrivals as [| m rest]; [apply emitsOnly_ret |].
    apply emitsOnly_bind; [apply emitsOnly_emit, Ha | intros _].
    apply emitsOnly_bind; [apply emitsOnly_emit, Hc | intros _].
    apply IH.
Qed.

Lemma emitsOnly_weaken {A} (ok ok' : Event -> Prop) (m : M A) :
  (forall e, ok e -> ok' e) -> emitsOnly ok m -> emitsOnly ok' m.
Proof.
  intros H Hm w. destruct (Hm w) as (t & Ht & Hok).
  exists t. split; [exact Ht |]. eapply Forall_impl; eauto.
Qed.

(** Decides [emitsOnly ok m]; [oktac] shows that an emitted event is
    allowed. *)
Ltac emits_tac oktac :=
  repeat first
    [ apply emitsOnly_ret | apply emitsOnly_return | apply emitsOnly_panic
    | apply emitsOnly_gets
    | apply emitsOnly_modify; intro; reflexivity
    | apply emitsOnly_emit; solve [oktac]
    | apply emitsOnly_fetchLoop; intros; solve [oktac]
    | apply emitsOnly_bind; [| intros ?]
    | apply emitsOnly_forEach; intros ? ?
    | match goal with
      | |- emitsOnly _ (match ?x with _ => _ end) => destruct x
      end
    | progress autounfold with handlers
    | progress cbv zeta ].

Lemma bind_ret_l {A B} (a : A) (k : A -> M B) : bind (ret a) k = k a.
Proof. reflexivity. Qed.

Lemma bind_panic_l {A B} (k : A -> M B) : bind panic k = panic.
Proof. reflexivity. Qed.

(** Allowed events of the DLS handlers, for the [emits_tac] tactic. *)
Ltac dls_ok :=
  first [ exact I | reflexivity
        | split; [reflexivity | eexists; split; [eassumption | reflexivity]]
        | eexists; reflexivity ].

Lemma AckPoisonMessages_trace K c ids w :
  exists t, added (trace w) (trace (exec (AckPoisonMessages K c ids) w)) t /\
            dlsTraceOk K ids t.
Proof.
  unfold dlsTraceOk, firstStation, exec.
  unfold AckPoisonMessages, index.
  destruct (nth_error ids 0) as [firstId |];
    [rewrite bind_ret_l | rewrite bind_panic_l; exists []; split;
                          [symmetry; apply app_nil_r | constructor]].
  destruct (nth_error (Split firstId (dlsMsgSep K)) 0) as [stationName |];
    [rewrite bind_ret_l | rewrite bind_panic_l; exists []; split;
                          [symmetry; apply app_nil_r | constructor]].
  destruct (StationNameFromStr K stationName) as [sn [e |]].
  { refine (ex_intro _ [_; _] (conj _ _));
      [unfold added; cbn; now rewrite <- app_assoc | repeat constructor]. }
  assert (H1 : forall A (m : M A), emitsOnly (dlsEventOk K sn ids) m ->
                 exists t, added (trace w) (trace (snd (m w))) t /\
                           Forall (dlsEventOk K sn ids) t)
    by (intros A m H; apply H).
  apply H1.
  solve [emits_tac dls_ok].
Qed.


(** ** Acknowledging dead letters *)

Lemma deletedSeqs_app (t t' : list Event) :
  deletedSeqs (t ++ t') = (deletedSeqs t ++ deletedSeqs t')%list.
Proof.
  induction t as [| e t IH]; simpl; [reflexivity |].
  destruct e; simpl; now rewrite ?IH.
Qed.

Lemma collectedSeqs_app (t t' : list Event) :
  collectedSeqs (t ++ t') = (collectedSeqs t ++ collectedSeqs t')%list.
Proof.
  induction t as [| e t IH]; simpl; [reflexivity |].
  destruct e; simpl; now rewrite ?IH.
Qed.

Lemma quiet_seqs (t : list Event) :
  Forall quiet t -> deletedSeqs t = [] /\ collectedSeqs t = [].
Proof.
  induction 1 as [| e t He _ IH]; [split; reflexivity |].
  destruct e; simpl in *; try contradiction; exact IH.
Qed.

Lemma ackState_quiet {A} stream T0 S0 pending (m : M A) :
  emitsOnly quiet m -> keeps streams m ->
  forall w, ackState stream T0 S0 pending w ->
            ackState stream T0 S0 pending (snd (m w)).
Proof.
  intros He Hk w (t & Ht & Hseq & Hs).
  destruct (He w) as (t' & Ht' & Hq). destruct (quiet_seqs Hq) as [Hd Hc].
  exists (t ++ t')%list. unfold added in *. repeat split.
  - rewrite Ht', Ht. now rewrite app_assoc.
  - rewrite deletedSeqs_app, collectedSeqs_app, Hd, Hc, !app_nil_r. exact Hseq.
  - rewrite Hk, deletedSeqs_app, Hd, app_nil_r. exact Hs.
Qed.

(** Skipping a step that neither deletes nor collects. *)
Lemma sat_bind_quiet {A B} stream T0 S0 pending (m : M A) (k : A -> M B)
    (Q : B -> World -> Prop) :
  emitsOnly quiet m -> keeps streams m ->
  (forall a, sat (ackState stream T0 S0 pending) (k a) Q (fun _ => True)) ->
  sat (ackState stream T0 S0 pending) (bind m k) Q (fun _ => True).
Proof.
  intros He Hk Hc.
  apply sat_bind with (Q := fun _ => ackState stream T0 S0 pending); [| exact Hc].
  intros w Hw. pose proof (ackState_quiet He Hk Hw) as H.
  destruct (m w) as [[a | |] w']; simpl in *; auto.
Qed.

Lemma sat_end_quiet {A} stream T0 S0 pending (m : M A) :
  emitsOnly quiet m -> keeps streams m ->
  sat (ackState stream T0 S0 pending) m
      (fun _ => ackState stream T0 S0 pending) (fun _ => True).
Proof.
  intros He Hk w Hw. pose proof (ackState_quiet He Hk Hw) as H.
  destruct (m w) as [[a | |] w']; simpl in *; auto.
Qed.

Lemma sat_forEach {A} (P : World -> Prop) (X : World -> Prop)
    (l : list A) (b : A -> M unit) :
  (forall a, sat P (b a) (fun _ => P) X) ->
  sat P (forEach l b) (fun _ => P) X.
Proof.
  intros H. induction l as [| x l IH]; simpl.
  - apply sat_ret. auto.
  - eapply sat_bind; [apply H | intros ?; exact IH].
Qed.

(** The fetch loop collects a prefix of the arrivals. *)
Lemma sat_fetchLoop stream T0 S0 :
  forall amount arrivals msgs,
    sat (ackState stream T0 S0 msgs) (fetchLoop amount arrivals msgs)
        (fun msgs' => ackState stream T0 S0 msgs') (fun _ => True).
Proof.
  induction amount as [| n IH]; intros arrivals msgs; simpl.
  - apply sat_ret. auto.
  - destruct arrivals as [| m rest]; [apply sat_ret; auto |].
    apply sat_bind_quiet;
      [apply emitsOnly_emit; exact I | apply keeps_modify; reflexivity | intros _].
    eapply sat_bind; [| intros ?; apply IH].
    intros w (t & Ht & Hseq & Hs). simpl.
    exists (t ++ [E_collected m])%list. unfold added in *. simpl. repeat split.
    + now rewrite Ht, app_assoc.
    + rewrite deletedSeqs_app, collectedSeqs_app, map_app. simpl.
      rewrite app_nil_r, <- Hseq. now rewrite app_assoc.
    + rewrite deletedSeqs_app. simpl. now rewrite app_nil_r.
Qed.

Lemma deleteAll_snoc stream seqs seq l :
  deleteAll stream (seqs ++ [seq]) l = map (deleteSeq stream seq) (deleteAll stream seqs l).
Proof. unfold deleteAll. now rewrite fold_left_app. Qed.

(** One deletion: on success the first pending message is gone. *)
Lemma sat_delete stream T0 S0 (msg : StoredMsg) (rest : list StoredMsg) :
  sat (ackState stream T0 S0 (msg :: rest))
      (memphisDeleteMsgFromStream stream (Sequence msg))
      (fun err w => match err with
                    | None => ackState stream T0 S0 rest w
                    | Some _ => True
                    end) (fun _ => True).
Proof.
  intros w (t & Ht & Hseq & Hs).
  unfold memphisDeleteMsgFromStream, bind, emit, fails, gets, modify, ret.
  cbn [fst snd failing withTrace].
  destruct (existsb (Op_eqb OpDeleteMsg) (failing w)); [exact I |].
  cbn [streams withTrace].
  destruct (hasStream stream (streams w)); [| exact I].
  exists (t ++ [E_deleteMsg stream (Sequence msg)])%list.
  unfold added in *. cbn. repeat split.
  - now rewrite Ht, app_assoc.
  - rewrite deletedSeqs_app, collectedSeqs_app. simpl.
    rewrite app_nil_r, <- Hseq, <- app_assoc. reflexivity.
  - rewrite deletedSeqs_app. simpl. now rewrite deleteAll_snoc, Hs.
Qed.

Lemma sat_delete_loop stream T0 S0 :
  forall msgs,
    sat (ackState stream T0 S0 msgs)
        (forEach msgs (fun msg =>
           err <- memphisDeleteMsgFromStream stream (Sequence msg) ;;
           ifErr err (fun e =>
             Errorf ("AckPoisonMessages: " ++ e) ;;
             AbortWithStatusJSON 500 (B_message "Server error") ;;
             return_)))
        (fun _ => ackState stream T0 S0 []) (fun _ => True).
Proof.
  induction msgs as [| msg rest IH]; simpl.
  - apply sat_ret. auto.
  - eapply sat_bind; [| intros ?; exact IH].
    eapply sat_bind; [apply sat_delete |].
    intros [e |]; simpl.
    + intros w _. simpl. exact I.
    + apply sat_ret. auto.
Qed.

(** Walks along a handler as long as its steps neither delete nor
    collect. *)
Ltac walkq :=
  repeat first
    [ apply sat_bind_quiet;
        [solve [emits_tac ltac:(exact I)] | solve [keeps_tac] | intros ?]
    | match goal with
      | |- sat _ (match ?x with _ => _ end) _ _ => destruct x
      end
    | progress cbv zeta ].

Lemma AckPoisonMessages_deletes_collected K c ids w sn :
  firstStation K ids = Some sn ->
  sat (ackState (dlsStreamName K (Intern sn)) (trace w) (streams w) [])
      (AckPoisonMessages K c ids)
      (fun _ => ackState (dlsStreamName K (Intern sn)) (trace w) (streams w) [])
      (fun _ => True).
Proof.
  unfold firstStation, AckPoisonMessages, index.
  destruct (nth_error ids 0) as [firstId |]; [| discriminate].
  rewrite bind_ret_l.
  destruct (nth_error (Split firstId (dlsMsgSep K)) 0) as [stationName |];
    [| discriminate].
  rewrite bind_ret_l.
  destruct (StationNameFromStr K stationName) as [sn' [e |]]; [discriminate |].
  intros [= ->].
  walkq.
  eapply sat_bind.
  - apply sat_forEach. intro msgId.
    walkq.
    eapply sat_bind; [apply sat_fetchLoop |]. intros msgs.
    walkq.
    apply sat_delete_loop.
  - intros ?. walkq.
    apply sat_end_quiet; [solve [emits_tac ltac:(exact I)] | solve [keeps_tac]].
Qed.

Lemma AckPoisonMessages_success_station K c ids w w' :
  AckPoisonMessages K c ids w = (Next tt, w') ->
  exists sn, firstStation K ids = Some sn.
Proof.
  unfold firstStation, AckPoisonMessages, index.
  destruct (nth_error ids 0) as [firstId |];
    [rewrite bind_ret_l | rewrite bind_panic_l; discriminate].
  destruct (nth_error (Split firstId (dlsMsgSep K)) 0) as [stationName |];
    [rewrite bind_ret_l | rewrite bind_panic_l; discriminate].
  destruct (StationNameFromStr K stationName) as [sn [e |]]; [| eauto].
  cbn. discriminate.
Qed.

(** C5. Whenever [AckPoisonMessages] completes successfully, the sequences
    it deleted are exactly the sequences its fetch loops collected, in the
    same order; every deletion was issued on the DLS stream of the station,
    and the streams afterwards are the streams before with the collected
    sequences removed from that stream: no other message is deleted. *)
Theorem C5_ack_deletes_exactly_collected
    (K : Constants) (c : GinContext) (ids : list string) (w w' : World) :
  AckPoisonMessages K c ids w = (Next tt, w') ->
  exists sn t,
    firstStation K ids = Some sn /\
    added (trace w) (trace w') t /\
    deletedSeqs t = collectedSeqs t /\
    Forall (dlsEventOk K sn ids) t /\
    streams w' = deleteAll (dlsStreamName K (Intern sn)) (collectedSeqs t) (streams w).
Proof.
  intros E. destruct (AckPoisonMessages_success_station _ _ _ _ E) as [sn Hsn].
  exists sn.
  pose proof (@AckPoisonMessages_deletes_collected K c ids w sn Hsn w) as H.
  rewrite E in H.
  destruct H as (t & Ht & Hseq & Hs).
  { exists []. unfold added. rewrite app_nil_r. repeat split. }
  destruct (AckPoisonMessages_trace K c ids w) as (t' & Ht' & Hok).
  unfold exec in Ht'. rewrite E in Ht'. cbn [snd] in Ht'.
  unfold dlsTraceOk in Hok. rewrite Hsn in Hok.
  assert (t' = t) by (unfold added in *; rewrite Ht in Ht';
                      now apply app_inv_head in Ht').
  subst t'. rewrite app_nil_r in Hseq.
  exists t. repeat split; auto. now rewrite <- Hseq.
Qed.

Lemma C5_witness :
  let w' := exec (AckPoisonMessages sampleConstants sampleContext
                    ["orders~poison~1"]) dlsWorld in
  exists sn t,
    firstStation sampleConstants ["orders~poison~1"] = Some sn /\
    added (trace dlsWorld) (trace w') t /\
    deletedSeqs t = collectedSeqs t /\
    Forall (dlsEventOk sampleConstants sn ["orders~poison~1"]) t /\
    streams w' = deleteAll (dlsStreamName sampleConstants (Intern sn))
                           (collectedSeqs t) (streams dlsWorld).
Proof.
  apply (@C5_ack_deletes_exactly_collected sampleConstants sampleContext
           ["orders~poison~1"] dlsWorld).
  vm_compute. reflexivity.
Defined.

(** The run of the witness deletes the sequences 1 and 2. *)
Lemma ack_sample_run :
  let w' := exec (AckPoisonMessages sampleConstants sampleContext
                    ["orders~poison~1"]) dlsWorld in
  deletedSeqs (trace w') = [1; 2] /\ collectedSeqs (trace w') = [1; 2] /\
  consumers w' = [].
Proof. vm_compute. repeat split; reflexivity. Qed.

(** ** The fetch protocol *)

(** The collection loop ends after at most [amount] messages or when the
    timer fires, with the first [amount] arrivals. *)
Lemma fetchLoop_collects (amount : nat) (arrivals msgs : list StoredMsg) (w : World) :
  outcome (fetchLoop amount arrivals msgs) w =
    Next (msgs ++ firstn amount arrivals)%list.
Proof.
  unfold outcome. revert arrivals msgs w.
  induction amount as [| n IH]; intros arrivals msgs w; simpl.
  - now rewrite app_nil_r.
  - destruct arrivals as [| m rest]; simpl; [now rewrite app_nil_r |].
    unfold bind, emit, modify. cbn [fst snd].
    rewrite IH. now rewrite <- app_assoc.
Qed.

Lemma firstn_firstn_same {A} (n : nat) (l : list A) :
  firstn n (firstn n l) = firstn n l.
Proof. rewrite firstn_firstn. now rewrite Nat.min_id. Qed.

(** With [k] messages on the filter subject and all deliveries arriving
    before the timer, the loop collects all [k] when [amount >= k] and
    exactly [amount] when [amount < k]. *)
Lemma fetch_counts (amount : nat) (matching : list StoredMsg) (w : World) :
  let k := List.length matching in
  let arrivals := firstn amount matching in
  exists msgs, outcome (fetchLoop amount arrivals []) w = Next msgs /\
               (k <= amount -> msgs = matching) /\
               (amount < k -> List.length msgs = amount).
Proof.
  intros k arrivals. exists (firstn amount matching). repeat split.
  - rewrite fetchLoop_collects. simpl. subst arrivals.
    now rewrite firstn_firstn_same.
  - intro H. now apply firstn_all2.
  - intro H. apply firstn_length_le. subst k. lia.
Qed.

(** A run with a failing subscription: the consumer is created, the
    error is logged and answered, and no removal is attempted. *)
Lemma ack_subscribe_failure_run :
  let w := withFailing [OpSubscribe] dlsWorld in
  let r := AckPoisonMessages sampleConstants sampleContext ["orders~poison~1"] w in
  consumers w = [] /\
  fst r = Returned /\
  consumers (snd r) =
    [ {| cons_stream := "$memphis-orders-dls";
         cons_config :=
           {| cc_DeliverPolicy := DeliverAll; cc_AckPolicy := AckExplicit;
              Durable := "$memphis_fetch_dls_consumer_100";
              FilterSubject := "$memphis-orders-dls.poison.orders~poison~1" |} |} ] /\
  trace (snd r) =
    [ E_streamInfo "$memphis-orders-dls";
      E_addConsumer "$memphis-orders-dls"
        {| cc_DeliverPolicy := DeliverAll; cc_AckPolicy := AckExplicit;
           Durable := "$memphis_fetch_dls_consumer_100";
           FilterSubject := "$memphis-orders-dls.poison.orders~poison~1" |};
      E_log "AckPoisonMessages: subscription failure";
      E_http 500 (B_message "Server error") ].
Proof. vm_compute. repeat split; reflexivity. Qed.

(** The same holds for [ResendPoisonMessages]. *)
Lemma resend_subscribe_failure_leaks_consumer :
  let w := withFailing [OpSubscribe] dlsWorld in
  let r := ResendPoisonMessages sampleConstants sampleContext ["orders~poison~1"] w in
  fst r = Returned /\ List.length (consumers (snd r)) = 1.
Proof. vm_compute. split; reflexivity. Qed.

(** On the regular path and on the timeout path the consumer is removed:
    both messages of the id are collected when they arrive in time, one
    when only one beats the timer. *)
Lemma ack_success_and_timeout_remove_consumer :
  let run w := exec (AckPoisonMessages sampleConstants sampleContext
                       ["orders~poison~1"]) w in
  let slow :=
    {| stationsCollection := stationsCollection dlsWorld;
       schemasCollection := schemasCollection dlsWorld;
       schemaVersionsCollection := schemaVersionsCollection dlsWorld;
       producersCollection := []; consumersCollection := [];
       auditLogsCollection := []; streams := streams dlsWorld;
       consumers := []; nextID := 100; now := 5; analyticsEnabled := false;
       failing := []; beforeTimeout := 1; trace := [] |} in
  consumers (run dlsWorld) = [] /\ collectedSeqs (trace (run dlsWorld)) = [1; 2] /\
  consumers (run slow) = [] /\ collectedSeqs (trace (run slow)) = [1].
Proof. vm_compute. repeat split; reflexivity. Qed.

(** ** Ids of another station or another kind *)

(** The three handlers at work on the legacy world: [GetStation] answers
    200 with the station, [removeStationDirect] writes the tombstone, and
    [LaunchDlsForOldStations] creates the missing DLS stream. *)
Lemma legacy_station_is_served :
  (exists s x,
      trace (exec (GetStation sampleConstants sampleContext "orders") legacyWorld)
        = [E_http 200 (B_station s x)] /\ Name s = "orders") /\
  map (fun d => (has_is_deleted d, IsDeleted (body d)))
      (stationsCollection
         (exec (removeStationDirect sampleConstants sampleClient "reply"
                  (Decoded {| dsr_StationName := "orders" |})) legacyWorld))
    = [(true, true)] /\
  (let r := LaunchDlsForOldStations sampleConstants (withStreams [] legacyWorld) in
   fst r = Next None /\
   map stream_name (streams (snd r)) = ["$memphis-orders-dls"] /\
   map (fun d => DlsConfig (body d)) (stationsCollection (snd r))
     = [ {| Poison := true; Schemaverse := true |} ]).
Proof.
  split; [| split].
  - eexists _, _. vm_compute. split; reflexivity.
  - vm_compute. reflexivity.
  - vm_compute. repeat split; reflexivity.
Qed.

(** The attachment handlers are different: on a station document without
    [is_deleted] the request is answered as a success and the update is
    published, but no binding is stored. *)
Lemma useSchemaDirect_skips_legacy_document :
  let w := withStations [legacyOrders] schemaWorld in
  let r := useSchemaDirect sampleConstants sampleClient "reply"
             (Decoded {| asr_Name := "OrderV1"; asr_StationName := "Orders" |}) w in
  fst r = Next tt /\
  repliesOn "reply" (trace (snd r)) = [""] /\
  map (fun d => Schema (body d)) (stationsCollection (snd r)) = [zeroSchemaDetails].
Proof. vm_compute. repeat split; reflexivity. Qed.

(** Runs a handler by unfolding the primitives down to reads and writes of
    the world; [rew] rewrites with what is known about the world. *)
Ltac run_raw rew :=
  repeat first
    [ erewrite bind_next by reflexivity; cbv beta iota zeta
    | erewrite bind_returned by reflexivity
    | rewrite bind_assoc
    | progress rew
    | progress cbn [ifErr when negb forEach analyticsEnabled failing
                    stationsCollection schemasCollection
                    schemaVersionsCollection streams consumers nextID
                    withAuditLogs withTrace withStations withStreams
                    withConsumers withNextID withMembers
                    existsb Op_eqb orb fst snd Durable]
    | progress autounfold with handlers ].

Lemma find_hasStream (name : string) (l : list Stream) (st : Stream) :
  find (fun s => stream_name s =? name) l = Some st ->
  hasStream name l = true.
Proof.
  unfold hasStream. induction l as [| x l IH]; simpl; [discriminate |].
  destruct (stream_name x =? name); simpl; auto.
Qed.

(** C3 (code at the failing input). When the subscription on the reply
    subject fails, [AckPoisonMessages] returns right away: the durable
    consumer it has just created on the DLS stream is still there
    afterwards, so the consumer is not removed on this exit path. *)
Theorem C3_subscribe_failure_leaks_consumer
    (K : Constants) (c : GinContext) (id : string) (rest : list string)
    (w : World) (sn : StationName) (st : Stream) :
  firstStation K (id :: rest) = Some sn ->
  failing w = [OpSubscribe] ->
  find (fun s => stream_name s =? dlsStreamName K (Intern sn)) (streams w) = Some st ->
  existsb (isConsumer (dlsStreamName K (Intern sn))
             ("$memphis_fetch_dls_consumer_" ++ decimal (nextID w)))
          (consumers w) = false ->
  let r := AckPoisonMessages K c (id :: rest) w in
  fst r = Returned /\
  consumers (snd r) = (consumers w ++ [fetchConsumer K sn id (nextID w)])%list.
Proof.
  intros Hsn Hf Hst Hc.
  pose proof (find_hasStream _ _ Hst) as Hh.
  unfold firstStation in Hsn.
  change (nth_error (id :: rest) 0) with (Some id) in Hsn. cbv beta iota in Hsn.
  destruct (nth_error (Split id (dlsMsgSep K)) 0) as [p |] eqn:Ep;
    [| discriminate].
  destruct (StationNameFromStr K p) as [sn' [e |]] eqn:En; [discriminate |].
  injection Hsn as ->.
  assert (E : exists w', AckPoisonMessages K c (id :: rest) w = (Returned, w') /\
                         consumers w' = (consumers w ++ [fetchConsumer K sn id (nextID w)])%list).
  { unfold AckPoisonMessages, index.
    change (nth_error (id :: rest) 0) with (Some id). cbv beta iota.
    rewrite bind_ret_l.
    rewrite Ep, bind_ret_l, En.
    eexists. split.
    - run_raw ltac:(first [rewrite Hf | rewrite Hst | rewrite Hh | rewrite Hc]).
      reflexivity.
    - reflexivity. }
  destruct E as (w' & E & Hw'). intro r. subst r. rewrite E. auto.
Qed.

Lemma C3_witness :
  let r := AckPoisonMessages sampleConstants sampleContext ["orders~poison~1"]
             (withFailing [OpSubscribe] dlsWorld) in
  fst r = Returned /\
  consumers (snd r) =
    (consumers (withFailing [OpSubscribe] dlsWorld) ++
     [fetchConsumer sampleConstants {| internal := "orders"; external := "orders" |}
        "orders~poison~1" (nextID (withFailing [OpSubscribe] dlsWorld))])%list.
Proof.
  apply (@C3_subscribe_failure_leaks_consumer sampleConstants sampleContext
           "orders~poison~1" [] (withFailing [OpSubscribe] dlsWorld)
           {| internal := "orders"; external := "orders" |}
           {| stream_name := "$memphis-orders-dls"; stream_msgs := dlsMessages |});
    reflexivity.
Defined.
(** * Further properties *)

(** ** Consumer-group status *)

Lemma getCgStatus_loop_spec (members : list CgMember) (n : nat) :
  getCgStatus_loop members n =
    if existsb cgm_IsActive members then inl (true, false)
    else inr (n + List.length (filter cgm_IsDeleted members))%nat.
Proof.
  revert n. induction members as [| m ms IH]; intro n; simpl.
  - now rewrite Nat.add_0_r.
  - destruct (cgm_IsActive m); simpl; [reflexivity |].
    rewrite IH. destruct (existsb cgm_IsActive ms); [reflexivity |].
    destruct (cgm_IsDeleted m); simpl; f_equal; lia.
Qed.

Lemma filter_length_all {A} (p : A -> bool) (l : list A) :
  (List.length l =? List.length (filter p l))%nat = forallb p l.
Proof.
  induction l as [| x l IH]; [reflexivity |].
  cbn [filter forallb]. destruct (p x); cbn [List.length andb]; [exact IH |].
  apply Nat.eqb_neq. pose proof (filter_length_le p l). lia.
Qed.

(** [getCgStatus] reports a consumer group as active exactly when one of
    its members is active, and as deleted exactly when no member is active
    and every member is deleted; a group without members counts as
    deleted, and a group is never reported both active and deleted. *)
Theorem getCgStatus_characterised (members : list CgMember) :
  getCgStatus members =
    (existsb cgm_IsActive members,
     negb (existsb cgm_IsActive members) && forallb cgm_IsDeleted members).
Proof.
  unfold getCgStatus. rewrite getCgStatus_loop_spec.
  destruct (existsb cgm_IsActive members); [reflexivity |].
  cbn [Nat.add negb andb]. rewrite filter_length_all.
  destruct (forallb cgm_IsDeleted members); reflexivity.
Qed.

(** ** The canonicalizer ignores case *)

(** [StationNameFromStr] gives the same result, name or error, for two
    spellings of a name that differ only in the case of their letters. *)
Theorem StationNameFromStr_ignores_case (K : Constants) (n : string) :
  userDelimiter (delimiterToReplace K) ->
  StationNameFromStr K (ToLower n) = StationNameFromStr K n.
Proof.
  intro Hd. unfold StationNameFromStr. rewrite ToLower_idem.
  destruct (validateName K (ToLower n) stationObjectName); [reflexivity |].
  now rewrite (@replace_lower K Hd).
Qed.

Lemma StationNameFromStr_ignores_case_witness :
  StationNameFromStr sampleConstants (ToLower "My.Orders") =
  StationNameFromStr sampleConstants "My.Orders".
Proof.
  apply (@StationNameFromStr_ignores_case sampleConstants "My.Orders").
  left. reflexivity.
Defined.

(** ** Resending keeps the dead letters *)

(** [ResendPoisonMessages] deletes nothing: whatever its outcome, the
    streams hold the same messages afterwards, and the stations collection
    is untouched. *)
Theorem ResendPoisonMessages_keeps_dead_letters
    (K : Constants) (c : GinContext) (ids : list string) (w : World) :
  streams (exec (ResendPoisonMessages K c ids) w) = streams w /\
  stationsCollection (exec (ResendPoisonMessages K c ids) w) = stationsCollection w.
Proof.
  split.
  - assert (H : keeps streams (ResendPoisonMessages K c ids))
      by (unfold ResendPoisonMessages; keeps_tac).
    apply H.
  - assert (H : keeps stationsCollection (ResendPoisonMessages K c ids))
      by (unfold ResendPoisonMessages; keeps_tac).
    apply H.
Qed.

(** ** Consumer cleanup of the fetches *)

Lemma filter_negb_none {A} (p : A -> bool) (l : list A) :
  existsb p l = false -> filter (fun x => negb (p x)) l = l.
Proof.
  induction l as [| x l IH]; simpl; [reflexivity |].
  destruct (p x); simpl; [discriminate |]. intro H. now rewrite IH.
Qed.

Lemma isConsumer_own (stream : string) (cc : ConsumerConfig) :
  isConsumer stream (Durable cc) {| cons_stream := stream; cons_config := cc |} = true.
Proof. unfold isConsumer. cbn. now rewrite !String.eqb_refl. Qed.

(** Adding a consumer: on success it is appended, and its name was free. *)
Lemma sat_AddConsumer (C0 : list Consumer) (stream : string) (cc : ConsumerConfig)
    (X : World -> Prop) :
  sat (fun w => consumers w = C0) (memphisAddConsumer stream cc)
      (fun err w =>
         match err with
         | Some _ => consumers w = C0
         | None =>
             consumers w = (C0 ++ [{| cons_stream := stream; cons_config := cc |}])%list /\
             existsb (isConsumer stream (Durable cc)) C0 = false
         end) X.
Proof.
  intros w Hw.
  unfold memphisAddConsumer, bind, emit, fails, gets, modify, ret.
  simpl.
  destruct (existsb (Op_eqb OpAddConsumer) (failing w)); simpl; [exact Hw |].
  destruct (hasStream stream (streams w)); simpl; [| exact Hw].
  rewrite Hw. destruct (existsb (isConsumer stream (Durable cc)) C0) eqn:E; simpl.
  - exact Hw.
  - split; reflexivity.
Qed.

(** Removing the consumer that was appended restores the consumers. *)
Lemma sat_RemoveConsumer (C0 : list Consumer) (stream : string) (cc : ConsumerConfig) :
  existsb (isConsumer stream (Durable cc)) C0 = false ->
  sat (fun w => consumers w =
                  (C0 ++ [{| cons_stream := stream; cons_config := cc |}])%list)
      (memphisRemoveConsumer stream (Durable cc))
      (fun err w => match err with
                    | Some _ => True
                    | None => consumers w = C0
                    end) (fun _ => True).
Proof.
  intros Hfree w Hw.
  unfold memphisRemoveConsumer, bind, emit, fails, gets, modify, ret.
  simpl.
  destruct (existsb (Op_eqb OpRemoveConsumer) (failing w)); simpl; [exact I |].
  rewrite Hw, filter_app, (filter_negb_none _ _ Hfree). cbn [filter].
  rewrite isConsumer_own. cbn. apply app_nil_r.
Qed.

Lemma sat_assume {A} (F : Prop) (P : World -> Prop) (m : M A)
    (Q : A -> World -> Prop) (X : World -> Prop) :
  (F -> sat P m Q X) -> sat (fun w => P w /\ F) m Q X.
Proof. intros H w [Hw HF]. now apply H. Qed.

(** The invariant of the fetches: between two ids the consumers are the
    initial ones. *)
Ltac consumers_tac C0 Hfree :=
  match goal with
  | |- sat (fun w => consumers w = ?L) _ _ _ =>
      walk consumers (fun cs : list Consumer => cs = L)
  end;
  (eapply sat_bind; [apply sat_AddConsumer |]);
  intros [? |];
  [ intros ? _; exact I
  | cbn [ifErr]; rewrite bind_ret_l;
    apply sat_assume; intro Hfree;
    match goal with
    | |- sat (fun w => consumers w = ?L) _ _ _ =>
        walk consumers (fun cs : list Consumer => cs = L)
    end;
    (eapply sat_bind; [apply sat_RemoveConsumer; exact Hfree |]);
    intros [? |];
    [ intros ? _; exact I
    | cbn [ifErr]; rewrite bind_ret_l;
      apply (@sat_end_keeps _ _ consumers (fun cs => cs = C0));
        [solve [keeps_tac] | auto | auto] ] ].

Lemma AckPoisonMessages_consumers K c ids (C0 : list Consumer) :
  sat (fun w => consumers w = C0) (AckPoisonMessages K c ids)
      (fun _ w => consumers w = C0) (fun _ => True).
Proof.
  unfold AckPoisonMessages.
  walk consumers (fun cs : list Consumer => cs = C0).
  eapply sat_bind.
  - apply sat_forEach. intro msgId. consumers_tac C0 Hfree.
  - intros ?.
    apply (@sat_end_keeps _ _ consumers (fun cs => cs = C0));
      [solve [keeps_tac] | auto | auto].
Qed.

Lemma ResendPoisonMessages_consumers K c ids (C0 : list Consumer) :
  sat (fun w => consumers w = C0) (ResendPoisonMessages K c ids)
      (fun _ w => consumers w = C0) (fun _ => True).
Proof.
  unfold ResendPoisonMessages.
  walk consumers (fun cs : list Consumer => cs = C0).
  eapply sat_bind.
  - apply sat_forEach. intro msgId. consumers_tac C0 Hfree.
  - intros ?.
    apply (@sat_end_keeps _ _ consumers (fun cs => cs = C0));
      [solve [keeps_tac] | auto | auto].
Qed.

(** Whenever [AckPoisonMessages] or [ResendPoisonMessages] runs to its end,
    every durable consumer it created has been removed again: the consumers
    of the engine are the ones that existed before the request. *)
Theorem dls_fetch_removes_its_consumers
    (K : Constants) (c : GinContext) (ids : list string) (w w' : World) :
  AckPoisonMessages K c ids w = (Next tt, w') \/
  ResendPoisonMessages K c ids w = (Next tt, w') ->
  consumers w' = consumers w.
Proof.
  intros [E | E].
  - pose proof (@AckPoisonMessages_consumers K c ids (consumers w) w eq_refl) as H.
    now rewrite E in H.
  - pose proof (@ResendPoisonMessages_consumers K c ids (consumers w) w eq_refl) as H.
    now rewrite E in H.
Qed.

Lemma dls_fetch_removes_its_consumers_witness :
  consumers (exec (AckPoisonMessages sampleConstants sampleContext
                     ["orders~poison~1"]) dlsWorld) = consumers dlsWorld.
Proof.
  apply (@dls_fetch_removes_its_consumers sampleConstants sampleContext
           ["orders~poison~1"] dlsWorld).
  left. vm_compute. reflexivity.
Defined.

(** ** DLS bootstrap *)

Lemma sat_forEachErr {A} (I : list A -> World -> Prop) (b : A -> M error)
    (X : World -> Prop) :
  (forall done x,
      sat (I done) (b x) (fun err w => err = None -> I (done ++ [x])%list w) X) ->
  forall l done,
    sat (I done) (forEachErr l b)
        (fun err w => err = None -> I (done ++ l)%list w) X.
Proof.
  intros Hb. induction l as [| x l IH]; intros done; simpl.
  - apply sat_ret. intros w Hw _. now rewrite app_nil_r.
  - eapply sat_bind; [apply Hb |]. intros [e |].
    + apply sat_ret. intros; discriminate.
    + eapply sat_weaken; [apply (IH (done ++ [x])%list) | | |].
      * intros w H. now apply H.
      * intros a w H E. rewrite <- app_assoc in H. now apply H.
      * auto.
Qed.

Lemma hasStream_addStream (n m : string) (l : list Stream) :
  hasStream n l = true -> hasStream n (addStream m l) = true.
Proof.
  intro H. unfold addStream. destruct (hasStream m l); [exact H |].
  unfold hasStream in *. rewrite existsb_app, H. reflexivity.
Qed.

Lemma hasStream_addStream_same (n : string) (l : list Stream) :
  hasStream n (addStream n l) = true.
Proof.
  unfold addStream. destruct (hasStream n l) eqn:E; [exact E |].
  unfold hasStream. rewrite existsb_app. cbn. rewrite String.eqb_refl.
  apply orb_true_r.
Qed.

Lemma dlsReady_addStream K (m : string) (l : list Stream) (names : list Station) :
  Forall (fun st => dlsReady K l (Name st)) names ->
  Forall (fun st => dlsReady K (addStream m l) (Name st)) names.
Proof.
  apply Forall_impl. intros st (sn & Hn & Hs). exists sn. split; [exact Hn |].
  now apply hasStream_addStream.
Qed.

Lemma sat_pure {A} (F : Prop) (m : M A) (Q : A -> World -> Prop)
    (X : World -> Prop) :
  (F -> sat (fun _ => True) m Q X) -> sat (fun _ => F) m Q X.
Proof. intros H w HF. now apply H. Qed.

Lemma LaunchDlsForOldStations_ready K (S0 : list StationDoc) :
  sat (fun w => stationsCollection w = S0) (LaunchDlsForOldStations K)
      (fun err w' =>
         err = None ->
         Forall (fun st => dlsReady K (streams w') (Name st))
                (map decodeStation (findMany LaunchDlsForOldStations_filter S0)))
      (fun _ => True).
Proof.
  unfold LaunchDlsForOldStations.
  eapply sat_bind with
    (Q := fun r _ => snd r = None ->
            fst r = map decodeStation (findMany LaunchDlsForOldStations_filter S0)).
  { intros w Hw. unfold stations_Find, bind, fails, gets, ret. simpl.
    destruct (existsb (Op_eqb OpStationsFind) (failing w)); simpl;
      [discriminate | now rewrite Hw]. }
  intros [stations [e |]]; cbn [fst snd].
  { apply sat_ret. intros; discriminate. }
  apply sat_pure. intro E. rewrite <- (E eq_refl). clear E.
  eapply sat_weaken;
    [ apply (@sat_forEachErr _
        (fun done w => Forall (fun st => dlsReady K (streams w) (Name st)) done)
        _ (fun _ => True))
        with (done := @nil Station)
    | intros; constructor | intros a w H; exact H | auto ].
  intros done st w Hw.
  destruct (StationNameFromStr K (Name st)) as [sn [e |]] eqn:En.
  { simpl. discriminate. }
  unfold memphisStreamInfo, stations_UpsertOne, CreateDlsStream, Errorf,
    bind, emit, fails, gets, modify, ret.
  simpl.
  destruct (existsb (Op_eqb OpStreamInfo) (failing w)); simpl; [discriminate |].
  destruct (find _ (streams w)) as [s |] eqn:Ef; simpl.
  - intros _. apply Forall_app. split; [exact Hw |].
    constructor; [| constructor].
    exists sn. split; [exact En |]. eapply find_hasStream. exact Ef.
  - destruct (existsb (Op_eqb OpStationsUpdate) (failing w)); simpl; [discriminate |].
    destruct (existsb (Op_eqb OpCreateDlsStream) (failing w)); simpl; [discriminate |].
    intros _. apply Forall_app. split.
    + apply dlsReady_addStream. exact Hw.
    + constructor; [| constructor].
      exists sn. split; [exact En | apply hasStream_addStream_same].
Qed.

(** Whenever [LaunchDlsForOldStations] returns without an error, every
    station document that is live (its [is_deleted] false or absent) has a
    name the canonicalizer accepts and its DLS stream exists. *)
Theorem LaunchDlsForOldStations_establishes_dls
    (K : Constants) (w w' : World) (d : StationDoc) :
  LaunchDlsForOldStations K w = (Next None, w') ->
  In d (stationsCollection w) ->
  matches LaunchDlsForOldStations_filter d = true ->
  dlsReady K (streams w') (Name (body d)).
Proof.
  intros E Hin Hm.
  pose proof (@LaunchDlsForOldStations_ready K (stationsCollection w) w eq_refl) as H.
  rewrite E in H. specialize (H eq_refl).
  rewrite Forall_forall in H.
  apply (H (decodeStation d)).
  apply in_map. apply filter_In. split; assumption.
Qed.

Lemma LaunchDlsForOldStations_establishes_dls_witness :
  dlsReady sampleConstants
    (streams (exec (LaunchDlsForOldStations sampleConstants)
                (withStreams [] legacyWorld)))
    "orders".
Proof.
  apply (@LaunchDlsForOldStations_establishes_dls sampleConstants
           (withStreams [] legacyWorld)
           (exec (LaunchDlsForOldStations sampleConstants)
                 (withStreams [] legacyWorld))
           legacyOrders).
  - vm_compute. reflexivity.
  - left. reflexivity.
  - reflexivity.
Defined.

Lemma sat_forEachErr_in {A} (I : World -> Prop) (b : A -> M error)
    (X : World -> Prop) (l : list A) :
  (forall x, In x l -> sat I (b x) (fun _ => I) X) ->
  sat I (forEachErr l b) (fun _ => I) X.
Proof.
  induction l as [| x l IH]; intros Hb; simpl.
  - apply sat_ret. auto.
  - eapply sat_bind; [apply Hb; now left |]. intros [e |].
    + apply sat_ret. auto.
    + apply IH. intros y Hy. apply Hb. now right.
Qed.

Lemma hasStream_find (name : string) (l : list Stream) :
  hasStream name l = true ->
  exists s, find (fun s => stream_name s =? name) l = Some s.
Proof.
  unfold hasStream. induction l as [| x l IH]; simpl; [discriminate |].
  destruct (stream_name x =? name); simpl; eauto.
Qed.

(** The bootstrap leaves a station alone whose DLS stream exists. *)
Lemma LaunchDlsForOldStations_idle K (S0 : list StationDoc) (T0 : list Stream) :
  (forall d sn, In d S0 -> matches LaunchDlsForOldStations_filter d = true ->
                StationNameFromStr K (Name (body d)) = (sn, None) ->
                hasStream (dlsStreamName K (Intern sn)) T0 = true) ->
  sat (fun w => stationsCollection w = S0 /\ streams w = T0)
      (LaunchDlsForOldStations K)
      (fun _ w => stationsCollection w = S0 /\ streams w = T0)
      (fun w => stationsCollection w = S0 /\ streams w = T0).
Proof.
  intro Hready. unfold LaunchDlsForOldStations.
  eapply sat_bind with
    (Q := fun r w => (stationsCollection w = S0 /\ streams w = T0) /\
            (snd r = None ->
             fst r = map decodeStation (findMany LaunchDlsForOldStations_filter S0))).
  { intros w Hw. unfold stations_Find, bind, fails, gets, ret. simpl.
    destruct (existsb (Op_eqb OpStationsFind) (failing w)); simpl.
    - split; [exact Hw | discriminate].
    - split; [exact Hw | now rewrite (proj1 Hw)]. }
  intros [stations [e |]]; cbn [fst snd].
  { apply sat_ret. tauto. }
  apply sat_assume. intro E. rewrite (E eq_refl). clear E stations.
  apply sat_forEachErr_in. intros st Hst.
  apply in_map_iff in Hst. destruct Hst as (d & <- & Hd).
  apply filter_In in Hd. destruct Hd as [Hin Hm].
  change (Name (decodeStation d)) with (Name (body d)).
  destruct (StationNameFromStr K (Name (body d))) as [sn [e |]] eqn:En.
  { apply sat_ret. auto. }
  destruct (hasStream_find _ _ (Hready d sn Hin Hm En)) as [s Hs].
  intros w [Hw1 Hw2].
  unfold memphisStreamInfo, bind, emit, fails, gets, modify, ret. simpl.
  destruct (existsb (Op_eqb OpStreamInfo) (failing w)); simpl; [tauto |].
  rewrite Hw2, Hs. simpl. tauto.
Qed.

Lemma updateOne_dls_origin f c (l : list StationDoc) (d : StationDoc) :
  In d (updateOne f (U_set_dls_configuration c) l) ->
  exists d1, In d1 l /\ Name (body d1) = Name (body d) /\
             matches LaunchDlsForOldStations_filter d1 =
             matches LaunchDlsForOldStations_filter d.
Proof.
  induction l as [| x l IH]; simpl; [tauto |].
  destruct (matches f x).
  - intros [E | H].
    + exists x. split; [now left |]. subst d. destruct x as [b h].
      split; reflexivity.
    + exists d. split; [now right | split; reflexivity].
  - intros [E | H].
    + exists x. subst d. split; [now left | split; reflexivity].
    + destruct (IH H) as (d1 & H1 & H2). exists d1. split; [now right | exact H2].
Qed.

(** The names of the live documents after the bootstrap are names of
    documents that were live before. *)
Lemma LaunchDlsForOldStations_live_names K (S0 : list StationDoc) :
  let J := fun w : World =>
    forall d, In d (stationsCollection w) ->
      matches LaunchDlsForOldStations_filter d = true ->
      exists d0, In d0 S0 /\ matches LaunchDlsForOldStations_filter d0 = true /\
                 Name (body d0) = Name (body d) in
  sat (fun w => stationsCollection w = S0) (LaunchDlsForOldStations K)
      (fun _ => J) (fun _ => True).
Proof.
  intro J. unfold LaunchDlsForOldStations.
  eapply sat_bind with
    (Q := fun r w => J w /\
            (snd r = None ->
             fst r = map decodeStation (findMany LaunchDlsForOldStations_filter S0))).
  { intros w Hw. unfold stations_Find, bind, fails, gets, ret. simpl.
    assert (HJ : J w) by (intros d Hd Hm; rewrite Hw in Hd; eauto).
    destruct (existsb (Op_eqb OpStationsFind) (failing w)); simpl.
    - split; [exact HJ | discriminate].
    - split; [exact HJ | now rewrite Hw]. }
  intros [stations [e |]]; cbn [fst snd].
  { apply sat_ret. tauto. }
  apply sat_assume. intro E. rewrite (E eq_refl). clear E stations.
  apply sat_forEachErr_in. intros st Hst.
  apply in_map_iff in Hst. destruct Hst as (d & <- & Hd).
  apply filter_In in Hd. destruct Hd as [Hin Hm].
  change (Name (decodeStation d)) with (Name (body d)).
  destruct (StationNameFromStr K (Name (body d))) as [sn [e |]] eqn:En.
  { apply sat_ret. auto. }
  intros w Hw.
  unfold memphisStreamInfo, stations_UpsertOne, CreateDlsStream, Errorf,
    bind, emit, fails, gets, modify, ret.
  simpl.
  destruct (existsb (Op_eqb OpStreamInfo) (failing w)); simpl; [exact Hw |].
  destruct (find _ (streams w)) as [s |]; simpl; [exact Hw |].
  destruct (existsb (Op_eqb OpStationsUpdate) (failing w)); simpl; [exact Hw |].
  assert (HJ : forall d',
             In d' (upsertOne (LaunchDlsForOldStations_update_filter (Name (body d)))
                      (U_set_dls_configuration {| Poison := true; Schemaverse := true |})
                      (stationsCollection w)) ->
             matches LaunchDlsForOldStations_filter d' = true ->
             exists d0, In d0 S0 /\ matches LaunchDlsForOldStations_filter d0 = true /\
                        Name (body d0) = Name (body d')).
  { intros d' Hd' Hm'. unfold upsertOne in Hd'.
    destruct (existsb _ (stationsCollection w)).
    - destruct (updateOne_dls_origin _ _ _ _ Hd') as (d1 & H1 & H2 & H3).
      rewrite <- H2. apply Hw; [exact H1 | now rewrite H3].
    - apply in_app_or in Hd'. destruct Hd' as [Hd' | [<- | []]].
      + now apply Hw.
      + exists d. repeat split; assumption. }
  destruct (existsb (Op_eqb OpCreateDlsStream) (failing w)); simpl; exact HJ.
Qed.

(** A second run of the bootstrap finds nothing to do: after
    [LaunchDlsForOldStations] has returned without an error, running it
    again changes neither the stations collection nor the streams. *)
Theorem LaunchDlsForOldStations_idempotent (K : Constants) (w w' : World) :
  LaunchDlsForOldStations K w = (Next None, w') ->
  stationsCollection (exec (LaunchDlsForOldStations K) w') = stationsCollection w' /\
  streams (exec (LaunchDlsForOldStations K) w') = streams w'.
Proof.
  intro E.
  pose proof (@LaunchDlsForOldStations_ready K (stationsCollection w) w eq_refl) as Hr.
  pose proof (@LaunchDlsForOldStations_live_names K (stationsCollection w) w eq_refl) as Hj.
  rewrite E in Hr, Hj. specialize (Hr eq_refl). rewrite Forall_forall in Hr.
  assert (Hready : forall d sn, In d (stationsCollection w') ->
            matches LaunchDlsForOldStations_filter d = true ->
            StationNameFromStr K (Name (body d)) = (sn, None) ->
            hasStream (dlsStreamName K (Intern sn)) (streams w') = true).
  { intros d sn Hd Hm Hn.
    destruct (Hj d Hd Hm) as (d0 & H0 & Hm0 & Hname).
    destruct (Hr (decodeStation d0)) as (sn0 & Hn0 & Hs).
    { apply in_map. apply filter_In. split; assumption. }
    change (Name (decodeStation d0)) with (Name (body d0)) in Hn0.
    rewrite Hname, Hn in Hn0. now inversion Hn0. }
  pose proof (@LaunchDlsForOldStations_idle K _ _ Hready w' (conj eq_refl eq_refl)) as H.
  unfold exec.
  destruct (LaunchDlsForOldStations K w') as [[a | |] w'']; exact H.
Qed.

Lemma LaunchDlsForOldStations_idempotent_witness :
  let w' := exec (LaunchDlsForOldStations sampleConstants)
                 (withStreams [] legacyWorld) in
  stationsCollection (exec (LaunchDlsForOldStations sampleConstants) w') =
    stationsCollection w' /\
  streams (exec (LaunchDlsForOldStations sampleConstants) w') = streams w'.
Proof.
  apply (@LaunchDlsForOldStations_idempotent sampleConstants
           (withStreams [] legacyWorld)).
  vm_compute. reflexivity.
Defined.

(** ** Acknowledged ids leave no dead letter behind *)

Lemma sat_forEach_done {A} (I : list A -> World -> Prop) (X : World -> Prop)
    (b : A -> M unit) :
  (forall done x, sat (I done) (b x) (fun _ => I (done ++ [x])%list) X) ->
  forall l done, sat (I done) (forEach l b) (fun _ => I (done ++ l)%list) X.
Proof.
  intros Hb. induction l as [| x l IH]; intros done; simpl.
  - apply sat_ret. intros w Hw. now rewrite app_nil_r.
  - eapply sat_bind; [apply Hb |]. intros ?.
    eapply sat_weaken; [apply (IH (done ++ [x])%list) | | |]; auto.
    intros ? w H. now rewrite <- app_assoc in H.
Qed.

Lemma sat_freeze {A B} (g : World -> B) (P : World -> Prop) (m : M A)
    (Q : A -> World -> Prop) (X : World -> Prop) :
  (forall b, sat (fun w => P w /\ g w = b) m Q X) -> sat P m Q X.
Proof. intros H w Hw. apply (H (g w)). now split. Qed.

Lemma sat_extract {A} (F : Prop) (P : World -> Prop) (m : M A)
    (Q : A -> World -> Prop) (X : World -> Prop) :
  (forall w, P w -> F) -> (F -> sat P m Q X) -> sat P m Q X.
Proof. intros HF H w Hw. apply H; eauto. Qed.

Lemma messagesOf_deleteSeq (D : string) (seq : nat) (l : list Stream) :
  messagesOf D (map (deleteSeq D seq) l) =
  filter (fun m => negb (Sequence m =? seq)%nat) (messagesOf D l).
Proof.
  unfold messagesOf. induction l as [| s l IH]; simpl; [reflexivity |].
  assert (En : stream_name (deleteSeq D seq s) = stream_name s)
    by (unfold deleteSeq; destruct (stream_name s =? D); reflexivity).
  rewrite En. destruct (stream_name s =? D) eqn:E; [| exact IH].
  unfold deleteSeq. now rewrite E.
Qed.

Lemma find_app_free {A} (p : A -> bool) (l : list A) (x : A) :
  existsb p l = false -> p x = true -> find p (l ++ [x]) = Some x.
Proof.
  induction l as [| y l IH]; simpl; intros H Hx.
  - now rewrite Hx.
  - destruct (p y); [discriminate | auto].
Qed.

Lemma firstn_filter_all {A} (p : A -> bool) (l : list A) (n : nat) :
  List.length l <= n -> firstn n (filter p l) = filter p l.
Proof.
  intro H. apply firstn_all2. pose proof (filter_length_le p l). lia.
Qed.


Lemma sat_StreamInfo_fetch B T C (D : string) (X : World -> Prop) :
  sat (fun w => fetchState w = (B, T, C)) (memphisStreamInfo D)
      (fun r w => fetchState w = (B, T, C) /\
                  (snd r = None ->
                   fst r = List.length (messagesOf D T) /\ hasStream D T = true)) X.
Proof.
  intros w Hw. unfold memphisStreamInfo, bind, emit, fails, gets, modify, ret.
  simpl. destruct (existsb (Op_eqb OpStreamInfo) (failing w)); simpl.
  - split; [exact Hw | discriminate].
  - assert (Hs : streams w = T) by (unfold fetchState in Hw; congruence).
    rewrite Hs. unfold messagesOf.
    destruct (find (fun s => stream_name s =? D) T) as [s |] eqn:E; simpl.
    + split; [exact Hw |]. intros _. split; [reflexivity |].
      eapply find_hasStream. exact E.
    + split; [exact Hw | discriminate].
Qed.

Lemma sat_AddConsumer_fetch B T C (D : string) (cc : ConsumerConfig)
    (X : World -> Prop) :
  sat (fun w => fetchState w = (B, T, C)) (memphisAddConsumer D cc)
      (fun err w =>
         match err with
         | Some _ => True
         | None =>
             fetchState w =
               (B, T, (C ++ [{| cons_stream := D; cons_config := cc |}])%list) /\
             existsb (isConsumer D (Durable cc)) C = false
         end) X.
Proof.
  intros w Hw. unfold fetchState in Hw. inversion Hw as [[Hb Hs Hc]].
  unfold memphisAddConsumer, bind, emit, fails, gets, modify, ret. simpl.
  destruct (existsb (Op_eqb OpAddConsumer) (failing w)); simpl; [exact I |].
  destruct (hasStream D (streams w)); simpl; [| exact I].
  destruct (existsb (isConsumer D (Durable cc)) (consumers w)) eqn:E; simpl;
    [exact I |].
  split; reflexivity.
Qed.

Lemma sat_deliveries_fetch B T C (D : string) (cc : ConsumerConfig)
    (amount : nat) (X : World -> Prop) :
  existsb (isConsumer D (Durable cc)) C = false ->
  hasStream D T = true ->
  sat (fun w => fetchState w =
                  (B, T, (C ++ [{| cons_stream := D; cons_config := cc |}])%list))
      (deliveries D (Durable cc) amount)
      (fun r w =>
         fetchState w =
           (B, T, (C ++ [{| cons_stream := D; cons_config := cc |}])%list) /\
         r = firstn B (firstn amount
               (filter (fun m => Subject m =? FilterSubject cc) (messagesOf D T)))) X.
Proof.
  intros Hfree Hs w Hw. pose proof Hw as Hw'.
  unfold fetchState in Hw'. inversion Hw' as [[Hb Ht Hc]].
  unfold deliveries, bind, gets, ret. cbv beta iota.
  rewrite Hc, Ht, Hb.
  rewrite (find_app_free _ _ _ Hfree (isConsumer_own D cc)).
  destruct (hasStream_find _ _ Hs) as [s Es].
  unfold messagesOf. rewrite Es. cbn [cons_config].
  split; [| reflexivity]. unfold fetchState. now rewrite Hb, Ht, Hc.
Qed.

Lemma sat_fetchLoop_result (P : World -> Prop) (X : World -> Prop) :
  (forall t w, P w -> P (withTrace t w)) ->
  forall amount arrivals msgs,
    sat P (fetchLoop amount arrivals msgs)
        (fun r w => P w /\ r = (msgs ++ firstn amount arrivals)%list) X.
Proof.
  intros HP. induction amount as [| n IH]; intros arrivals msgs; simpl.
  - apply sat_ret. intros w Hw. split; [exact Hw | now rewrite app_nil_r].
  - destruct arrivals as [| m rest].
    + apply sat_ret. intros w Hw. split; [exact Hw | now rewrite app_nil_r].
    + intros w Hw. unfold bind, emit, modify. cbn [fst snd].
      pose proof (IH rest (msgs ++ [m])%list
                    (withTrace (trace (withTrace (trace w ++ [E_ack (Sequence m)]) w)
                                ++ [E_collected m])
                       (withTrace (trace w ++ [E_ack (Sequence m)]) w))) as H.
      destruct (fetchLoop n rest (msgs ++ [m]) _) as [[r | |] w']; auto.
      destruct H as [H1 H2]; [auto |]. split; [exact H1 |].
      rewrite H2, <- app_assoc. reflexivity.
Qed.

Lemma sat_RemoveConsumer_fetch B T C (D : string) (cc : ConsumerConfig) :
  existsb (isConsumer D (Durable cc)) C = false ->
  sat (fun w => fetchState w =
                  (B, T, (C ++ [{| cons_stream := D; cons_config := cc |}])%list))
      (memphisRemoveConsumer D (Durable cc))
      (fun err w => match err with
                    | Some _ => True
                    | None => fetchState w = (B, T, C)
                    end) (fun _ => True).
Proof.
  intros Hfree w Hw. unfold fetchState in Hw. inversion Hw as [[Hb Ht Hc]].
  unfold memphisRemoveConsumer, bind, emit, fails, gets, modify, ret. simpl.
  destruct (existsb (Op_eqb OpRemoveConsumer) (failing w)); simpl; [exact I |].
  unfold fetchState. simpl.
  rewrite Hc, filter_app, (filter_negb_none _ _ Hfree). cbn [filter].
  rewrite isConsumer_own. cbn. now rewrite app_nil_r.
Qed.

(** One deletion while acknowledging. *)
Lemma sat_delete_acking B D subj done cur (msg : StoredMsg) (rest : list StoredMsg) :
  sat (acking B D subj done cur (msg :: rest))
      (memphisDeleteMsgFromStream D (Sequence msg))
      (fun err w => match err with
                    | None => acking B D subj done cur rest w
                    | Some _ => True
                    end) (fun _ => True).
Proof.
  intros w (Hb & Hlen & Hm).
  unfold memphisDeleteMsgFromStream, bind, emit, fails, gets, modify, ret. simpl.
  destruct (existsb (Op_eqb OpDeleteMsg) (failing w)); simpl; [exact I |].
  destruct (hasStream D (streams w)); simpl; [| exact I].
  unfold acking. simpl. rewrite messagesOf_deleteSeq.
  split; [exact Hb |]. split.
  - pose proof (filter_length_le (fun m => negb (Sequence m =? Sequence msg)%nat)
                  (messagesOf D (streams w))). lia.
  - intros m Hin. apply filter_In in Hin. destruct Hin as [Hin Hne].
    destruct (Hm m Hin) as [H1 H2]. split; [exact H1 |].
    intro Hs. destruct (H2 Hs) as [E | H]; [| exact H].
    rewrite E, Nat.eqb_refl in Hne. discriminate.
Qed.

Lemma sat_delete_all_acking B D subj done cur :
  forall msgs,
    sat (acking B D subj done cur msgs)
        (forEach msgs (fun msg =>
           err <- memphisDeleteMsgFromStream D (Sequence msg) ;;
           ifErr err (fun e =>
             Errorf ("AckPoisonMessages: " ++ e) ;;
             AbortWithStatusJSON 500 (B_message "Server error") ;;
             return_)))
        (fun _ => acking B D subj done cur []) (fun _ => True).
Proof.
  induction msgs as [| msg rest IH]; simpl.
  - apply sat_ret. auto.
  - eapply sat_bind; [| intros ?; exact IH].
    eapply sat_bind; [apply sat_delete_acking |].
    intros [e |]; simpl.
    + intros w _. simpl. exact I.
    + apply sat_ret. auto.
Qed.

(** A single step that keeps the component the invariant speaks about. *)
Ltac walk1 f R :=
  apply (@sat_bind_keeps _ _ _ f R); [solve [keeps_tac] | solve [auto] | intros ?].

Lemma AckPoisonMessages_acked K c ids sn B :
  firstStation K ids = Some sn ->
  sat (acked B (dlsStreamName K (Intern sn))
             (GetDlsSubject K "poison" (Intern sn)) [])
      (AckPoisonMessages K c ids)
      (fun _ => acked B (dlsStreamName K (Intern sn))
                      (GetDlsSubject K "poison" (Intern sn)) ids)
      (fun _ => True).
Proof.
  unfold firstStation, AckPoisonMessages, index.
  destruct (nth_error ids 0) as [firstId |]; [| discriminate].
  rewrite bind_ret_l.
  destruct (nth_error (Split firstId (dlsMsgSep K)) 0) as [stationName |];
    [| discriminate].
  rewrite bind_ret_l.
  destruct (StationNameFromStr K stationName) as [sn' [e |]]; [discriminate |].
  intros [= ->].
  set (D := dlsStreamName K (Intern sn)).
  set (subj := GetDlsSubject K "poison" (Intern sn)).
  cbn [ifErr]. rewrite bind_ret_l.
  eapply sat_bind.
  - apply (@sat_forEach_done _ (acked B D subj)) with (done := @nil string).
    intros done msgId.
    apply sat_freeze with (g := fun w => (streams w, consumers w)).
    intros [T C].
    apply sat_extract with
      (F := List.length (messagesOf D T) <= B /\
            forall id m, In id done -> In m (messagesOf D T) -> Subject m <> subj id).
    { intros w [(Hb & Hl & Hd) Hg]. inversion Hg; subst. split; assumption. }
    intros [Hlen Hdone].
    apply sat_pre with (P' := fun w => fetchState w = (B, T, C)).
    { intros w [(Hb & _) Hg]. unfold fetchState. inversion Hg. congruence. }
    walk1 fetchState (fun p : nat * list Stream * list Consumer => p = (B, T, C)).
    eapply sat_bind; [apply sat_StreamInfo_fetch |].
    intros [amount [e |]]; cbn [fst snd]; [intros ? _; exact I |].
    apply sat_assume. intro HF. destruct (HF eq_refl) as [Ha Hs]. clear HF.
    cbn [ifErr]. rewrite bind_ret_l.
    eapply sat_bind; [apply sat_AddConsumer_fetch |].
    intros [e |]; [intros ? _; exact I |].
    cbn [ifErr]. rewrite bind_ret_l.
    apply sat_assume. intro Hfree.
    match goal with
    | |- sat (fun w => fetchState w = ?p) _ _ _ =>
        walk1 fetchState (fun q : nat * list Stream * list Consumer => q = p)
    end.
    match goal with
    | |- sat _ (bind (ifErr ?err _) _) _ _ => destruct err as [e |]
    end; [intros ? _; exact I |].
    cbn [ifErr]. rewrite bind_ret_l.
    match goal with
    | |- sat (fun w => fetchState w = ?p) _ _ _ =>
        walk1 fetchState (fun q : nat * list Stream * list Consumer => q = p)
    end.
    eapply sat_bind; [apply sat_deliveries_fetch; [exact Hfree | exact Hs] |].
    intros arrivals. apply sat_assume. intro Ea.
    eapply sat_bind.
    { apply sat_fetchLoop_result. intros t w Hw. exact Hw. }
    intros msgs. apply sat_assume. intro Em.
    match goal with
    | |- sat (fun w => fetchState w = ?p) _ _ _ =>
        walk1 fetchState (fun q : nat * list Stream * list Consumer => q = p)
    end.
    eapply sat_bind; [apply sat_RemoveConsumer_fetch; exact Hfree |].
    intros [e |]; [intros ? _; exact I |].
    cbn [ifErr]. rewrite bind_ret_l.
    assert (Hmsgs : msgs = filter (fun m => Subject m =? subj msgId) (messagesOf D T)).
    { rewrite Em, Ea. cbn [app FilterSubject]. rewrite Ha.
      rewrite (firstn_filter_all _ _ (Nat.le_refl _)).
      rewrite (firstn_filter_all _ _ Hlen).
      apply (firstn_filter_all _ _ (Nat.le_refl _)). }
    eapply sat_weaken;
      [ apply (@sat_delete_all_acking B D subj done msgId msgs) | | | auto ].
    + intros w Hw. unfold fetchState in Hw. inversion Hw as [[Hb Ht Hc]].
      unfold acking. rewrite Hb, Ht. split; [reflexivity |]. split; [exact Hlen |].
      intros m Hm. split.
      * intros id Hid. now apply Hdone.
      * intro Es. rewrite Hmsgs. apply in_map. apply filter_In.
        split; [exact Hm |]. rewrite Es. apply String.eqb_refl.
    + intros _ w (Hb & Hl & Hm). unfold acked. split; [exact Hb |].
      split; [exact Hl |].
      intros id m Hid Hin. destruct (Hm m Hin) as [H1 H2].
      apply in_app_or in Hid. destruct Hid as [Hid | [<- | []]].
      * now apply H1.
      * intro Es. exact (H2 Es).
  - intros ?. cbn [app].
    apply (@sat_end_keeps _ _ (fun w => (beforeTimeout w, streams w))
             (fun p => fst p = B /\
                List.length (messagesOf D (snd p)) <= B /\
                forall id m, In id ids -> In m (messagesOf D (snd p)) ->
                             Subject m <> subj id));
      [solve [keeps_tac] | auto | auto].
Qed.

(** When no delivery is cut off by the timer (the timer admits at least as
    many deliveries as the DLS stream holds messages), a completed
    [AckPoisonMessages] leaves no message in the DLS stream that is stored
    under the poison subject of one of the acknowledged ids. *)
Theorem AckPoisonMessages_leaves_no_dead_letter
    (K : Constants) (c : GinContext) (ids : list string) (w w' : World)
    (sn : StationName) (id : string) (m : StoredMsg) :
  AckPoisonMessages K c ids w = (Next tt, w') ->
  firstStation K ids = Some sn ->
  List.length (messagesOf (dlsStreamName K (Intern sn)) (streams w))
    <= beforeTimeout w ->
  In id ids ->
  In m (messagesOf (dlsStreamName K (Intern sn)) (streams w')) ->
  Subject m <> GetDlsSubject K "poison" (Intern sn) id.
Proof.
  intros E Hsn Hlen Hid Hm.
  pose proof (@AckPoisonMessages_acked K c ids sn (beforeTimeout w) Hsn w) as H.
  rewrite E in H. destruct H as (_ & _ & H).
  - unfold acked. split; [reflexivity |]. split; [exact Hlen |].
    intros ? ? [].
  - now apply H.
Qed.

Lemma AckPoisonMessages_leaves_no_dead_letter_witness :
  Subject {| Subject := "$memphis-orders-dls.poison.orders~poison~4";
             Sequence := 4; Data := "d" |}
  <> GetDlsSubject sampleConstants "poison" "orders" "orders~poison~1".
Proof.
  apply (@AckPoisonMessages_leaves_no_dead_letter sampleConstants sampleContext
           ["orders~poison~1"] dlsWorld
           (exec (AckPoisonMessages sampleConstants sampleContext
                    ["orders~poison~1"]) dlsWorld)
           {| internal := "orders"; external := "orders" |}
           "orders~poison~1").
  - vm_compute. reflexivity.
  - reflexivity.
  - vm_compute. lia.
  - left. reflexivity.
  - vm_compute. right. left. reflexivity.
Defined.

(** ** Headers of resent dead letters *)

Lemma getHeader_setHeader (key value : string) (h : list (string * string)) :
  getHeader key (setHeader key value h) = Some value.
Proof.
  induction h as [| [k v] h IH]; simpl.
  - now rewrite String.eqb_refl.
  - destruct (k =? key) eqn:E; simpl.
    + now rewrite String.eqb_refl.
    + now rewrite E.
Qed.

Lemma getHeader_setHeader_other (key key' value : string)
    (h : list (string * string)) :
  key <> key' ->
  getHeader key (setHeader key' value h) = getHeader key h.
Proof.
  intro Hne. induction h as [| [k v] h IH]; simpl.
  - destruct (String.eqb_spec key' key); [congruence | reflexivity].
  - destruct (String.eqb_spec k key').
    + subst k. simpl. destruct (String.eqb_spec key' key); [congruence |].
      reflexivity.
    + simpl. destruct (k =? key); [reflexivity | exact IH].
Qed.

Lemma dls_subject_prefix (x : string) :
  String.prefix "$memphis_dls_" ("$memphis_dls_" ++ x) = true.
Proof. simpl. destruct x; reflexivity. Qed.

Ltac resent_ok :=
  first
    [ exact I
    | split; [apply dls_subject_prefix |]; split;
      [ eexists; rewrite getHeader_setHeader_other by discriminate;
        apply getHeader_setHeader
      | eexists; apply getHeader_setHeader ] ].

(** Every message [ResendPoisonMessages] re-publishes goes to a subject
    [$memphis_dls_...] and carries the headers [$memphis_pm_id] and
    [$memphis_pm_sequence], the latter holding a decimal sequence
    number. *)
Theorem ResendPoisonMessages_marks_resent
    (K : Constants) (c : GinContext) (ids : list string) (w : World) :
  exists t, added (trace w) (trace (exec (ResendPoisonMessages K c ids) w)) t /\
            Forall resentMarked t.
Proof.
  assert (H : emitsOnly resentMarked (ResendPoisonMessages K c ids)).
  { unfold ResendPoisonMessages. solve [emits_tac resent_ok]. }
  apply H.
Qed.

(** ** Running the lifecycle handlers *)

Lemma stations_InsertOne_eq (st : Station) (w : World) :
  failing w = [] ->
  stations_InsertOne st w =
    (Next None,
     withStations (stationsCollection w ++ [{| body := st; has_is_deleted := true |}])%list w).
Proof.
  intro H. unfold stations_InsertOne.
  erewrite bind_next; [| apply fails_none; exact H]. reflexivity.
Qed.

Lemma CreateStream_eq (sn : StationName) (st : Station) (w : World) :
  failing w = [] ->
  CreateStream sn st w =
    (Next None, withStreams (addStream (stationStreamName sn) (streams w)) w).
Proof.
  intro H. unfold CreateStream.
  erewrite bind_next; [| apply fails_none; exact H]. reflexivity.
Qed.

Lemma CreateDlsStream_eq K (sn : StationName) (st : Station) (w : World) :
  failing w = [] ->
  CreateDlsStream K sn st w =
    (Next None,
     withStreams (addStream (dlsStreamName K (Intern sn)) (streams w)) w).
Proof.
  intro H. unfold CreateDlsStream.
  erewrite bind_next; [| apply fails_none; exact H]. reflexivity.
Qed.

(** A validation block whose check passes. *)
Lemma validated_block {A} (c : bool) (v : error) (k : string -> M unit)
    (x y : A) (w : World) :
  (c = true -> v = None) ->
  (if c then (ifErr v k ;; ret x) else ret y) w = (Next (if c then x else y), w).
Proof. destruct c; [intros H; rewrite (H eq_refl) |]; reflexivity. Qed.

Lemma validated_block_pair {A B} (c : bool) (v : error) (k : string -> M unit)
    (x1 y1 : A) (x2 y2 : B) (w : World) :
  (c = true -> v = None) ->
  (if c then (ifErr v k ;; ret (x1, x2)) else ret (y1, y2)) w =
    (Next (if c then x1 else y1, if c then x2 else y2), w).
Proof. destruct c; [intros H; rewrite (H eq_refl) |]; reflexivity. Qed.

Ltac prim_eq2 H :=
  first
    [ apply IsStationExist_eq; exact H
    | apply IsSchemaExist_eq; exact H
    | apply getActiveVersionBySchemaId_eq; exact H
    | apply stations_UpdateOne_eq; exact H
    | apply stations_InsertOne_eq; exact H
    | apply CreateStream_eq; exact H
    | apply CreateDlsStream_eq; exact H
    | apply CreateAuditLogs_eq; exact H
    | apply getUserDetailsFromMiddleware_eq; exact H
    | apply fails_none; exact H
    | apply validated_block_pair; assumption
    | apply validated_block; assumption
    | reflexivity ].

Ltac step2 H :=
  erewrite bind_next; [| prim_eq2 H]; cbv beta iota zeta.

Ltac run2 Hf rew :=
  repeat first
    [ step2 Hf
    | rewrite bind_assoc
    | progress rew
    | progress cbv beta iota zeta
    | progress cbn [ifErr when negb forEach analyticsEnabled failing
                    stationsCollection schemasCollection
                    schemaVersionsCollection streams consumers
                    withAuditLogs withTrace withStations withStreams
                    withConsumers withNextID withMembers] ].

(** The regular path of [createStationDirectIntern] for a request without
    schema: the final world. *)
Lemma createStationDirectIntern_success
    (K : Constants) (c : client) (reply : string) (csr : createStationRequest)
    (w : World) (sn : StationName) :
  StationNameFromStr K (csr_StationName csr) = (sn, None) ->
  failing w = [] ->
  findOne (liveByName (Ext sn)) (stationsCollection w) = None ->
  csr_SchemaName csr = "" ->
  acceptable K csr ->
  exists w' t,
    createStationDirectIntern K c reply csr None w = (Next tt, w') /\
    stationsCollection w' =
      (stationsCollection w ++
       [{| body := newStationOf c csr sn (nextID w) (now w) true;
           has_is_deleted := true |}])%list /\
    streams w' =
      addStream (dlsStreamName K (Intern sn)) (addStream (Intern sn) (streams w)) /\
    trace w' = (trace w ++ t ++ [E_respond reply ""])%list /\
    repliesOn reply t = [] /\
    failing w' = [].
Proof.
  intros Hn Hf Hnone Hsch (Hrt & Hst & Hrep).
  destruct (analyticsEnabled w) eqn:Ea.
  all: eexists; unfold createStationDirectIntern;
    run2 Hf ltac:(first [rewrite Hn | rewrite Hnone | rewrite Hsch | rewrite Ea]).
  all: [> refine (ex_intro _ [_; _] _) | refine (ex_intro _ [_] _) ].
  all: split; [reflexivity |].
  all: cbn [stationsCollection streams trace failing now nextID
            withTrace withAuditLogs withStations withStreams withNextID].
  all: unfold newStationOf, stationStreamName;
    repeat split; try rewrite <- !app_assoc; try reflexivity; try exact Hf.
Qed.

Lemma find_app_last {A} (p : A -> bool) (l : list A) (x : A) :
  find p l = None -> p x = true -> find p (l ++ [x]) = Some x.
Proof.
  induction l as [| y l IH]; simpl; intros H Hx.
  - now rewrite Hx.
  - destruct (p y); [discriminate | auto].
Qed.

Lemma stations_FindOne_eq (f : Filter) (w : World) :
  failing w = [] ->
  stations_FindOne f w =
    (Next match findOne f (stationsCollection w) with
          | Some d => Found (decodeStation d)
          | None => ErrNoDocuments
          end, w).
Proof.
  intro H. unfold stations_FindOne.
  erewrite bind_next; [| apply fails_none; exact H].
  unfold bind, gets.
  destruct (findOne f (stationsCollection w)); reflexivity.
Qed.

Lemma GetTagsByStation_eq (id : nat) (w : World) :
  failing w = [] -> GetTagsByStation id w = (Next ([], None), w).
Proof.
  intro H. unfold GetTagsByStation.
  erewrite bind_next; [| apply fails_none; exact H]. reflexivity.
Qed.

(** A station created over the SDK is found afterwards: for a request
    without schema that passes the validations, on a name that is not
    taken and with no failing call, [createStationDirect] answers with the
    empty message, both streams of the station exist, and [GetStation] for
    the canonical name answers 200 with the station as requested, its
    omitted attributes defaulted, the storage type [file] shown as
    [disk]. *)
Theorem created_station_is_found
    (K : Constants) (c : client) (gc : GinContext) (reply : string)
    (csr : createStationRequest) (w : World) (sn : StationName) :
  StationNameFromStr K (csr_StationName csr) = (sn, None) ->
  failing w = [] ->
  findOne (liveByName (Ext sn)) (stationsCollection w) = None ->
  csr_SchemaName csr = "" ->
  acceptable K csr ->
  let w' := exec (createStationDirect K c reply (Decoded csr)) w in
  let st := newStationOf c csr sn (nextID w) (now w) true in
  repliesOn reply (trace w') = (repliesOn reply (trace w) ++ [""])%list /\
  hasStream (Intern sn) (streams w') = true /\
  hasStream (dlsStreamName K (Intern sn)) (streams w') = true /\
  GetStation K gc (Ext sn) w' =
    (Next tt,
     withTrace (trace w' ++
       [E_http 200
          (B_station st
             (B_tags [] (if StorageType st =? "file" then "disk"
                         else StorageType st)))])%list w').
Proof.
  intros Hn Hf Hnone Hsch Hacc w' st.
  destruct (@createStationDirectIntern_success K c reply csr w sn Hn Hf Hnone Hsch Hacc)
    as (w1 & t & E & Hs & Hst & Ht & Hr & Hf1).
  assert (Ew : w' = w1) by (subst w'; unfold exec, createStationDirect; now rewrite E).
  rewrite Ew. clear Ew w' E.
  split; [| split; [| split]].
  - rewrite Ht, !repliesOn_app, Hr. cbn. now rewrite String.eqb_refl.
  - rewrite Hst. apply hasStream_addStream, hasStream_addStream_same.
  - rewrite Hst. apply hasStream_addStream_same.
  - unfold GetStation.
    erewrite bind_next; [| apply stations_FindOne_eq; exact Hf1].
    change (GetStation_filter (Ext sn)) with (liveByName (Ext sn)).
    rewrite Hs. unfold findOne in *. subst st.
    rewrite (@find_app_last _ _ _
               {| body := newStationOf c csr sn (nextID w) (now w) true;
                  has_is_deleted := true |} Hnone).
    2:{ cbn. now rewrite String.eqb_refl. }
    cbv beta iota.
    erewrite bind_next; [| apply GetTagsByStation_eq; exact Hf1].
    reflexivity.
Qed.

Lemma created_station_is_found_witness :
  let w' := exec (createStationDirect sampleConstants sampleClient "reply"
                    (Decoded (sampleCreate "Orders" 0))) emptyWorld in
  let st := newStationOf sampleClient (sampleCreate "Orders" 0)
              {| internal := "orders"; external := "orders" |} 1 0 true in
  repliesOn "reply" (trace w') = [""] /\
  hasStream "orders" (streams w') = true /\
  hasStream "$memphis-orders-dls" (streams w') = true /\
  GetStation sampleConstants sampleContext "orders" w' =
    (Next tt,
     withTrace (trace w' ++
       [E_http 200 (B_station st (B_tags [] "disk"))])%list w').
Proof.
  apply (@created_station_is_found sampleConstants sampleClient sampleContext
           "reply" (sampleCreate "Orders" 0) emptyWorld
           {| internal := "orders"; external := "orders" |}).
  - reflexivity.
  - reflexivity.
  - reflexivity.
  - reflexivity.
  - repeat split; discriminate.
Defined.

(** ** Destroying a station *)

Lemma RemoveStream_eq (name : string) (w : World) :
  failing w = [] ->
  hasStream name (streams w) = true ->
  RemoveStream name w =
    (Next None,
     withStreams (filter (fun s => negb (stream_name s =? name)) (streams w)) w).
Proof.
  intros H Hs. unfold RemoveStream.
  erewrite bind_next; [| apply fails_none; exact H].
  cbv beta iota. unfold bind, gets. now rewrite Hs.
Qed.

Lemma producers_UpdateMany_eq (id : nat) (w : World) :
  failing w = [] ->
  producers_UpdateMany id w =
    (Next None,
     withMembers (map (markRemoved id) (producersCollection w))
                 (consumersCollection w) w).
Proof.
  intro H. unfold producers_UpdateMany.
  erewrite bind_next; [| apply fails_none; exact H]. reflexivity.
Qed.

Lemma consumers_UpdateMany_eq (id : nat) (w : World) :
  failing w = [] ->
  consumers_UpdateMany id w =
    (Next None,
     withMembers (producersCollection w)
                 (map (markRemoved id) (consumersCollection w)) w).
Proof.
  intro H. unfold consumers_UpdateMany.
  erewrite bind_next; [| apply fails_none; exact H]. reflexivity.
Qed.

Lemma RemoveAllAuditLogsByStation_eq (name : string) (w : World) :
  failing w = [] ->
  RemoveAllAuditLogsByStation name w =
    (Next None,
     withAuditLogs
       (filter (fun l => negb (al_StationName l =? name)) (auditLogsCollection w)) w).
Proof.
  intro H. unfold RemoveAllAuditLogsByStation.
  erewrite bind_next; [| apply fails_none; exact H]. reflexivity.
Qed.

Lemma hasStream_filter_other (n m : string) (l : list Stream) :
  n <> m -> hasStream n l = true ->
  hasStream n (filter (fun s => negb (stream_name s =? m)) l) = true.
Proof.
  intros Hne. unfold hasStream. induction l as [| s l IH]; simpl; [auto |].
  destruct (String.eqb_spec (stream_name s) n) as [E | E]; simpl.
  - intros _. destruct (String.eqb_spec (stream_name s) m) as [E' | E']; simpl.
    + congruence.
    + apply String.eqb_eq in E. now rewrite E.
  - intro H. destruct (negb (stream_name s =? m)); simpl; auto.
    apply String.eqb_neq in E. rewrite E. simpl. auto.
Qed.

Lemma hasStream_filter_same (n : string) (l : list Stream) :
  hasStream n (filter (fun s => negb (stream_name s =? n)) l) = false.
Proof.
  unfold hasStream. induction l as [| s l IH]; simpl; [reflexivity |].
  destruct (stream_name s =? n) eqn:E; simpl; [exact IH |].
  now rewrite E.
Qed.

Lemma hasStream_filter_gone (n m : string) (l : list Stream) :
  hasStream n l = false ->
  hasStream n (filter (fun s => negb (stream_name s =? m)) l) = false.
Proof.
  unfold hasStream. induction l as [| s l IH]; simpl; [reflexivity |].
  intro H. apply orb_false_elim in H. destruct H as [H1 H2].
  destruct (negb (stream_name s =? m)); simpl; auto.
  rewrite H1. simpl. auto.
Qed.

(** The regular path of [removeStationResources]. *)
Lemma removeStationResources_success
    (K : Constants) (station : Station) (sn : StationName) (w : World) :
  StationNameFromStr K (Name station) = (sn, None) ->
  failing w = [] ->
  hasStream (Intern sn) (streams w) = true ->
  hasStream (dlsStreamName K (Intern sn)) (streams w) = true ->
  dlsStreamName K (Intern sn) <> Intern sn ->
  removeStationResources K station None w =
    (Next None,
     withAuditLogs
       (filter (fun l => negb (al_StationName l =? Name station))
               (auditLogsCollection w))
       (withMembers
          (map (markRemoved (ID station)) (producersCollection w))
          (map (markRemoved (ID station)) (consumersCollection w))
          (withStreams
             (filter (fun s => negb (stream_name s =? dlsStreamName K (Intern sn)))
                (filter (fun s => negb (stream_name s =? Intern sn)) (streams w)))
             w))).
Proof.
  intros Hn Hf Hs Hd Hne.
  unfold removeStationResources. rewrite Hn.
  erewrite bind_next; [| apply RemoveStream_eq; [exact Hf | exact Hs]].
  cbv beta iota.
  erewrite bind_next;
    [| apply RemoveStream_eq;
       [exact Hf | apply hasStream_filter_other; [exact Hne | exact Hd]]].
  cbv beta iota.
  unfold DeleteTagsFromStation. rewrite bind_ret_l.
  erewrite bind_next; [| apply producers_UpdateMany_eq; exact Hf].
  cbv beta iota.
  erewrite bind_next; [| apply consumers_UpdateMany_eq; exact Hf].
  cbv beta iota.
  erewrite bind_next; [| apply RemoveAllAuditLogsByStation_eq; exact Hf].
  reflexivity.
Qed.

Lemma tombstone_not_live (n : string) (d : StationDoc) :
  matches (liveByName n) (applyUpdate (U_set_is_deleted true) d) = false.
Proof. cbn. apply andb_false_r. Qed.

(** The tombstone update takes the first live document of the name out of
    the live ones. *)
Lemma liveStations_tombstone (n : string) (l : list StationDoc) :
  filter (matches (liveByName n))
         (updateOne (removeStationDirectIntern_filter n) (U_set_is_deleted true) l)
  = tl (filter (matches (liveByName n)) l).
Proof.
  change (removeStationDirectIntern_filter n) with (liveByName n).
  induction l as [| d l IH]; [reflexivity |].
  cbn [updateOne filter].
  destruct (matches (liveByName n) d) eqn:E.
  - cbn [filter]. now rewrite tombstone_not_live.
  - cbn [filter]. rewrite E. exact IH.
Qed.

Lemma live_name (n : string) (l : list StationDoc) (d : StationDoc) :
  findOne (liveByName n) l = Some d -> Name (body d) = n.
Proof.
  intro H. apply find_some in H. destruct H as [_ H]. cbn in H.
  apply andb_prop in H. destruct H as [H _]. now apply String.eqb_eq.
Qed.

(** The regular path of [removeStationDirectIntern]: the final world. *)
Lemma removeStationDirectIntern_success
    (K : Constants) (c : client) (reply : string) (dsr : destroyStationRequest)
    (w : World) (sn : StationName) (d : StationDoc) :
  StationNameFromStr K (dsr_StationName dsr) = (sn, None) ->
  StationNameFromStr K (Ext sn) = (sn, None) ->
  failing w = [] ->
  findOne (liveByName (Ext sn)) (stationsCollection w) = Some d ->
  hasStream (Intern sn) (streams w) = true ->
  hasStream (dlsStreamName K (Intern sn)) (streams w) = true ->
  dlsStreamName K (Intern sn) <> Intern sn ->
  exists w' t,
    removeStationDirectIntern K c reply dsr None w = (Returned, w') /\
    stationsCollection w' =
      updateOne (removeStationDirectIntern_filter (Ext sn)) (U_set_is_deleted true)
                (stationsCollection w) /\
    streams w' =
      filter (fun s => negb (stream_name s =? dlsStreamName K (Intern sn)))
        (filter (fun s => negb (stream_name s =? Intern sn)) (streams w)) /\
    producersCollection w' =
      map (markRemoved (ID (body d))) (producersCollection w) /\
    consumersCollection w' =
      map (markRemoved (ID (body d))) (consumersCollection w) /\
    trace w' = (trace w ++ t ++ [E_respond reply ""])%list /\
    repliesOn reply t = [] /\
    failing w' = [].
Proof.
  intros Hn Hext Hf Hd Hs Hdls Hne.
  pose proof (live_name _ _ Hd) as Hname.
  assert (Hn' : StationNameFromStr K (Name (decodeStation d)) = (sn, None))
    by (change (Name (decodeStation d)) with (Name (body d)); now rewrite Hname).
  refine (ex_intro _ _ (ex_intro _ [_] _)).
  unfold removeStationDirectIntern. rewrite Hn.
  cbn [ifErr]. rewrite bind_ret_l.
  erewrite bind_next; [| apply IsStationExist_eq; exact Hf].
  rewrite Hd. cbv beta iota. cbn [ifErr when negb]. rewrite !bind_ret_l.
  erewrite bind_next;
    [| apply (@removeStationResources_success K _ sn _ Hn' Hf Hs Hdls Hne)].
  cbn [ifErr]. rewrite bind_ret_l.
  run2 Hf ltac:(fail).
  split; [reflexivity |].
  cbn [stationsCollection streams trace failing producersCollection
       consumersCollection withTrace withAuditLogs withStations withStreams
       withMembers].
  repeat split; try rewrite <- !app_assoc; try reflexivity; try exact Hf.
Qed.

Lemma markRemoved_marks (id : nat) (l : list Member) (m : Member) :
  In m (map (markRemoved id) l) -> m_station_id m = id ->
  m_is_active m = false /\ m_is_deleted m = true.
Proof.
  intros Hin Hid. apply in_map_iff in Hin. destruct Hin as (m0 & <- & _).
  unfold markRemoved in *.
  destruct (Nat.eqb_spec (m_station_id m0) id) as [E | E]; cbn in *.
  - split; reflexivity.
  - contradiction.
Qed.

(** A station destroyed over the SDK is gone: when the station is live,
    both of its streams exist and no call fails, [removeStationDirect]
    answers with the empty message, removes both streams, takes the
    station document out of the live ones, and leaves every producer and
    consumer of the station inactive and deleted. *)
Theorem destroyed_station_is_gone
    (K : Constants) (c : client) (reply : string) (dsr : destroyStationRequest)
    (w : World) (sn : StationName) (d : StationDoc) :
  StationNameFromStr K (dsr_StationName dsr) = (sn, None) ->
  StationNameFromStr K (Ext sn) = (sn, None) ->
  failing w = [] ->
  findOne (liveByName (Ext sn)) (stationsCollection w) = Some d ->
  hasStream (Intern sn) (streams w) = true ->
  hasStream (dlsStreamName K (Intern sn)) (streams w) = true ->
  dlsStreamName K (Intern sn) <> Intern sn ->
  let w' := exec (removeStationDirect K c reply (Decoded dsr)) w in
  repliesOn reply (trace w') = (repliesOn reply (trace w) ++ [""])%list /\
  hasStream (Intern sn) (streams w') = false /\
  hasStream (dlsStreamName K (Intern sn)) (streams w') = false /\
  liveStations (Ext sn) w' = tl (liveStations (Ext sn) w) /\
  (forall m, In m (producersCollection w' ++ consumersCollection w') ->
             m_station_id m = ID (body d) ->
             m_is_active m = false /\ m_is_deleted m = true).
Proof.
  intros Hn Hext Hf Hd Hs Hdls Hne w'.
  destruct (@removeStationDirectIntern_success K c reply dsr w sn d
              Hn Hext Hf Hd Hs Hdls Hne)
    as (w1 & t & E & Hst & Hstr & Hp & Hc & Ht & Hr & Hf1).
  assert (Ew : w' = w1) by (subst w'; unfold exec, removeStationDirect; now rewrite E).
  rewrite Ew. clear Ew w' E.
  split; [| split; [| split; [| split]]].
  - rewrite Ht, !repliesOn_app, Hr. cbn. now rewrite String.eqb_refl.
  - rewrite Hstr. apply hasStream_filter_gone, hasStream_filter_same.
  - rewrite Hstr. apply hasStream_filter_same.
  - unfold liveStations. rewrite Hst. apply liveStations_tombstone.
  - intros m Hin. rewrite Hp, Hc in Hin. apply in_app_or in Hin.
    destruct Hin as [Hin | Hin]; eapply markRemoved_marks; eauto.
Qed.

Lemma destroyed_station_is_gone_witness :
  let w' := exec (removeStationDirect sampleConstants sampleClient "reply"
                    (Decoded {| dsr_StationName := "Orders" |})) schemaWorld in
  repliesOn "reply" (trace w') = [""] /\
  hasStream "orders" (streams w') = false /\
  hasStream "$memphis-orders-dls" (streams w') = false /\
  liveStations "orders" w' = [] /\
  (forall m, In m (producersCollection w' ++ consumersCollection w') ->
             m_station_id m = 7 ->
             m_is_active m = false /\ m_is_deleted m = true).
Proof.
  apply (@destroyed_station_is_gone sampleConstants sampleClient "reply"
           {| dsr_StationName := "Orders" |} schemaWorld
           {| internal := "orders"; external := "orders" |}
           {| body := ordersStation; has_is_deleted := true |}).
  - reflexivity.
  - reflexivity.
  - reflexivity.
  - reflexivity.
  - reflexivity.
  - reflexivity.
  - discriminate.
Defined.

Lemma find_none_filter {A} (p : A -> bool) (l : list A) :
  find p l = None -> filter p l = [].
Proof.
  induction l as [| x l IH]; simpl; [reflexivity |].
  destruct (p x); [discriminate | exact IH].
Qed.

Lemma filter_nil_find {A} (p : A -> bool) (l : list A) :
  filter p l = [] -> find p l = None.
Proof.
  induction l as [| x l IH]; simpl; [reflexivity |].
  destruct (p x); [discriminate | exact IH].
Qed.

(** A tombstone does not block the name: creating a station, destroying it
    and creating it again over the SDK succeeds three times; in the end
    exactly one live document of the name exists, next to the tombstoned
    first one, and both streams exist. *)
Theorem recreation_after_destruction
    (K : Constants) (c : client) (r1 r2 r3 : string)
    (csr : createStationRequest) (w : World) (sn : StationName) :
  StationNameFromStr K (csr_StationName csr) = (sn, None) ->
  StationNameFromStr K (Ext sn) = (sn, None) ->
  failing w = [] ->
  findOne (liveByName (Ext sn)) (stationsCollection w) = None ->
  csr_SchemaName csr = "" ->
  acceptable K csr ->
  dlsStreamName K (Intern sn) <> Intern sn ->
  let w1 := exec (createStationDirect K c r1 (Decoded csr)) w in
  let w2 := exec (removeStationDirect K c r2
                    (Decoded {| dsr_StationName := csr_StationName csr |})) w1 in
  let w3 := exec (createStationDirect K c r3 (Decoded csr)) w2 in
  let first := newStationOf c csr sn (nextID w) (now w) true in
  let second := newStationOf c csr sn (nextID w2) (now w2) true in
  repliesOn r2 (trace w2) = (repliesOn r2 (trace w1) ++ [""])%list /\
  repliesOn r3 (trace w3) = (repliesOn r3 (trace w2) ++ [""])%list /\
  liveStations (Ext sn) w2 = [] /\
  liveStations (Ext sn) w3 = [{| body := second; has_is_deleted := true |}] /\
  In {| body := setIsDeleted true first; has_is_deleted := true |}
     (stationsCollection w3) /\
  hasStream (Intern sn) (streams w3) = true /\
  hasStream (dlsStreamName K (Intern sn)) (streams w3) = true.
Proof.
  intros Hn Hext Hf Hnone Hsch Hacc Hne w1 w2 w3 first second.
  destruct (@createStationDirectIntern_success K c r1 csr w sn
              Hn Hf Hnone Hsch Hacc)
    as (v1 & t1 & E1 & Hs1 & Hst1 & Ht1 & Hr1 & Hf1).
  assert (Ew1 : w1 = v1)
    by (subst w1; unfold exec, createStationDirect; now rewrite E1).
  assert (Hd1 : findOne (liveByName (Ext sn)) (stationsCollection v1) =
                Some {| body := first; has_is_deleted := true |}).
  { rewrite Hs1. unfold findOne in *. apply find_app_last; [exact Hnone |].
    cbn. now rewrite String.eqb_refl. }
  assert (Hlive1 : liveStations (Ext sn) v1 =
                   [{| body := first; has_is_deleted := true |}]).
  { unfold liveStations. rewrite Hs1, filter_app.
    unfold findOne in Hnone. rewrite (find_none_filter _ _ Hnone).
    cbn. now rewrite String.eqb_refl. }
  destruct (@removeStationDirectIntern_success K c r2
              {| dsr_StationName := csr_StationName csr |} v1 sn _
              Hn Hext Hf1 Hd1)
    as (v2 & t2 & E2 & Hs2 & Hst2 & _ & _ & Ht2 & Hr2 & Hf2).
  { rewrite Hst1. apply hasStream_addStream, hasStream_addStream_same. }
  { rewrite Hst1. apply hasStream_addStream_same. }
  { exact Hne. }
  assert (Ew2 : w2 = v2)
    by (subst w2; rewrite Ew1; unfold exec, removeStationDirect; now rewrite E2).
  assert (Hlive2 : liveStations (Ext sn) v2 = []).
  { unfold liveStations. rewrite Hs2, liveStations_tombstone.
    fold (liveStations (Ext sn) v1). now rewrite Hlive1. }
  assert (Hnone2 : findOne (liveByName (Ext sn)) (stationsCollection v2) = None)
    by (apply filter_nil_find; exact Hlive2).
  destruct (@createStationDirectIntern_success K c r3 csr v2 sn
              Hn Hf2 Hnone2 Hsch Hacc)
    as (v3 & t3 & E3 & Hs3 & Hst3 & Ht3 & Hr3 & Hf3).
  assert (Ew3 : w3 = v3)
    by (subst w3; rewrite Ew2; unfold exec, createStationDirect; now rewrite E3).
  subst second. rewrite Ew3, Ew2, Ew1. clear Ew1 Ew2 Ew3 w1 w2 w3 E1 E2 E3.
  split; [| split; [| split; [| split; [| split; [| split]]]]].
  - rewrite Ht2, !repliesOn_app, Hr2. cbn. now rewrite String.eqb_refl.
  - rewrite Ht3, !repliesOn_app, Hr3. cbn. now rewrite String.eqb_refl.
  - exact Hlive2.
  - unfold liveStations. rewrite Hs3, filter_app.
    fold (liveStations (Ext sn) v2). rewrite Hlive2.
    cbn. now rewrite String.eqb_refl.
  - rewrite Hs3, Hs2, Hs1. apply in_or_app. left.
    change (removeStationDirectIntern_filter (Ext sn)) with (liveByName (Ext sn)).
    clear - Hnone. unfold findOne in Hnone.
    induction (stationsCollection w) as [| x l IH]; cbn [app updateOne].
    + cbn. rewrite String.eqb_refl. cbn. left. reflexivity.
    + cbn [find] in Hnone.
      destruct (matches (liveByName (Ext sn)) x); [discriminate |].
      right. now apply IH.
  - rewrite Hst3. apply hasStream_addStream, hasStream_addStream_same.
  - rewrite Hst3. apply hasStream_addStream_same.
Qed.

Lemma recreation_after_destruction_witness :
  let K := sampleConstants in
  let c := sampleClient in
  let csr := sampleCreate "Orders" 0 in
  let sn := {| internal := "orders"; external := "orders" |} in
  let w1 := exec (createStationDirect K c "r1" (Decoded csr)) emptyWorld in
  let w2 := exec (removeStationDirect K c "r2"
                    (Decoded {| dsr_StationName := "Orders" |})) w1 in
  let w3 := exec (createStationDirect K c "r3" (Decoded csr)) w2 in
  let first := newStationOf c csr sn (nextID emptyWorld) (now emptyWorld) true in
  let second := newStationOf c csr sn (nextID w2) (now w2) true in
  repliesOn "r2" (trace w2) = (repliesOn "r2" (trace w1) ++ [""])%list /\
  repliesOn "r3" (trace w3) = (repliesOn "r3" (trace w2) ++ [""])%list /\
  liveStations "orders" w2 = [] /\
  liveStations "orders" w3 = [{| body := second; has_is_deleted := true |}] /\
  In {| body := setIsDeleted true first; has_is_deleted := true |}
     (stationsCollection w3) /\
  hasStream "orders" (streams w3) = true /\
  hasStream "$memphis-orders-dls" (streams w3) = true.
Proof.
  apply (@recreation_after_destruction sampleConstants sampleClient
           "r1" "r2" "r3" (sampleCreate "Orders" 0) emptyWorld
           {| internal := "orders"; external := "orders" |}).
  - reflexivity.
  - reflexivity.
  - reflexivity.
  - reflexivity.
  - reflexivity.
  - repeat split; discriminate.
  - discriminate.
Defined.

(** ** Stored stations are well formed *)

Lemma validateRetentionType_ok (s : string) :
  validateRetentionType s = None ->
  In s ["message_age_sec"; "messages"; "bytes"].
Proof.
  unfold validateRetentionType.
  destruct (String.eqb_spec s "message_age_sec") as [-> | _]; [intros _; now left |].
  destruct (String.eqb_spec s "messages") as [-> | _]; [intros _; right; now left |].
  destruct (String.eqb_spec s "bytes") as [-> | _];
    [intros _; right; right; now left | discriminate].
Qed.

Lemma validateStorageType_ok (s : string) :
  validateStorageType s = None -> In s ["file"; "memory"].
Proof.
  unfold validateStorageType.
  destruct (String.eqb_spec s "file") as [-> | _]; [intros _; now left |].
  destruct (String.eqb_spec s "memory") as [-> | _];
    [intros _; right; now left | discriminate].
Qed.

Lemma validateReplicas_ok (r : Z) :
  validateReplicas r = None -> (r <= 5)%Z.
Proof.
  unfold validateReplicas. destruct (Z.ltb_spec 5 r); [discriminate | lia].
Qed.

Lemma window_at_least_100 (x : Z) :
  (100 <= (if (x <=? 0)%Z then 120000%Z else if (x <? 100)%Z then 100%Z else x))%Z.
Proof.
  destruct (Z.leb_spec x 0); [lia |]. destruct (Z.ltb_spec x 100); lia.
Qed.

(** A validation block: either its check passed or it was skipped; a
    failing check leaves the handler. *)
Lemma sat_validated {A} (P : World -> Prop) (c : bool) (v : error)
    (k : string -> M unit) (x y : A) (X : World -> Prop) :
  (forall e, sat P (k e) (fun _ _ => False) X) ->
  sat P (if c then (ifErr v k ;; ret x) else ret y)
      (fun r w => P w /\ ((c = true /\ v = None /\ r = x) \/ (c = false /\ r = y))) X.
Proof.
  intros Hk. destruct c.
  - destruct v as [e |]; cbn [ifErr].
    + eapply sat_bind; [apply Hk |]. intros ? w [].
    + rewrite bind_ret_l. apply sat_ret. intros w Hw. split; [exact Hw |].
      left. repeat split.
  - apply sat_ret. intros w Hw. split; [exact Hw |]. right. split; reflexivity.
Qed.

(** Error branches: they keep the component and leave the handler. *)
Ltac leaves f R :=
  repeat first
    [ apply (@sat_bind_keeps _ _ _ f R); [solve [keeps_tac] | solve [auto] | intros ?]
    | apply sat_return; solve [auto]
    | match goal with
      | |- sat _ (match ?x with _ => _ end) _ _ => destruct x
      end
    | progress cbv zeta ].

Tactic Notation "skip" constr(f) constr(R) "as" simple_intropattern(p) :=
  apply (@sat_bind_keeps _ _ _ f R); [solve [keeps_tac] | solve [auto] | intros p].

Lemma createStationDirectIntern_stored K c reply csr (S0 : list StationDoc) :
  sat (fun w => stationsCollection w = S0)
      (createStationDirectIntern K c reply csr None)
      (fun _ w' => storedFor (csr_StationName csr) S0 (stationsCollection w'))
      (fun w' => storedFor (csr_StationName csr) S0 (stationsCollection w')).
Proof.
  unfold createStationDirectIntern.
  assert (HX : forall w, stationsCollection w = S0 ->
                 storedFor (csr_StationName csr) S0 (stationsCollection w))
    by (intros ? ->; now left).
  destruct (StationNameFromStr K (csr_StationName csr)) as [sn [e |]] eqn:En.
  { apply (@sat_end_keeps _ _ stationsCollection (fun s => s = S0));
      [solve [keeps_tac] | auto | auto]. }
  assert (Hext : Ext sn = ToLower (csr_StationName csr))
    by (destruct (@StationNameFromStr_ok K _ _ En) as [_ ->]; reflexivity).
  skip stationsCollection (fun s : list StationDoc => s = S0) as ?.
  skip stationsCollection (fun s : list StationDoc => s = S0) as [[exist_ ?] err].
  skip stationsCollection (fun s : list StationDoc => s = S0) as ?.
  skip stationsCollection (fun s : list StationDoc => s = S0) as ?.
  skip stationsCollection (fun s : list StationDoc => s = S0) as schemaDetails.
  eapply sat_bind.
  { apply sat_validated. intro e.
    leaves stationsCollection (fun s : list StationDoc => s = S0). }
  intros [retentionType retentionValue].
  apply sat_assume. intro Hret.
  eapply sat_bind.
  { apply sat_validated. intro e.
    leaves stationsCollection (fun s : list StationDoc => s = S0). }
  intros storageType.
  apply sat_assume. intro Hsto.
  eapply sat_bind.
  { apply sat_validated. intro e.
    leaves stationsCollection (fun s : list StationDoc => s = S0). }
  intros replicas.
  apply sat_assume. intro Hrep.
  assert (Hwf : forall id t1 t2 sd u dd dw dc nat_,
            wellFormed
              {| body :=
                   {| ID := id; Name := Ext sn; RetentionType := retentionType;
                      RetentionValue := retentionValue; StorageType := storageType;
                      Replicas := replicas; DedupEnabled := dd;
                      DedupWindowInMs := dw; CreatedByUser := u;
                      CreationDate := t1; LastUpdate := t2; Functions := [];
                      IsDeleted := false; Schema := sd;
                      IdempotencyWindow :=
                        if (csr_IdempotencyWindow csr <=? 0)%Z then 120000%Z
                        else if (csr_IdempotencyWindow csr <? 100)%Z then 100%Z
                        else csr_IdempotencyWindow csr;
                      DlsConfig := dc; IsNative := nat_ |};
                 has_is_deleted := true |}).
  { intros. unfold wellFormed. cbn.
    split; [reflexivity |]. split; [reflexivity |]. split; [| split; [| split; [| split]]].
    - destruct Hret as [(_ & Hv & [= -> _]) | (_ & [= -> _])];
        [now apply validateRetentionType_ok | now left].
    - destruct Hsto as [(_ & Hv & ->) | (_ & ->)];
        [now apply validateStorageType_ok | now left].
    - destruct Hrep as [(Hp & Hv & ->) | (_ & ->)]; [| lia].
      apply validateReplicas_ok in Hv. apply Z.ltb_lt in Hp. lia.
    - apply window_at_least_100.
    - reflexivity. }
  walk stationsCollection (fun s : list StationDoc => s = S0).
  eapply sat_bind; [apply sat_InsertOne |].
  intros [? |].
  - walk stationsCollection (fun s : list StationDoc => s = S0).
    apply (@sat_end_keeps _ _ stationsCollection (fun s => s = S0));
      [solve [keeps_tac] | auto | auto].
  - match goal with
    | |- sat (fun w => _ = (S0 ++ [?d])%list) _ _ _ =>
        assert (HX' : forall w, stationsCollection w = (S0 ++ [d])%list ->
                 storedFor (csr_StationName csr) S0 (stationsCollection w))
          by (intros ? ->; right; eexists; split; [reflexivity |]; split;
              [apply Hwf | exact Hext]);
        walk stationsCollection (fun s : list StationDoc => s = (S0 ++ [d])%list);
        apply (@sat_end_keeps _ _ stationsCollection (fun s => s = (S0 ++ [d])%list));
          [solve [keeps_tac] | auto | auto]
    end.
Qed.

Lemma CreateStation_stored K c body_ (S0 : list StationDoc) :
  sat (fun w => stationsCollection w = S0)
      (CreateStation K c body_)
      (fun _ w' => storedFor (css_Name body_) S0 (stationsCollection w'))
      (fun w' => storedFor (css_Name body_) S0 (stationsCollection w')).
Proof.
  unfold CreateStation.
  assert (HX : forall w, stationsCollection w = S0 ->
                 storedFor (css_Name body_) S0 (stationsCollection w))
    by (intros ? ->; now left).
  destruct (StationNameFromStr K (css_Name body_)) as [sn [e |]] eqn:En.
  { apply (@sat_end_keeps _ _ stationsCollection (fun s => s = S0));
      [solve [keeps_tac] | auto | auto]. }
  assert (Hext : Ext sn = ToLower (css_Name body_))
    by (destruct (@StationNameFromStr_ok K _ _ En) as [_ ->]; reflexivity).
  skip stationsCollection (fun s : list StationDoc => s = S0) as ?.
  skip stationsCollection (fun s : list StationDoc => s = S0) as [[exist_ ?] err].
  skip stationsCollection (fun s : list StationDoc => s = S0) as ?.
  skip stationsCollection (fun s : list StationDoc => s = S0) as ?.
  skip stationsCollection (fun s : list StationDoc => s = S0) as [user uerr].
  skip stationsCollection (fun s : list StationDoc => s = S0) as ?.
  skip stationsCollection (fun s : list StationDoc => s = S0)
    as [[schemaName schemaDetails] schemaDetailsResponse].
  eapply sat_bind.
  { apply sat_validated. intro e.
    leaves stationsCollection (fun s : list StationDoc => s = S0). }
  intros [retentionType retentionValue].
  apply sat_assume. intro Hret.
  eapply sat_bind.
  { apply sat_validated. intro e.
    leaves stationsCollection (fun s : list StationDoc => s = S0). }
  intros storageType.
  apply sat_assume. intro Hsto.
  cbv zeta.
  eapply sat_bind.
  { apply sat_validated. intro e.
    leaves stationsCollection (fun s : list StationDoc => s = S0). }
  intros replicas.
  apply sat_assume. intro Hrep.
  assert (Hrt_in : In retentionType ["message_age_sec"; "messages"; "bytes"]).
  { destruct Hret as [(_ & Hv & [= -> _]) | (_ & [= -> _])];
      [now apply validateRetentionType_ok | now left]. }
  assert (Hst_in : In storageType ["file"; "memory"]).
  { destruct Hsto as [(_ & Hv & ->) | (_ & ->)];
      [now apply validateStorageType_ok | now left]. }
  assert (Hrep_in : (1 <= replicas <= 5)%Z).
  { destruct Hrep as [(Hp & Hv & ->) | (_ & ->)]; [| lia].
    apply validateReplicas_ok in Hv. apply Z.ltb_lt in Hp. lia. }
  pose proof (window_at_least_100 (css_IdempotencyWindow body_)) as Hwin.
  clear Hret Hsto Hrep.
  walk stationsCollection (fun s : list StationDoc => s = S0).
  eapply sat_bind; [apply sat_UpsertOne |].
  intros [mc [? |]]; cbn [fst snd].
  - walk stationsCollection (fun s : list StationDoc => s = S0).
    apply (@sat_end_keeps _ _ stationsCollection (fun s => s = S0));
      [solve [keeps_tac] | auto | auto].
  - unfold upsertOne, matchedCount.
    match goal with
    | |- context [existsb ?p S0] => destruct (existsb p S0)
    end.
    + apply sat_pre with (P' := fun w => stationsCollection w = S0).
      { intros ? [-> _].
        destruct (negb (_ =? ""))%string; apply updateOne_setOnInsert. }
      walk stationsCollection (fun s : list StationDoc => s = S0).
      apply (@sat_end_keeps _ _ stationsCollection (fun s => s = S0));
        [solve [keeps_tac] | auto | auto].
    + match goal with
      | |- sat (fun w => _ = (S0 ++ [?d])%list /\ _) _ _ _ =>
          apply sat_pre with (P' := fun w => stationsCollection w = (S0 ++ [d])%list);
            [intros ? [-> _]; reflexivity |];
          assert (HX' : forall w, stationsCollection w = (S0 ++ [d])%list ->
                   storedFor (css_Name body_) S0 (stationsCollection w))
            by (intros ? ->; right; eexists; split; [reflexivity |];
                destruct (negb (_ =? ""))%string; unfold wellFormed; cbn;
                repeat split; auto; lia);
          walk stationsCollection (fun s : list StationDoc => s = (S0 ++ [d])%list);
          apply (@sat_end_keeps _ _ stationsCollection (fun s => s = (S0 ++ [d])%list));
            [solve [keeps_tac] | auto | auto]
      end.
Qed.

(** Whatever the request and whatever fails, a creation request stores at
    most one document, and the document it stores is well formed: the
    field [is_deleted] is written out as false, the retention type is one
    of the three known ones, the storage type is [file] or [memory], the
    replicas lie between 1 and 5, the idempotency window is at least 100
    and the name is the lowercased requested name.  This holds for the SDK
    handler and for the HTTP handler. *)
Theorem created_stations_are_well_formed :
  (forall K c reply csr w,
      storedFor (csr_StationName csr) (stationsCollection w)
        (stationsCollection
           (exec (createStationDirect K c reply (Decoded csr)) w))) /\
  (forall K c body_ w,
      storedFor (css_Name body_) (stationsCollection w)
        (stationsCollection (exec (CreateStation K c body_) w))).
Proof.
  split.
  - intros.
    pose proof (@createStationDirectIntern_stored K c reply csr
                  (stationsCollection w) w eq_refl) as H.
    unfold exec, createStationDirect.
    destruct (createStationDirectIntern K c reply csr None w) as [[[] | |] w'];
      exact H.
  - intros.
    pose proof (@CreateStation_stored K c body_ (stationsCollection w) w eq_refl) as H.
    unfold exec.
    destruct (CreateStation K c body_ w) as [[[] | |] w']; exact H.
Qed.

(** ** Creation requests that are turned down *)

(** An SDK creation request that names a schema which does not exist is
    turned down without a trace in the store or the engine, but the reply
    it gets is the empty message, the success reply: the error of the
    schema lookup, which is [nil], is what the handler passes on. *)
Theorem create_with_missing_schema_replies_success
    (K : Constants) (c : client) (reply : string) (csr : createStationRequest)
    (w : World) (sn : StationName) :
  StationNameFromStr K (csr_StationName csr) = (sn, None) ->
  failing w = [] ->
  findOne (liveByName (Ext sn)) (stationsCollection w) = None ->
  (csr_SchemaName csr =? "") = false ->
  find (fun s => schema_Name s =? ToLower (csr_SchemaName csr))
       (schemasCollection w) = None ->
  createStationDirect K c reply (Decoded csr) w =
    (Returned,
     withTrace (trace w ++
       [E_log ("createStationDirect: Schema " ++ csr_SchemaName csr
               ++ " does not exist");
        E_respond reply ""])%list w).
Proof.
  intros Hn Hf Hnone Hsch Hs.
  unfold createStationDirect, createStationDirectIntern. rewrite Hn.
  run2 Hf ltac:(first [rewrite Hnone | rewrite Hsch | rewrite Hs]).
  cbn. rewrite <- app_assoc. reflexivity.
Qed.

Lemma create_with_missing_schema_replies_success_witness :
  createStationDirect sampleConstants sampleClient "reply"
    (Decoded (sampleCreateWithSchema "Orders" "OrderV1")) emptyWorld =
    (Returned,
     withTrace
       [E_log "createStationDirect: Schema OrderV1 does not exist";
        E_respond "reply" ""] emptyWorld).
Proof.
  apply (@create_with_missing_schema_replies_success sampleConstants sampleClient
           "reply" (sampleCreateWithSchema "Orders" "OrderV1") emptyWorld
           {| internal := "orders"; external := "orders" |});
    reflexivity.
Defined.

Lemma createStationDirectIntern_rejected K c reply csr
    (S0 : list StationDoc) (T0 : list Stream) :
  (admissible K csr -> False) ->
  sat (fun w => (stationsCollection w, streams w) = (S0, T0))
      (createStationDirectIntern K c reply csr None)
      (fun _ w' => (stationsCollection w', streams w') = (S0, T0))
      (fun w' => (stationsCollection w', streams w') = (S0, T0)).
Proof.
  intro Hbad. unfold createStationDirectIntern.
  set (f := fun w : World => (stationsCollection w, streams w)).
  set (R := fun p : list StationDoc * list Stream => p = (S0, T0)).
  destruct (StationNameFromStr K (csr_StationName csr)) as [sn [e |]] eqn:En.
  { apply (@sat_end_keeps _ _ f R); [solve [keeps_tac] | auto | auto]. }
  skip f R as ?.
  skip f R as [[exist_ ?] err].
  skip f R as ?.
  skip f R as ?.
  skip f R as schemaDetails.
  eapply sat_bind.
  { apply sat_validated. intro e. leaves f R. }
  intros [retentionType retentionValue].
  apply (@sat_assume _ _ (fun w => R (f w))). intro Hret.
  eapply sat_bind.
  { apply sat_validated. intro e. leaves f R. }
  intros storageType.
  apply (@sat_assume _ _ (fun w => R (f w))). intro Hsto.
  eapply sat_bind.
  { apply sat_validated. intro e. leaves f R. }
  intros replicas.
  apply (@sat_assume _ _ (fun w => R (f w))). intro Hrep.
  exfalso. apply Hbad. split; [now exists sn |]. unfold acceptable. repeat split.
  - intro Hc. destruct Hret as [(_ & Hv & _) | (Hc' & _)]; congruence.
  - intro Hc. destruct Hsto as [(_ & Hv & _) | (Hc' & _)]; congruence.
  - intro Hc. destruct Hrep as [(_ & Hv & _) | (Hc' & _)]; congruence.
Qed.

(** An SDK creation request whose name the canonicalizer rejects, or whose
    retention type, storage type or replica count fails its validation,
    leaves no trace: the stations collection and the streams are as they
    were. *)
Theorem rejected_creation_changes_nothing
    (K : Constants) (c : client) (reply : string) (csr : createStationRequest)
    (w : World) :
  (admissible K csr -> False) ->
  let w' := exec (createStationDirect K c reply (Decoded csr)) w in
  stationsCollection w' = stationsCollection w /\ streams w' = streams w.
Proof.
  intros Hbad w'.
  pose proof (@createStationDirectIntern_rejected K c reply csr
                (stationsCollection w) (streams w) Hbad w eq_refl) as H.
  subst w'. unfold exec, createStationDirect.
  destruct (createStationDirectIntern K c reply csr None w) as [[[] | |] w'];
    cbn [snd]; split; congruence.
Qed.

Lemma rejected_creation_changes_nothing_witness :
  let csr :=
    {| csr_StationName := "Orders"; csr_SchemaName := "";
       csr_RetentionType := "forever"; csr_RetentionValue := 0;
       csr_StorageType := ""; csr_Replicas := 6;
       csr_DedupEnabled := false; csr_DedupWindowMillis := 0;
       csr_IdempotencyWindow := 0;
       csr_DlsConfiguration := zeroDlsConfiguration |} in
  let w' := exec (createStationDirect sampleConstants sampleClient "reply"
                    (Decoded csr)) emptyWorld in
  stationsCollection w' = stationsCollection emptyWorld /\
  streams w' = streams emptyWorld.
Proof.
  intro csr.
  apply (@rejected_creation_changes_nothing sampleConstants sampleClient
           "reply" csr emptyWorld).
  intros (_ & H & _). specialize (H eq_refl). discriminate H.
Defined.

(** ** Removal of several stations *)

Lemma sat_forEachAcc {A S} (I : list A -> S -> World -> Prop)
    (b : S -> A -> M S) (X : World -> Prop) :
  (forall done acc x,
      sat (I done acc) (b acc x) (fun acc' => I (done ++ [x])%list acc') X) ->
  forall l done acc,
    sat (I done acc) (forEachAcc l acc b) (fun acc' => I (done ++ l)%list acc') X.
Proof.
  intros Hb. induction l as [| x l IH]; intros done acc; simpl.
  - apply sat_ret. intros w Hw. now rewrite app_nil_r.
  - eapply sat_bind; [apply Hb |]. intros acc'.
    eapply sat_weaken; [apply (IH (done ++ [x])%list acc') | | |]; auto.
    intros ? w H. now rewrite <- app_assoc in H.
Qed.

Lemma live_in_names (names : list string) (ext : string) (d : StationDoc) :
  In ext names ->
  matches (liveByName ext) d = true ->
  matches (RemoveStation_filter names) d = true.
Proof.
  intros Hin H. cbn in *. apply andb_prop in H. destruct H as [Hn Hl].
  rewrite Hl, andb_true_r. apply existsb_exists. exists ext. split; [exact Hin |].
  exact Hn.
Qed.

Lemma updateMany_noneLive (names : list string) (l : list StationDoc) :
  noneLive names
    (updateMany (RemoveStation_filter names) (U_set_is_deleted true) l).
Proof.
  intros ext Hin. unfold updateMany.
  induction l as [| d l IH]; [reflexivity |].
  cbn [map filter].
  destruct (matches (RemoveStation_filter names) d) eqn:E.
  - rewrite tombstone_not_live. exact IH.
  - destruct (matches (liveByName ext) d) eqn:E'; [| exact IH].
    rewrite (live_in_names _ _ _ Hin E') in E. discriminate.
Qed.

Lemma sat_UpdateMany (S0 : list StationDoc) f u (X : World -> Prop) :
  sat (fun w => stationsCollection w = S0) (stations_UpdateMany f u)
      (fun err w' =>
         match err with
         | Some _ => stationsCollection w' = S0
         | None => stationsCollection w' = updateMany f u S0
         end) X.
Proof.
  intros w Hw. unfold stations_UpdateMany, bind, fails, gets, modify, ret.
  destruct (existsb (Op_eqb OpStationsUpdate) (failing w)); simpl;
    [exact Hw | now rewrite Hw].
Qed.

(** Code that runs on: it neither returns from the handler nor panics. *)
Lemma runs_on_ret {A} (a : A) (P : World -> Prop) :
  sat P (ret a) (fun _ _ => True) (fun _ => False).
Proof. intros w _. exact I. Qed.

Lemma runs_on_gets {A} (g : World -> A) (P : World -> Prop) :
  sat P (gets g) (fun _ _ => True) (fun _ => False).
Proof. intros w _. exact I. Qed.

Lemma runs_on_modify (g : World -> World) (P : World -> Prop) :
  sat P (modify g) (fun _ _ => True) (fun _ => False).
Proof. intros w _. exact I. Qed.

Lemma runs_on_bind {A B} (m : M A) (k : A -> M B) (P : World -> Prop) :
  sat P m (fun _ _ => True) (fun _ => False) ->
  (forall a, sat (fun _ => True) (k a) (fun _ _ => True) (fun _ => False)) ->
  sat P (bind m k) (fun _ _ => True) (fun _ => False).
Proof. intros Hm Hk. eapply sat_bind; [exact Hm | exact Hk]. Qed.

Lemma runs_on_forEach {A} (l : list A) (b : A -> M unit) (P : World -> Prop) :
  (forall a, sat (fun _ => True) (b a) (fun _ _ => True) (fun _ => False)) ->
  sat P (forEach l b) (fun _ _ => True) (fun _ => False).
Proof.
  intros Hb. apply sat_pre with (P' := fun _ => True); [auto |].
  induction l as [| x l IH]; simpl.
  - apply runs_on_ret.
  - apply runs_on_bind; [apply Hb | intros ?; exact IH].
Qed.

Ltac runs_on :=
  repeat first
    [ apply runs_on_ret | apply runs_on_gets | apply runs_on_modify
    | apply runs_on_bind; [| intros ?]
    | apply runs_on_forEach; intros ?
    | match goal with
      | |- sat _ (match ?x with _ => _ end) _ _ => destruct x
      end
    | progress autounfold with handlers
    | progress cbv zeta ].

(** A first step that leaves the handler, keeping the component. *)
Ltac exits f R :=
  eapply sat_bind with (Q := fun _ _ => False);
    [cbn [ifErr when]; leaves f R | intros ? ? []].

Lemma sat_keeps_runs_on {A C} (f : World -> C) (R : C -> Prop) (m : M A) :
  keeps f m ->
  sat (fun _ => True) m (fun _ _ => True) (fun _ => False) ->
  sat (fun w => R (f w)) m (fun _ w => R (f w)) (fun _ => False).
Proof.
  intros Hk Hr w Hw. specialize (Hk w). specialize (Hr w I).
  destruct (m w) as [[a | |] w']; simpl in *; try contradiction.
  now rewrite Hk.
Qed.

Lemma removeStationResources_keeps_stations K (st : Station) :
  keeps stationsCollection (removeStationResources K st None).
Proof. unfold removeStationResources. keeps_tac. Qed.

Lemma RemoveStation_atomic K c names (S0 : list StationDoc) :
  sat (fun w => stationsCollection w = S0) (RemoveStation K c names)
      (fun _ w' => exists exts, canonicalNames K names exts /\
                                noneLive exts (stationsCollection w'))
      (fun w' => stationsCollection w' = S0).
Proof.
  unfold RemoveStation.
  eapply sat_bind with
    (Q := fun exts w => stationsCollection w = S0 /\ canonicalNames K names exts).
  - eapply sat_weaken;
      [ apply (@sat_forEachAcc _ _
                 (fun done exts w => stationsCollection w = S0 /\
                                     canonicalNames K done exts)
                 _ (fun w => stationsCollection w = S0))
          with (done := @nil string) (acc := @nil string)
      | | | ].
    + intros done exts name.
      apply sat_assume. intro Hdone.
      destruct (StationNameFromStr K name) as [sn [e |]] eqn:En.
      { exits stationsCollection (fun s : list StationDoc => s = S0). }
      assert (Hnew : canonicalNames K (done ++ [name]) (exts ++ [Ext sn])).
      { apply Forall2_app; [exact Hdone |]. constructor; [| constructor].
        exists sn. split; [exact En | reflexivity]. }
      walk stationsCollection (fun s : list StationDoc => s = S0).
      apply (@sat_bind_keeps _ _ _ stationsCollection
               (fun s : list StationDoc => s = S0));
        [apply removeStationResources_keeps_stations | auto | intros err].
      skip stationsCollection (fun s : list StationDoc => s = S0) as ?.
      apply sat_ret. intros w Hw. split; [exact Hw | exact Hnew].
    + intros w Hw. split; [exact Hw | constructor].
    + intros exts w H. exact H.
    + auto.
  - intros exts. apply sat_assume. intro Hc.
    eapply sat_bind; [apply sat_UpdateMany |].
    intros [e |].
    + exits stationsCollection (fun s : list StationDoc => s = S0).
    + cbn [ifErr]. rewrite bind_ret_l.
      eapply sat_weaken with
        (Q' := fun _ w => noneLive exts (stationsCollection w))
        (X' := fun _ => False);
        [| intros w Hw; exact Hw | intros ? w H; exists exts; split; [exact Hc | exact H]
         | intros ? []].
      eapply sat_pre;
        [| apply (@sat_keeps_runs_on _ _ stationsCollection (noneLive exts))].
      * intros w Hw. cbv beta. rewrite Hw. apply updateMany_noneLive.
      * solve [keeps_tac].
      * runs_on.
Qed.

(** [RemoveStation] tombstones all of the named stations or none: when it
    runs to its end (where it answers 200), every requested name is
    accepted by the canonicalizer and no live station document of any of
    these names is left; when it returns early, the stations collection is
    as it was. *)
Theorem RemoveStation_all_or_nothing
    (K : Constants) (c : GinContext) (names : list string) (w : World) :
  let w' := exec (RemoveStation K c names) w in
  match outcome (RemoveStation K c names) w with
  | Next _ =>
      forall name, In name names ->
        exists sn, StationNameFromStr K name = (sn, None) /\
                   liveStations (Ext sn) w' = []
  | _ => stationsCollection w' = stationsCollection w
  end.
Proof.
  intro w'. subst w'. unfold exec, outcome.
  pose proof (@RemoveStation_atomic K c names (stationsCollection w) w eq_refl) as H.
  destruct (RemoveStation K c names w) as [[[] | |] w']; cbn [fst snd]; try exact H.
  destruct H as (exts & Hc & Hn).
  intros name Hin. unfold canonicalNames in Hc.
  clear - Hc Hn Hin. revert Hn Hin.
  induction Hc as [| n e names exts (sn & Hsn & He) _ IH]; intros Hn Hin.
  - destruct Hin.
  - destruct Hin as [E | Hin].
    + subst n. exists sn. split; [exact Hsn |]. apply Hn. left. now symmetry.
    + apply IH; [| exact Hin]. intros ext Hext. apply Hn. now right.
Qed.

(** ** DLS configuration *)

Lemma stations_UpsertOne_eq (f : Filter) (u : Update) (w : World) :
  failing w = [] ->
  stations_UpsertOne f u w =
    (Next (matchedCount f (stationsCollection w), None),
     withStations (upsertOne f u (stationsCollection w)) w).
Proof.
  intro H. unfold stations_UpsertOne.
  erewrite bind_next; [| apply fails_none; exact H]. reflexivity.
Qed.

Lemma updateOne_length f u (l : list StationDoc) :
  List.length (updateOne f u l) = List.length l.
Proof.
  induction l as [| d l IH]; simpl; [reflexivity |].
  destruct (matches f d); simpl; [reflexivity | now rewrite IH].
Qed.

Lemma find_existsb {A} (p : A -> bool) (l : list A) (x : A) :
  find p l = Some x -> existsb p l = true.
Proof.
  induction l as [| y l IH]; simpl; [discriminate |].
  destruct (p y); simpl; auto.
Qed.

Lemma find_none_existsb {A} (p : A -> bool) (l : list A) :
  find p l = None -> existsb p l = false.
Proof.
  induction l as [| y l IH]; simpl; [reflexivity |].
  destruct (p y); simpl; [discriminate | auto].
Qed.

(** Under the canonical spelling of its name, [UpdateDlsConfig] sets the
    configuration of a live station: afterwards the station found under
    the name carries the requested configuration, no document was added,
    and the answer is 200 with the requested values. *)
Theorem UpdateDlsConfig_sets_configuration
    (K : Constants) (c : GinContext) (n : string) (poison schemaverse : bool)
    (w : World) (sn : StationName) (d : StationDoc) :
  StationNameFromStr K n = (sn, None) ->
  Ext sn = n ->
  failing w = [] ->
  findOne (liveByName n) (stationsCollection w) = Some d ->
  exists w' d',
    UpdateDlsConfig K c n poison schemaverse w = (Next tt, w') /\
    findOne (liveByName n) (stationsCollection w') = Some d' /\
    DlsConfig (body d') = {| Poison := poison; Schemaverse := schemaverse |} /\
    List.length (stationsCollection w') = List.length (stationsCollection w) /\
    trace w' = (trace w ++ [E_http 200 (B_dls poison schemaverse)])%list.
Proof.
  intros Hn Hext Hf Hd.
  destruct (negb (Bool.eqb (Poison (DlsConfig (body d))) poison)
            || negb (Bool.eqb (Schemaverse (DlsConfig (body d))) schemaverse))
    eqn:Hdiff.
  - exists (withTrace (trace w ++ [E_http 200 (B_dls poison schemaverse)])%list
              (withStations
                 (updateOne (UpdateDlsConfig_filter n)
                    (U_set_dls_configuration
                       {| Poison := poison; Schemaverse := schemaverse |})
                    (stationsCollection w)) w)).
    exists (applyUpdate (U_set_dls_configuration
                           {| Poison := poison; Schemaverse := schemaverse |}) d).
    split; [| split; [| split; [| split]]].
    + unfold UpdateDlsConfig. rewrite Hn. cbn [ifErr]. rewrite bind_ret_l.
      erewrite bind_next; [| apply IsStationExist_eq; exact Hf].
      rewrite Hext, Hd. cbv beta iota. cbn [ifErr when negb]. rewrite !bind_ret_l.
      change (DlsConfig (decodeStation d)) with (DlsConfig (body d)).
      rewrite Hdiff. cbn [when].
      rewrite bind_assoc.
      erewrite bind_next; [| apply stations_UpsertOne_eq; exact Hf].
      cbv beta iota. cbn [ifErr]. rewrite bind_ret_l.
      unfold upsertOne.
      change (UpdateDlsConfig_filter n) with (liveByName n).
      rewrite (find_existsb _ _ Hd). reflexivity.
    + cbn [stationsCollection withTrace withStations].
      change (UpdateDlsConfig_filter n) with (liveByName n).
      unfold findOne. apply updateOne_find; [exact Hd |].
      apply find_some in Hd. destruct Hd as [_ Hm].
      destruct d as [b h]. exact Hm.
    + reflexivity.
    + cbn [stationsCollection withTrace withStations]. apply updateOne_length.
    + reflexivity.
  - exists (withTrace (trace w ++ [E_http 200 (B_dls poison schemaverse)])%list w).
    exists d.
    split; [| split; [| split; [| split]]]; try reflexivity.
    + unfold UpdateDlsConfig. rewrite Hn. cbn [ifErr]. rewrite bind_ret_l.
      erewrite bind_next; [| apply IsStationExist_eq; exact Hf].
      rewrite Hext, Hd. cbv beta iota. cbn [ifErr when negb]. rewrite !bind_ret_l.
      change (DlsConfig (decodeStation d)) with (DlsConfig (body d)).
      rewrite Hdiff. cbn [when]. rewrite bind_ret_l. reflexivity.
    + exact Hd.
    + apply orb_false_elim in Hdiff. destruct Hdiff as [H1 H2].
      apply negb_false_iff, Bool.eqb_prop in H1.
      apply negb_false_iff, Bool.eqb_prop in H2.
      destruct (DlsConfig (body d)) as [p s]. cbn in *. now subst.
Qed.

Lemma UpdateDlsConfig_sets_configuration_witness :
  exists w' d',
    UpdateDlsConfig sampleConstants sampleContext "orders" true false schemaWorld
      = (Next tt, w') /\
    findOne (liveByName "orders") (stationsCollection w') = Some d' /\
    DlsConfig (body d') = {| Poison := true; Schemaverse := false |} /\
    List.length (stationsCollection w') = List.length (stationsCollection schemaWorld) /\
    trace w' = (trace schemaWorld ++ [E_http 200 (B_dls true false)])%list.
Proof.
  apply (@UpdateDlsConfig_sets_configuration sampleConstants sampleContext
           "orders" true false schemaWorld
           {| internal := "orders"; external := "orders" |}
           {| body := ordersStation; has_is_deleted := true |});
    reflexivity.
Defined.

(** [UpdateDlsConfig] addresses the document by the name as it was typed.
    For a spelling that is not the stored one (the lookup, which
    canonicalizes, finds the station, but no live document carries the
    typed name) and a configuration that differs from the station's, the
    handler answers 200 with the requested values, yet the station keeps
    its configuration: the upsert inserts a new document that carries only
    the typed name and the configuration. *)
Theorem UpdateDlsConfig_misses_other_spellings
    (K : Constants) (c : GinContext) (n : string) (poison schemaverse : bool)
    (w : World) (sn : StationName) (d : StationDoc) :
  StationNameFromStr K n = (sn, None) ->
  failing w = [] ->
  findOne (liveByName (Ext sn)) (stationsCollection w) = Some d ->
  findOne (UpdateDlsConfig_filter n) (stationsCollection w) = None ->
  DlsConfig (body d) <> {| Poison := poison; Schemaverse := schemaverse |} ->
  exists w',
    UpdateDlsConfig K c n poison schemaverse w = (Next tt, w') /\
    stationsCollection w' =
      (stationsCollection w ++
       [{| body := setDlsConfig {| Poison := poison; Schemaverse := schemaverse |}
                     (setName n zeroStation);
           has_is_deleted := false |}])%list /\
    findOne (liveByName (Ext sn)) (stationsCollection w') = Some d /\
    trace w' = (trace w ++ [E_http 200 (B_dls poison schemaverse)])%list.
Proof.
  intros Hn Hf Hd Hnone Hne.
  assert (Hdiff : negb (Bool.eqb (Poison (DlsConfig (body d))) poison)
                  || negb (Bool.eqb (Schemaverse (DlsConfig (body d))) schemaverse)
                  = true).
  { destruct (DlsConfig (body d)) as [p s]. cbn.
    destruct p, s, poison, schemaverse; cbn; try reflexivity;
      exfalso; apply Hne; reflexivity. }
  eexists. split; [| split; [| split]].
  - unfold UpdateDlsConfig. rewrite Hn. cbn [ifErr]. rewrite bind_ret_l.
    erewrite bind_next; [| apply IsStationExist_eq; exact Hf].
    rewrite Hd. cbv beta iota. cbn [ifErr when negb]. rewrite !bind_ret_l.
    change (DlsConfig (decodeStation d)) with (DlsConfig (body d)).
    rewrite Hdiff. cbn [when].
    rewrite bind_assoc.
    erewrite bind_next; [| apply stations_UpsertOne_eq; exact Hf].
    cbv beta iota. cbn [ifErr]. rewrite bind_ret_l.
    unfold upsertOne. unfold findOne in Hnone.
    rewrite (find_none_existsb _ _ Hnone). reflexivity.
  - reflexivity.
  - cbn [stationsCollection withTrace withStations].
    unfold findOne in *. clear - Hd.
    induction (stationsCollection w) as [| x l IH]; [discriminate |].
    cbn [app find] in *. destruct (matches (liveByName (Ext sn)) x); auto.
  - reflexivity.
Qed.

Lemma UpdateDlsConfig_misses_other_spellings_witness :
  exists w',
    UpdateDlsConfig sampleConstants sampleContext "Orders" true true schemaWorld
      = (Next tt, w') /\
    stationsCollection w' =
      (stationsCollection schemaWorld ++
       [{| body := setDlsConfig {| Poison := true; Schemaverse := true |}
                     (setName "Orders" zeroStation);
           has_is_deleted := false |}])%list /\
    findOne (liveByName "orders") (stationsCollection w') =
      Some {| body := ordersStation; has_is_deleted := true |} /\
    trace w' = (trace schemaWorld ++ [E_http 200 (B_dls true true)])%list.
Proof.
  apply (@UpdateDlsConfig_misses_other_spellings sampleConstants sampleContext
           "Orders" true true schemaWorld
           {| internal := "orders"; external := "orders" |}
           {| body := ordersStation; has_is_deleted := true |});
    try reflexivity.
  discriminate.
Defined.

(** ** Detaching a schema *)

Lemma removeSchemaFromStation_success (sn : StationName) (w : World) (d : StationDoc) :
  failing w = [] ->
  findOne (liveByName (Ext sn)) (stationsCollection w) = Some d ->
  removeSchemaFromStation sn true w =
    (Next None,
     withTrace (trace w ++
       [E_schemaUpdate ("$memphis_schema_updates_" ++ Intern sn)
          {| UpdateType := SchemaUpdateTypeDrop; Init := zeroInit |}])%list
       (withStations
          (updateOne (removeSchemaFromStation_filter (Ext sn))
             (U_set_schema zeroSchemaDetails) (stationsCollection w)) w)).
Proof.
  intros Hf Hd. unfold removeSchemaFromStation.
  erewrite bind_next; [| apply IsStationExist_eq; exact Hf].
  rewrite Hd. cbv beta iota. cbn [negb].
  erewrite bind_next; [| apply stations_UpdateOne_eq; exact Hf].
  reflexivity.
Qed.

Lemma cleared_binding_found (n : string) (l : list StationDoc) (d : StationDoc) :
  findOne (liveByName n) l = Some d ->
  findOne (liveByName n)
    (updateOne (removeSchemaFromStation_filter n) (U_set_schema zeroSchemaDetails) l)
  = Some (applyUpdate (U_set_schema zeroSchemaDetails) d).
Proof.
  intro Hd. change (removeSchemaFromStation_filter n) with (liveByName n).
  unfold findOne. apply updateOne_find; [exact Hd |].
  apply find_some in Hd. destruct Hd as [_ Hm]. destruct d as [b h]. exact Hm.
Qed.

(** Detaching the schema of a live station, with no failing call, leaves
    the station found under the name with an empty binding and publishes a
    [ProducerSchemaUpdate] of type [Drop] on the update subject of the
    station.  The SDK handler answers with the empty message, the HTTP
    handler with 200.  A station document without [is_deleted] is served
    like any other. *)
Theorem detach_clears_binding_and_publishes
    (K : Constants) (c : client) (gc : GinContext) (reply n : string)
    (w : World) (sn : StationName) (d : StationDoc) :
  StationNameFromStr K n = (sn, None) ->
  failing w = [] ->
  findOne (liveByName (Ext sn)) (stationsCollection w) = Some d ->
  let drop :=
    E_schemaUpdate ("$memphis_schema_updates_" ++ Intern sn)
      {| UpdateType := SchemaUpdateTypeDrop; Init := zeroInit |} in
  let cleared := applyUpdate (U_set_schema zeroSchemaDetails) d in
  (exists w',
     removeSchemaFromStationDirect K c reply (Decoded n) w = (Next tt, w') /\
     findOne (liveByName (Ext sn)) (stationsCollection w') = Some cleared /\
     trace w' = (trace w ++ [drop; E_respond reply ""])%list) /\
  (exists w' t,
     RemoveSchemaFromStation K gc n w = (Next tt, w') /\
     findOne (liveByName (Ext sn)) (stationsCollection w') = Some cleared /\
     trace w' = (trace w ++ [drop] ++ t ++ [E_http 200 B_empty])%list).
Proof.
  intros Hn Hf Hd drop cleared. split.
  - eexists. split; [| split].
    + unfold removeSchemaFromStationDirect. rewrite bind_ret_l, Hn.
      cbn [ifErr]. rewrite bind_ret_l.
      erewrite bind_next; [| apply (@removeSchemaFromStation_success sn w d Hf Hd)].
      cbn [ifErr]. rewrite bind_ret_l. reflexivity.
    + cbn [stationsCollection withTrace withStations].
      apply cleared_binding_found. exact Hd.
    + cbn [trace withTrace withStations]. now rewrite <- app_assoc.
  - destruct (analyticsEnabled w) eqn:Ea, (ctx_user gc) as [u |] eqn:Eu.
    all: eexists; unfold RemoveSchemaFromStation; rewrite Hn;
      cbn [ifErr]; rewrite bind_ret_l;
      (erewrite bind_next; [| apply IsStationExist_eq; exact Hf]);
      rewrite Hd; cbv beta iota; cbn [ifErr when negb]; rewrite !bind_ret_l;
      (erewrite bind_next; [| apply (@removeSchemaFromStation_success sn w d Hf Hd)]);
      cbn [ifErr]; rewrite bind_ret_l;
      run2 Hf ltac:(first [rewrite Ea | rewrite Eu]).
    all: [> refine (ex_intro _ [_; _] _) | refine (ex_intro _ [_; _; _; _] _)
          | refine (ex_intro _ [_] _) | refine (ex_intro _ [_; _; _] _) ].
    all: split; [reflexivity |].
    all: cbn [stationsCollection trace withTrace withAuditLogs withStations].
    all: split; [apply cleared_binding_found; exact Hd |].
    all: rewrite <- !app_assoc; reflexivity.
Qed.

Lemma detach_clears_binding_and_publishes_witness :
  let drop :=
    E_schemaUpdate "$memphis_schema_updates_orders"
      {| UpdateType := SchemaUpdateTypeDrop; Init := zeroInit |} in
  let cleared := applyUpdate (U_set_schema zeroSchemaDetails) legacyOrders in
  (exists w',
     removeSchemaFromStationDirect sampleConstants sampleClient "reply"
       (Decoded "Orders") legacyWorld = (Next tt, w') /\
     findOne (liveByName "orders") (stationsCollection w') = Some cleared /\
     trace w' = (trace legacyWorld ++ [drop; E_respond "reply" ""])%list) /\
  (exists w' t,
     RemoveSchemaFromStation sampleConstants sampleContext "Orders" legacyWorld
       = (Next tt, w') /\
     findOne (liveByName "orders") (stationsCollection w') = Some cleared /\
     trace w' = (trace legacyWorld ++ [drop] ++ t ++ [E_http 200 B_empty])%list).
Proof.
  apply (@detach_clears_binding_and_publishes sampleConstants sampleClient
           sampleContext "reply" "Orders" legacyWorld
           {| internal := "orders"; external := "orders" |} legacyOrders);
    reflexivity.
Defined.

Lemma useSchemaDirect_keeps_failing K c reply msg :
  keeps failing (useSchemaDirect K c reply msg).
Proof. unfold useSchemaDirect. keeps_tac. Qed.

Lemma strict_then_live (n : string) (d : StationDoc) :
  matches (useSchemaDirect_filter n) d = true ->
  matches (liveByName n) d = true.
Proof.
  cbn. intro H. apply andb_prop in H. destruct H as [-> H]. now rewrite H.
Qed.

Lemma set_schema_twice (sd : SchemaDetails) (d : StationDoc) :
  Schema (body d) = zeroSchemaDetails ->
  applyUpdate (U_set_schema zeroSchemaDetails) (applyUpdate (U_set_schema sd) d) = d.
Proof.
  destruct d as [[] h]. cbn. intros ->. reflexivity.
Qed.

Lemma attach_detach_updates (n : string) (sd : SchemaDetails)
    (l : list StationDoc) (d : StationDoc) :
  find (matches (useSchemaDirect_filter n)) l = Some d ->
  find (matches (liveByName n)) l = Some d ->
  Schema (body d) = zeroSchemaDetails ->
  find (matches (liveByName n)) (updateOne (useSchemaDirect_filter n) (U_set_schema sd) l)
    = Some (applyUpdate (U_set_schema sd) d) /\
  updateOne (liveByName n) (U_set_schema zeroSchemaDetails)
    (updateOne (useSchemaDirect_filter n) (U_set_schema sd) l) = l.
Proof.
  intros Hs Hl Hz. induction l as [| x l IH]; [discriminate |].
  cbn [find] in Hs, Hl. cbn [updateOne].
  destruct (matches (liveByName n) x) eqn:El.
  - assert (x = d) by congruence. subst x.
    destruct (matches (useSchemaDirect_filter n) d) eqn:Es.
    + assert (Hm : matches (liveByName n) (applyUpdate (U_set_schema sd) d) = true)
        by (destruct d as [b h]; exact El).
      cbn [find updateOne]. rewrite Hm. split; [reflexivity |].
      now rewrite set_schema_twice.
    + exfalso. apply find_some in Hs. destruct Hs as [_ Hm]. congruence.
  - destruct (matches (useSchemaDirect_filter n) x) eqn:Es.
    + rewrite (strict_then_live _ _ Es) in El. discriminate.
    + cbn [find updateOne]. rewrite El.
      destruct (IH Hs Hl) as [H1 H2]. split; [exact H1 | now rewrite H2].
Qed.

(** Attaching a schema to a station without binding and detaching it again
    over the SDK restores the stations collection, provided the document
    the attachment updates is the one the lookups find (the first live
    document of the name has [is_deleted] written out).  In between the
    station is bound to the schema. *)
Theorem attach_then_detach_restores_the_station
    (K : Constants) (c : client) (r1 r2 : string) (asr : attachSchemaRequest)
    (w : World) (sn : StationName) (d : StationDoc)
    (sch : SchemaRec) (v : SchemaVersion) :
  StationNameFromStr K (asr_StationName asr) = (sn, None) ->
  failing w = [] ->
  findOne (useSchemaDirect_filter (Ext sn)) (stationsCollection w) = Some d ->
  findOne (liveByName (Ext sn)) (stationsCollection w) = Some d ->
  Schema (body d) = zeroSchemaDetails ->
  find (fun s => schema_Name s =? ToLower (asr_Name asr)) (schemasCollection w)
    = Some sch ->
  find (fun x => (sv_SchemaId x =? schema_ID sch)%nat && sv_Active x)
       (schemaVersionsCollection w) = Some v ->
  let w1 := exec (useSchemaDirect K c r1 (Decoded asr)) w in
  let w2 := exec (removeSchemaFromStationDirect K c r2
                    (Decoded (asr_StationName asr))) w1 in
  bindingOf (Ext sn) w1 =
    Some {| SchemaName := ToLower (asr_Name asr);
            VersionNumber := sv_VersionNumber v |} /\
  stationsCollection w2 = stationsCollection w /\
  trace w2 =
    (trace w1 ++
     [E_schemaUpdate ("$memphis_schema_updates_" ++ Intern sn)
        {| UpdateType := SchemaUpdateTypeDrop; Init := zeroInit |};
      E_respond r2 ""])%list.
Proof.
  intros Hn Hf Hs Hl Hz Hsch Hv w1 w2.
  destruct (@useSchemaDirect_success K c r1 asr w sn d sch v Hn Hf Hs Hsch Hv)
    as (v1 & t & E1 & Hst1 & _ & _).
  assert (Hf1 : failing v1 = []).
  { pose proof (@useSchemaDirect_keeps_failing K c r1 (Decoded asr) w) as H.
    rewrite E1 in H. cbn [snd] in H. now rewrite H. }
  assert (Ew1 : w1 = v1) by (subst w1; unfold exec; now rewrite E1).
  destruct (@attach_detach_updates (Ext sn)
              {| SchemaName := ToLower (asr_Name asr);
                 VersionNumber := sv_VersionNumber v |}
              (stationsCollection w) d Hs Hl Hz) as [Hfound Hback].
  assert (Hl1 : findOne (liveByName (Ext sn)) (stationsCollection v1) =
                Some (applyUpdate
                        (U_set_schema {| SchemaName := ToLower (asr_Name asr);
                                         VersionNumber := sv_VersionNumber v |}) d))
    by (rewrite Hst1; exact Hfound).
  assert (E2 : removeSchemaFromStationDirect K c r2 (Decoded (asr_StationName asr)) v1
               = (Next tt,
                  withTrace (trace v1 ++
                    [E_schemaUpdate ("$memphis_schema_updates_" ++ Intern sn)
                       {| UpdateType := SchemaUpdateTypeDrop; Init := zeroInit |};
                     E_respond r2 ""])%list
                    (withStations
                       (updateOne (removeSchemaFromStation_filter (Ext sn))
                          (U_set_schema zeroSchemaDetails) (stationsCollection v1))
                       v1))).
  { unfold removeSchemaFromStationDirect. rewrite bind_ret_l, Hn.
    cbn [ifErr]. rewrite bind_ret_l.
    erewrite bind_next; [| apply (@removeSchemaFromStation_success sn v1 _ Hf1 Hl1)].
    cbn [ifErr]. rewrite bind_ret_l.
    unfold respondWithErr, respondOnGlobalAcc, emit, modify.
    cbn [trace withTrace withStations]. now rewrite <- app_assoc. }
  subst w2. rewrite Ew1. unfold exec. rewrite E2. cbn [snd].
  split; [| split].
  - unfold bindingOf. rewrite Hst1.
    now rewrite (@binding_after_update (Ext sn) _ _ d Hs Hl).
  - cbn [stationsCollection withTrace withStations]. rewrite Hst1. exact Hback.
  - reflexivity.
Qed.

Lemma attach_then_detach_restores_the_station_witness :
  let asr := {| asr_Name := "OrderV1"; asr_StationName := "Orders" |} in
  let w1 := exec (useSchemaDirect sampleConstants sampleClient "r1" (Decoded asr))
                 schemaWorld in
  let w2 := exec (removeSchemaFromStationDirect sampleConstants sampleClient "r2"
                    (Decoded "Orders")) w1 in
  bindingOf "orders" w1 = Some {| SchemaName := "orderv1"; VersionNumber := 3 |} /\
  stationsCollection w2 = stationsCollection schemaWorld /\
  trace w2 =
    (trace w1 ++
     [E_schemaUpdate "$memphis_schema_updates_orders"
        {| UpdateType := SchemaUpdateTypeDrop; Init := zeroInit |};
      E_respond "r2" ""])%list.
Proof.
  apply (@attach_then_detach_restores_the_station sampleConstants sampleClient
           "r1" "r2" {| asr_Name := "OrderV1"; asr_StationName := "Orders" |}
           schemaWorld {| internal := "orders"; external := "orders" |}
           {| body := ordersStation; has_is_deleted := true |}
           {| schema_ID := 11; schema_Name := "orderv1"; schema_Type := "json" |}
           {| sv_VersionNumber := 3; sv_Active := true;
              sv_SchemaContent := "{order}"; sv_SchemaId := 11 |});
    reflexivity.
Defined.

(** Detaching from a station that does not exist is answered with the
    error "Station <name> does not exist", the name being the canonical
    one; nothing is published and nothing is stored. *)
Theorem detach_from_missing_station
    (K : Constants) (c : client) (reply n : string) (w : World)
    (sn : StationName) :
  StationNameFromStr K n = (sn, None) ->
  failing w = [] ->
  findOne (liveByName (Ext sn)) (stationsCollection w) = None ->
  removeSchemaFromStationDirect K c reply (Decoded n) w =
    (Returned,
     withTrace (trace w ++
       [E_log ("removeSchemaFromStationDirect: At station " ++ n ++ ": "
               ++ "Station " ++ Ext sn ++ " does not exist");
        E_respond reply ("Station " ++ Ext sn ++ " does not exist")])%list w).
Proof.
  intros Hn Hf Hnone.
  unfold removeSchemaFromStationDirect. rewrite bind_ret_l, Hn.
  cbn [ifErr]. rewrite bind_ret_l.
  unfold removeSchemaFromStation.
  rewrite bind_assoc.
  erewrite bind_next; [| apply IsStationExist_eq; exact Hf].
  rewrite Hnone. cbv beta iota. cbn [negb]. rewrite bind_ret_l.
  cbn. rewrite <- app_assoc. reflexivity.
Qed.

Lemma detach_from_missing_station_witness :
  removeSchemaFromStationDirect sampleConstants sampleClient "reply"
    (Decoded "Orders") emptyWorld =
    (Returned,
     withTrace
       [E_log "removeSchemaFromStationDirect: At station Orders: Station orders does not exist";
        E_respond "reply" "Station orders does not exist"] emptyWorld).
Proof.
  apply (@detach_from_missing_station sampleConstants sampleClient "reply"
           "Orders" emptyWorld {| internal := "orders"; external := "orders" |});
    reflexivity.
Defined.

(** ** Looking a station up by the name as typed *)

(** [GetStation] does not canonicalize the requested name.  In a store
    whose station names are lowercase, as the creation handlers write
    them, a request that spells the name with a capital letter is answered
    "Station <name> does not exist", whatever stations exist. *)
Theorem GetStation_is_case_sensitive
    (K : Constants) (gc : GinContext) (n : string) (w : World) :
  failing w = [] ->
  (forall d, In d (stationsCollection w) ->
             ToLower (Name (body d)) = Name (body d)) ->
  ToLower n <> n ->
  GetStation K gc n w =
    (Returned,
     withTrace (trace w ++
       [E_log ("GetStation: Station " ++ n ++ " does not exist");
        E_http (SHOWABLE_ERROR_STATUS_CODE K)
               (B_message ("Station " ++ n ++ " does not exist"))])%list w).
Proof.
  intros Hf Hlow Hn.
  assert (Hnone : findOne (GetStation_filter n) (stationsCollection w) = None).
  { unfold findOne. induction (stationsCollection w) as [| d l IH]; [reflexivity |].
    cbn [find]. cbn [matches GetStation_filter].
    destruct (String.eqb_spec (Name (body d)) n) as [E | E].
    - exfalso. apply Hn. rewrite <- E. apply Hlow. now left.
    - cbn [andb]. apply IH. intros d' Hd'. apply Hlow. now right. }
  unfold GetStation.
  erewrite bind_next; [| apply stations_FindOne_eq; exact Hf].
  rewrite Hnone. cbn. rewrite <- app_assoc. reflexivity.
Qed.

Lemma GetStation_is_case_sensitive_witness :
  GetStation sampleConstants sampleContext "Orders" schemaWorld =
    (Returned,
     withTrace
       [E_log "GetStation: Station Orders does not exist";
        E_http 666 (B_message "Station Orders does not exist")] schemaWorld).
Proof.
  apply (@GetStation_is_case_sensitive sampleConstants sampleContext "Orders"
           schemaWorld).
  - reflexivity.
  - intros d [<- | []]. reflexivity.
  - discriminate.
Defined.

(** ** Order of the schema updates *)

Lemma publishedUpdates_app (t t' : list Event) :
  publishedUpdates (t ++ t') = (publishedUpdates t ++ publishedUpdates t')%list.
Proof.
  induction t as [| e t IH]; simpl; [reflexivity |].
  destruct e; simpl; now rewrite ?IH.
Qed.

Lemma notUpdate_published (t : list Event) :
  Forall notUpdate t -> publishedUpdates t = [].
Proof.
  induction 1 as [| e t He _ IH]; [reflexivity |].
  destruct e; simpl in *; try contradiction; exact IH.
Qed.

Lemma attachedTo_silent {A} K T0 done (m : M A) :
  emitsOnly notUpdate m ->
  forall w, attachedTo K T0 done w -> attachedTo K T0 done (snd (m w)).
Proof.
  intros He w (t & Ht & Hp).
  destruct (He w) as (t' & Ht' & Hq).
  exists (t ++ t')%list. unfold added in *. split.
  - rewrite Ht', Ht. now rewrite app_assoc.
  - rewrite publishedUpdates_app, (notUpdate_published Hq), app_nil_r. exact Hp.
Qed.

(** Skipping a step that publishes no schema update. *)
Lemma sat_bind_silent {A B} K T0 done (m : M A) (k : A -> M B)
    (Q : B -> World -> Prop) :
  emitsOnly notUpdate m ->
  (forall a, sat (attachedTo K T0 done) (k a) Q (fun _ => True)) ->
  sat (attachedTo K T0 done) (bind m k) Q (fun _ => True).
Proof.
  intros He Hc.
  apply sat_bind with (Q := fun _ => attachedTo K T0 done); [| exact Hc].
  intros w Hw. pose proof (attachedTo_silent He Hw) as H.
  destruct (m w) as [[a | |] w']; simpl in *; auto.
Qed.

Lemma sat_end_silent {A} K T0 done (m : M A) :
  emitsOnly notUpdate m ->
  sat (attachedTo K T0 done) m (fun _ => attachedTo K T0 done) (fun _ => True).
Proof.
  intros He w Hw. pose proof (attachedTo_silent He Hw) as H.
  destruct (m w) as [[a | |] w']; simpl in *; auto.
Qed.

Ltac walks :=
  repeat first
    [ apply sat_bind_silent; [solve [emits_tac ltac:(exact I)] | intros ?]
    | match goal with
      | |- sat _ (match ?x with _ => _ end) _ _ => destruct x
      end
    | progress cbv zeta ].

Lemma UseSchema_attachedTo K c s names (T0 : list Event) :
  sat (attachedTo K T0 []) (UseSchema K c s names)
      (fun _ => attachedTo K T0 names) (fun _ => True).
Proof.
  unfold UseSchema.
  walks.
  eapply sat_bind.
  - apply (@sat_forEach_done _ (attachedTo K T0)) with (done := @nil string).
    intros done name.
    destruct (StationNameFromStr K name) as [sn [? |]] eqn:En.
    { intros w _. exact I. }
    walks.
    intros w (t & Ht & Hp). cbn.
    exists (t ++ [E_schemaUpdate ("$memphis_schema_updates_" ++ Intern sn)
                   {| UpdateType := SchemaUpdateTypeInit; Init := p |}])%list.
    unfold added in *. split.
    + cbn. now rewrite Ht, app_assoc.
    + rewrite publishedUpdates_app, map_app, Hp. cbn.
      unfold updateSubject. now rewrite En.
  - intros ?. walks.
    apply sat_end_silent. solve [emits_tac ltac:(exact I)].
Qed.

(** When [UseSchema], the HTTP attachment of a schema to a list of
    stations, runs to its end, the schema updates it published are exactly
    one [Init] update per requested name, in the order of the request, each
    on the update subject of the station the name denotes; a name given
    twice is published to twice. *)
Theorem UseSchema_publishes_in_request_order K c s names w w' :
  UseSchema K c s names w = (Next tt, w') ->
  exists t, added (trace w) (trace w') t /\
            publishedUpdates t =
              map (fun n => (updateSubject K n, SchemaUpdateTypeInit)) names.
Proof.
  intros H.
  assert (H0 : attachedTo K (trace w) [] w).
  { exists []. unfold added. now rewrite app_nil_r. }
  pose proof (@UseSchema_attachedTo K c s names (trace w) w H0) as Hs.
  rewrite H in Hs. exact Hs.
Qed.

Lemma UseSchema_publishes_in_request_order_witness :
  exists t,
    added (trace schemaWorld)
          (trace (exec (UseSchema sampleConstants sampleContext "orderv1"
                                  ["orders"; "Orders"]) schemaWorld)) t /\
    publishedUpdates t =
      [ ("$memphis_schema_updates_orders", SchemaUpdateTypeInit);
        ("$memphis_schema_updates_orders", SchemaUpdateTypeInit) ].
Proof.
  apply (@UseSchema_publishes_in_request_order sampleConstants sampleContext
           "orderv1" ["orders"; "Orders"] schemaWorld).
  vm_compute. reflexivity.
Defined.

(** ** Listings *)

Lemma forEachRet_inv {A S R} (I : S -> Prop) (Rt : R -> Prop) (P : A -> Prop)
    (bodyOf : S -> A -> M (S + R)) :
  (forall acc x w, I acc -> P x ->
     match bodyOf acc x w with
     | (Next (inl acc'), _) => I acc'
     | (Next (inr r), _) => Rt r
     | _ => True
     end) ->
  forall l acc w, Forall P l -> I acc ->
     match forEachRet l acc bodyOf w with
     | (Next (inl acc'), _) => I acc'
     | (Next (inr r), _) => Rt r
     | _ => True
     end.
Proof.
  intros Hb. induction l as [| x l IH]; intros acc w Hl Hacc.
  - exact Hacc.
  - inversion Hl as [| ? ? Hx Hl']; subst.
    specialize (Hb acc x w Hacc Hx).
    cbn [forEachRet]. unfold bind.
    destruct (bodyOf acc x w) as [[[acc' | r] | |] w1]; auto.
    apply IH; assumption.
Qed.

Lemma stations_Find_cases (f : Filter) (w : World) :
  stations_Find f w = (Next ([], Some "store failure"), w) \/
  stations_Find f w =
    (Next (map decodeStation (findMany f (stationsCollection w)), None), w).
Proof.
  unfold stations_Find, fails, bind, gets, ret.
  destruct (existsb (Op_eqb OpStationsFind) (failing w)); auto.
Qed.

Lemma shownStation_not_file (s : Station) :
  StorageType (shownStation s) <> "file".
Proof.
  unfold shownStation. destruct (StorageType s =? "file") eqn:E.
  - simpl. discriminate.
  - apply String.eqb_neq in E. exact E.
Qed.

Lemma live_decoded (d : StationDoc) :
  matches GetStationsDetails_filter d = true ->
  IsDeleted (decodeStation d) = false.
Proof.
  unfold GetStationsDetails_filter, decodeStation. simpl.
  destruct (has_is_deleted d), (IsDeleted (body d)); simpl; congruence.
Qed.

Lemma shownStation_IsDeleted (s : Station) :
  IsDeleted (shownStation s) = IsDeleted s.
Proof. unfold shownStation. destruct (_ =? _); reflexivity. Qed.

Ltac natsErr :=
  match goal with
  | |- context [IsNatsErr ?a ?b] => destruct (IsNatsErr a b)
  end.

(** Whatever the counters of the stream engine answer, a listing by
    [GetStationsDetails] that returns without an error is never the nil
    slice, and each of its entries is a live station of the
    collection, not deleted, shown with the storage type [disk] in place
    of [file]. *)
Theorem GetStationsDetails_lists_live_stations
    (K : Constants) (T : StationName -> M (Z * error))
    (P : string -> M (Z * error)) (w w' : World)
    (res : Slice ExtendedStationDetails) :
  GetStationsDetails K T P w = (Next (res, None), w') ->
  exists l, res = Some l /\
            Forall (fun x => listedFrom w x /\
                             StorageType (esd_Station x) <> "file" /\
                             IsDeleted (esd_Station x) = false) l.
Proof.
  unfold GetStationsDetails. unfold bind at 1.
  destruct (stations_Find_cases GetStationsDetails_filter w) as [E | E];
    rewrite E.
  { intros H. discriminate H. }
  set (stations := map decodeStation _).
  destruct (List.length stations =? 0)%nat.
  { intros H. injection H as <- _. exists []. split; [reflexivity | constructor]. }
  unfold bind at 1.
  match goal with
  | |- context [@forEachRet ?A ?S ?R stations None ?b w] =>
      pose proof (@forEachRet_inv A S R
        (fun acc : S => Forall (fun x => listedFrom w x /\
                             StorageType (esd_Station x) <> "file" /\
                             IsDeleted (esd_Station x) = false) (elements acc))
        (fun r : R => snd r <> None)
        (fun s => exists d, In d (stationsCollection w) /\
                            matches GetStationsDetails_filter d = true /\
                            s = decodeStation d)
        b) as Hinv
  end.
  match type of Hinv with
  | ?A -> _ => assert (Hb : A); [| specialize (Hinv Hb stations None w)]
  end.
  { intros acc s w0 Hacc (d & Hin & Hm & ->).
    unfold GetTotalMessages, bind.
    destruct (StationNameFromStr K (Name (decodeStation d))) as [sn [e |]].
    - cbn -[IsNatsErr]. natsErr; cbn; [exact Hacc | discriminate].
    - destruct (T sn w0) as [[[n [e |]] | |] w1]; cbn -[IsNatsErr]; auto.
      { natsErr; cbn; [exact Hacc | discriminate]. }
      match goal with
      | |- context [P ?x w1] =>
          destruct (P x w1) as [[[n' [e |]] | |] w2]; cbn -[IsNatsErr]; auto
      end.
      { natsErr; cbn; [exact Hacc | discriminate]. }
      unfold GetTagsByStation, fails, bind, gets, ret.
      destruct (existsb _ (failing w2)); cbn; [discriminate |].
      assert (Hx : listedFrom w
                {| esd_Station := shownStation (decodeStation d);
                   esd_PoisonMessages := n'; esd_TotalMessages := n;
                   esd_Tags := [] |} /\
              StorageType (shownStation (decodeStation d)) <> "file" /\
              IsDeleted (shownStation (decodeStation d)) = false).
      { split; [exists d; auto |].
        split; [apply shownStation_not_file |].
        rewrite shownStation_IsDeleted. now apply live_decoded. }
      unfold append. destruct acc as [l |]; cbn in *.
      + apply Forall_app. split; [exact Hacc | constructor; [exact Hx | constructor]].
      + constructor; [exact Hx | constructor]. }
  assert (Hs : Forall (fun s => exists d, In d (stationsCollection w) /\
                         matches GetStationsDetails_filter d = true /\
                         s = decodeStation d) stations).
  { subst stations. apply Forall_forall. intros s Hin.
    apply in_map_iff in Hin. destruct Hin as (d & <- & Hd).
    unfold findMany in Hd. apply filter_In in Hd. destruct Hd as [Hd Hm].
    exists d. auto. }
  specialize (Hinv Hs (Forall_nil _)).
  revert Hinv.
  match goal with
  | |- context [forEachRet stations None ?b w] =>
      destruct (forEachRet stations None b w) as [[[acc | r] | |] w1]
  end; intros Hinv; try (intros H; discriminate H).
  - destruct acc as [l |]; intros H; injection H as <- _.
    + exists l. split; [reflexivity | exact Hinv].
    + exists []. split; [reflexivity | constructor].
  - intros H. injection H as -> _. simpl in Hinv. congruence.
Qed.

Lemma GetStationsDetails_lists_live_stations_witness :
  exists l,
    Some [ {| esd_Station := setStorageType "disk" ordersStation;
              esd_PoisonMessages := 4; esd_TotalMessages := 0;
              esd_Tags := [] |} ] = Some l /\
    Forall (fun x => listedFrom dlsWorld x /\
                     StorageType (esd_Station x) <> "file" /\
                     IsDeleted (esd_Station x) = false) l.
Proof.
  apply (@GetStationsDetails_lists_live_stations sampleConstants
           (fun sn => streamCount (Intern sn))
           (fun name => streamCount ("$memphis-" ++ name ++ "-dls"))
           dlsWorld
           (exec (GetStationsDetails sampleConstants
                    (fun sn => streamCount (Intern sn))
                    (fun name => streamCount ("$memphis-" ++ name ++ "-dls")))
                 dlsWorld)).
  vm_compute. reflexivity.
Defined.

Lemma stations_Aggregate_cases (f : Filter) (w : World) :
  stations_Aggregate f w = (Next (None, Some "store failure"), w) \/
  stations_Aggregate f w =
    (Next (Some (map (fun d =>
                   {| es_Station := GetAllStationsDetails_project d;
                      es_TotalMessages := 0%Z; es_PoisonMessages := 0%Z;
                      es_Tags := [] |})
                 (findMany f (stationsCollection w))), None), w).
Proof.
  unfold stations_Aggregate, fails, bind, gets, ret.
  destruct (existsb (Op_eqb OpStationsFind) (failing w)); auto.
Qed.

(** Whatever the counters of the stream engine answer, a listing by
    [GetAllStationsDetails] that returns without an error is the empty
    slice exactly when the collection has no live station:
    with live stations it is never the empty slice, so when every station
    is skipped because its stream is not found the result is the nil
    slice, which is encoded as [null]. *)
Theorem GetAllStationsDetails_nil_when_all_skipped
    (K : Constants) (T : StationName -> M (Z * error))
    (P : string -> M (Z * error)) (w w' : World)
    (res : Slice ExtendedStation) :
  GetAllStationsDetails K T P w = (Next (res, None), w') ->
  match findMany GetAllStationsDetails_filter (stationsCollection w) with
  | [] => res = Some []
  | _ :: _ => res <> Some []
  end.
Proof.
  unfold GetAllStationsDetails. unfold bind at 1.
  destruct (stations_Aggregate_cases GetAllStationsDetails_filter w) as [E | E];
    rewrite E.
  { intros H. discriminate H. }
  destruct (findMany GetAllStationsDetails_filter (stationsCollection w))
    as [| d0 live].
  { intros H. injection H as <- _. reflexivity. }
  set (stations := map _ (d0 :: live)).
  change (List.length stations =? 0)%nat with false. cbv iota.
  unfold bind at 1.
  match goal with
  | |- context [@forEachRet ?A ?S ?R stations None ?b w] =>
      pose proof (@forEachRet_inv A S R
        (fun acc : S => acc <> Some [])
        (fun r : R => snd r <> None)
        (fun _ => True)
        b) as Hinv
  end.
  match type of Hinv with
  | ?A -> _ => assert (Hb : A); [| specialize (Hinv Hb stations None w)]
  end.
  { intros acc s w0 Hacc _.
    unfold GetTotalMessages, bind.
    destruct (StationNameFromStr K (Name (es_Station s))) as [sn [e |]].
    - cbn -[IsNatsErr]. natsErr; cbn; [exact Hacc | discriminate].
    - destruct (T sn w0) as [[[n [e |]] | |] w1]; cbn -[IsNatsErr]; auto.
      { natsErr; cbn; [exact Hacc | discriminate]. }
      match goal with
      | |- context [P ?x w1] =>
          destruct (P x w1) as [[[n' [e |]] | |] w2]; cbn -[IsNatsErr]; auto
      end.
      { natsErr; cbn; [exact Hacc | discriminate]. }
      unfold GetTagsByStation, fails, bind, gets, ret.
      destruct (existsb _ (failing w2)); cbn; [discriminate |].
      unfold append. destruct acc as [l |]; [| discriminate].
      destruct l; discriminate. }
  assert (Hs : Forall (fun _ : ExtendedStation => True) stations).
  { apply Forall_forall. intros; exact I. }
  assert (H0 : @None (list ExtendedStation) <> Some []) by discriminate.
  specialize (Hinv Hs H0).
  revert Hinv.
  match goal with
  | |- context [forEachRet stations None ?b w] =>
      destruct (forEachRet stations None b w) as [[[acc | r] | |] w1]
  end; intros Hinv; try (intros H; discriminate H).
  - intros H. injection H as <- _. exact Hinv.
  - intros H. injection H as -> _. simpl in Hinv. congruence.
Qed.

Lemma GetAllStationsDetails_nil_when_all_skipped_witness :
  outcome (GetAllStationsDetails sampleConstants
             (fun sn => streamCount (Intern sn))
             (fun name => streamCount ("$memphis-" ++ name ++ "-dls")))
          streamlessWorld = Next (None, None) /\
  @None (list ExtendedStation) <> Some [].
Proof.
  split; [vm_compute; reflexivity |].
  apply (@GetAllStationsDetails_nil_when_all_skipped sampleConstants
           (fun sn => streamCount (Intern sn))
           (fun name => streamCount ("$memphis-" ++ name ++ "-dls"))
           streamlessWorld
           (exec (GetAllStationsDetails sampleConstants
                    (fun sn => streamCount (Intern sn))
                    (fun name => streamCount ("$memphis-" ++ name ++ "-dls")))
                 streamlessWorld)
           None).
  vm_compute. reflexivity.
Defined.

(** ** The log view *)

Lemma findIndex_bounds {A} (p : A -> bool) (l : list A) :
  (-1 <= findIndex p l)%Z.
Proof.
  induction l as [| x l IH]; simpl; [lia |].
  destruct (p x); [lia |].
  destruct (findIndex p l <? 0)%Z eqn:E; lia.
Qed.

Lemma findIndex_none {A} (p : A -> bool) (l : list A) :
  Forall (fun x => p x = false) l -> findIndex p l = (-1)%Z.
Proof.
  induction 1 as [| x l Hx _ IH]; simpl; [reflexivity |].
  rewrite Hx, IH. reflexivity.
Qed.

Lemma findIndex_found {A} (p : A -> bool) (l : list A) :
  Exists (fun x => p x = true) l ->
  exists newer x rest,
    l = (newer ++ x :: rest)%list /\ p x = true /\
    Forall (fun y => p y = false) newer /\
    findIndex p l = Z.of_nat (List.length newer).
Proof.
  induction l as [| a l IH]; intros H.
  - inversion H.
  - simpl. destruct (p a) eqn:Ea.
    + exists [], a, l. repeat split; auto.
    + assert (Hl : Exists (fun x => p x = true) l).
      { inversion H; subst; [congruence | assumption]. }
      destruct (IH Hl) as (newer & x & rest & -> & Hx & Hn & Hi).
      exists (a :: newer), x, rest. repeat split; auto.
      rewrite Hi.
      destruct (Z.of_nat (List.length newer) <? 0)%Z eqn:E.
      * apply Z.ltb_lt in E. lia.
      * simpl List.length. lia.
Qed.

Lemma slice_prefix {A} (l l' : list A) :
  slice (l ++ l')%list 0 (Z.of_nat (List.length l)) = l.
Proof.
  unfold slice, relativeIndex. rewrite length_app.
  change (0 <? 0)%Z with false. cbv iota.
  destruct (Z.of_nat (List.length l) <? 0)%Z eqn:E.
  { apply Z.ltb_lt in E. lia. }
  rewrite Z.min_l by lia.
  replace (Z.min 0 (Z.of_nat (List.length l + List.length l'))) with 0%Z by lia.
  simpl. rewrite Z.sub_0_r, Nat2Z.id.
  rewrite firstn_app, Nat.sub_diag, firstn_all. simpl. apply app_nil_r.
Qed.

Lemma slice_minus_one {A} (l : list A) :
  slice l 0 (-1) = removelast l.
Proof.
  unfold slice, relativeIndex.
  change (0 <? 0)%Z with false. change (-1 <? 0)%Z with true. cbv iota.
  replace (Z.min 0 (Z.of_nat (List.length l))) with 0%Z by lia.
  simpl skipn. rewrite Z.sub_0_r.
  rewrite removelast_firstn_len. f_equal.
  destruct l as [| a l]; [reflexivity |].
  simpl List.length. lia.
Qed.

(** The subscription of [startListen]: when a pushed batch contains a log with the
    sequence number the view saw last, the view prepends exactly the logs
    of the batch that come before the first such log: none of them has that
    sequence number, and the rest of the batch is left out. *)
Theorem onMessage_prepends_the_newer_logs
    (Log : Type) (message_seq : Log -> Z) (batch : list Log)
    (s s' : LogsState Log) :
  Exists (fun log => message_seq log = st_lastMgsSeq s) batch ->
  onMessage message_seq (Some batch) s = Some s' ->
  exists newer known rest,
    batch = (newer ++ known :: rest)%list /\
    message_seq known = st_lastMgsSeq s /\
    Forall (fun log => message_seq log <> st_lastMgsSeq s) newer /\
    st_logs s' = (newer ++ st_logs s)%list.
Proof.
  intros Hex H.
  assert (Hex' : Exists (fun log => (message_seq log =? st_lastMgsSeq s)%Z = true) batch).
  { apply Exists_exists in Hex. destruct Hex as (x & Hin & Hx).
    apply Exists_exists. exists x. split; [exact Hin | now apply Z.eqb_eq]. }
  destruct (findIndex_found _ Hex') as (newer & x & rest & -> & Hx & Hn & Hi).
  exists newer, x, rest. split; [reflexivity |].
  split; [now apply Z.eqb_eq |].
  split.
  { eapply Forall_impl; [| exact Hn]. intros a Ha. now apply Z.eqb_neq. }
  unfold onMessage in H. rewrite Hi, slice_prefix in H.
  destruct (newer ++ x :: rest)%list; [discriminate |].
  injection H as <-. reflexivity.
Qed.

Lemma onMessage_prepends_the_newer_logs_witness :
  exists newer known rest,
    [12; 11; 10; 9]%Z = (newer ++ known :: rest)%list /\
    known = 10%Z /\
    Forall (fun log => log <> 10%Z) newer /\
    [12; 11; 10; 9; 8]%Z = (newer ++ [10; 9; 8]%Z)%list.
Proof.
  apply (@onMessage_prepends_the_newer_logs Z (fun z => z) [12; 11; 10; 9]%Z
           {| st_logs := [10; 9; 8]%Z; st_lastMgsSeq := 10;
              st_selectedRow := None; st_displayedLog := None;
              st_changeSelected := true |}
           {| st_logs := [12; 11; 10; 9; 8]%Z; st_lastMgsSeq := 12;
              st_selectedRow := Some 12%Z; st_displayedLog := Some 12%Z;
              st_changeSelected := true |}).
  - apply Exists_cons_tl, Exists_cons_tl, Exists_cons_hd. reflexivity.
  - reflexivity.
Defined.

(** The subscription of [startListen]: when no log of a pushed batch has the sequence
    number the view saw last, [findIndex] answers [-1] and the slice ends
    before the last element: the view prepends the batch without its last
    log, which is lost. *)
Theorem onMessage_drops_the_last_log_of_an_unknown_batch
    (Log : Type) (message_seq : Log -> Z) (batch : list Log)
    (s s' : LogsState Log) :
  Forall (fun log => message_seq log <> st_lastMgsSeq s) batch ->
  onMessage message_seq (Some batch) s = Some s' ->
  st_logs s' = (removelast batch ++ st_logs s)%list.
Proof.
  intros Hall H.
  assert (Hn : Forall (fun log => (message_seq log =? st_lastMgsSeq s)%Z = false) batch).
  { eapply Forall_impl; [| exact Hall]. intros a Ha. now apply Z.eqb_neq. }
  unfold onMessage in H. rewrite (findIndex_none _ Hn), slice_minus_one in H.
  destruct batch; [discriminate |].
  injection H as <-. reflexivity.
Qed.

Lemma onMessage_drops_the_last_log_of_an_unknown_batch_witness :
  [12; 11; 8]%Z = (removelast [12; 11; 10]%Z ++ [8]%Z)%list.
Proof.
  apply (@onMessage_drops_the_last_log_of_an_unknown_batch Z (fun z => z)
           [12; 11; 10]%Z
           {| st_logs := [8]%Z; st_lastMgsSeq := 8;
              st_selectedRow := None; st_displayedLog := None;
              st_changeSelected := false |}
           {| st_logs := [12; 11; 8]%Z; st_lastMgsSeq := 12;
              st_selectedRow := None; st_displayedLog := None;
              st_changeSelected := false |}).
  - repeat constructor; discriminate.
  - reflexivity.
Defined.

(** The subscription of [startListen]: a batch that is pushed again once the view has
    rendered it changes nothing: its first log carries the sequence number
    the view saw last, so no log is prepended a second time. *)
Theorem onMessage_ignores_a_repeated_batch
    (Log : Type) (message_seq : Log -> Z) (dataLogs : option (list Log))
    (s s' : LogsState Log) :
  onMessage message_seq dataLogs s = Some s' ->
  onMessage message_seq dataLogs s' = Some s'.
Proof.
  unfold onMessage. destruct dataLogs as [[| first rest] |]; try discriminate.
  intros H. injection H as <-. cbn [st_lastMgsSeq st_logs st_changeSelected
                                     st_selectedRow st_displayedLog findIndex].
  rewrite Z.eqb_refl.
  change (slice (first :: rest) 0 0) with (@nil Log).
  cbn [app]. destruct (st_changeSelected s); reflexivity.
Qed.

Lemma onMessage_ignores_a_repeated_batch_witness :
  onMessage (fun z => z) (Some [12; 11; 10]%Z)
    {| st_logs := [12; 11; 8]%Z; st_lastMgsSeq := 12;
       st_selectedRow := None; st_displayedLog := None;
       st_changeSelected := false |} =
  Some {| st_logs := [12; 11; 8]%Z; st_lastMgsSeq := 12;
          st_selectedRow := None; st_displayedLog := None;
          st_changeSelected := false |}.
Proof.
  apply (@onMessage_ignores_a_repeated_batch Z (fun z => z)
           (Some [12; 11; 10]%Z)
           {| st_logs := [8]%Z; st_lastMgsSeq := 8;
              st_selectedRow := None; st_displayedLog := None;
              st_changeSelected := false |}).
  reflexivity.
Defined.

(** * Dead-letter requests are served from the station of the first id *)





Section Fetching.

Variable K : Constants.
Variable sn : StationName.
Variable T0 : list Event.
Variable stored : list StoredMsg.

Let D := dlsStreamName K (Intern sn).
Let subj := GetDlsSubject K "poison" (Intern sn).
Let I := fetching K sn T0 stored.











End Fetching.











(** The request [mixedIds] on the sample station: the three ids are
    fetched from the DLS stream of [orders], each with its own poison
    subject; the first collects its two messages, the id of another
    station and the schemaverse id collect nothing, although the stream
    holds the schemaverse message with the id [orders~schema~3]. *)
Lemma mixed_ids_run :
  let w' := exec (AckPoisonMessages sampleConstants sampleContext mixedIds) dlsWorld in
  outcome (AckPoisonMessages sampleConstants sampleContext mixedIds) dlsWorld = Next tt /\
  (exists t, added (trace dlsWorld) (trace w') t /\
     fetches t =
       [ {| f_stream := "$memphis-orders-dls";
            f_filter := "$memphis-orders-dls.poison.orders~poison~1";
            f_msgs := firstn 2 dlsMessages |};
         {| f_stream := "$memphis-orders-dls";
            f_filter := "$memphis-orders-dls.poison.other~poison~9";
            f_msgs := [] |};
         {| f_stream := "$memphis-orders-dls";
            f_filter := "$memphis-orders-dls.poison.orders~schema~3";
            f_msgs := [] |} ]) /\
  map Sequence (messagesOf "$memphis-orders-dls" (streams w')) = [3; 4] /\
  foreignId sampleConstants "orders" "other~poison~9" /\
  foreignId sampleConstants "orders" "orders~schema~3" /\
  (forall id, In id mixedIds -> filedByOwnId sampleConstants "orders" id dlsMessages).
Proof.
  split; [vm_compute; reflexivity |].
  split; [eexists; split; [unfold added; vm_compute; reflexivity | vm_compute; reflexivity] |].
  split; [vm_compute; reflexivity |].
  split; [left; vm_compute; discriminate |].
  split; [right; vm_compute; discriminate |].
  intros id Hid m Hm. simpl in Hid, Hm.
  destruct Hm as [<- | [<- | [<- | [<- | []]]]].
  - exists "poison", "orders~poison~1".
    destruct Hid as [<- | [<- | [<- | []]]];
      repeat split; try reflexivity; simpl in *; congruence.
  - exists "poison", "orders~poison~1".
    destruct Hid as [<- | [<- | [<- | []]]];
      repeat split; try reflexivity; simpl in *; congruence.
  - exists "schema", "orders~schema~3".
    destruct Hid as [<- | [<- | [<- | []]]];
      repeat split; try reflexivity; simpl in *; congruence.
  - exists "poison", "orders~poison~4".
    destruct Hid as [<- | [<- | [<- | []]]];
      repeat split; try reflexivity; simpl in *; congruence.
Qed.
